(** * Slide beautifier: the asynchronous job-processing engine

    A shallow embedding of the server's job engine:
    - [services/database.ts]: the Work Store (SQLite tables and their
      single-statement accessors);
    - [services/gemini.ts]: the Generation Gateway ([getClient],
      [generateImage]);
    - [services/batchProcessor.ts] and [services/pptxProcessor.ts]: the two
      Job Processors with their process-wide registries;
    - [routes/batch.ts] and [routes/pptx.ts]: the create, retry and cancel
      handlers that drive the processors, the status route, the names in the
      downloaded archive and the cache of extracted slides;
    - [routes/beautify.ts] and [routes/history.ts]: the single-image route
      and the history table it fills.

    The async functions are cut at their [await]s: the code between two
    awaits runs to completion (JavaScript's run-to-completion rule), so each
    such stretch is one function in a small state-and-exception monad, and the
    server is a labelled transition system whose labels are HTTP requests and
    the settling of the promises the suspended calls are waiting for. *)

From Stdlib Require Import ZArith String Ascii List Lia Bool.
From stdpp Require Import base tactics option list gmap sorting.
Import ListNotations.
Local Open Scope string_scope.
Local Open Scope Z_scope.

(** ** JavaScript values and coercions *)

(** What a [catch (error)] clause can receive: an [Error] object (only its
    [message] is ever read) or some other thrown value. The message is a
    string: so it is for every exception of better-sqlite3 and of the
    JavaScript engine; the one place where another message can arrive, the
    [catch] block of [generateImage], has [ProviderOutcome] for it. *)
Inductive JsValue :=
| JsError (message : string)
| JsNonError.

(** [s] as a condition: [undefined] and the empty string are falsy. *)
Definition truthy (s : option string) : bool :=
  match s with
  | Some EmptyString => false
  | Some _ => true
  | None => false
  end.

(** [s || null] on an optional string. *)
Definition orNull (s : option string) : option string :=
  if truthy s then s else None.

(** [n || null] on an optional number: [0] is falsy. *)
Definition numOrNull (n : option Z) : option Z :=
  match n with
  | Some 0 => None
  | Some k => Some k
  | None => None
  end.

(** [s || d] with a string default. *)
Definition orElse (s : option string) (d : string) : string :=
  match s with
  | Some EmptyString => d
  | Some v => v
  | None => d
  end.

(** [String.prototype.includes]. *)
Fixpoint includes (s sub : string) : bool :=
  if String.prefix sub s then true
  else match s with
       | EmptyString => false
       | String _ rest => includes rest sub
       end.

(** [String.prototype.toLowerCase], on the ASCII letters. *)
Definition lowerAscii (c : ascii) : ascii :=
  let n := nat_of_ascii c in
  if (Nat.leb 65 n && Nat.leb n 90)%bool then ascii_of_nat (n + 32) else c.

Fixpoint toLowerCase (s : string) : string :=
  match s with
  | EmptyString => EmptyString
  | String c rest => String (lowerAscii c) (toLowerCase rest)
  end.

(** ** The Work Store: [services/database.ts] *)

(** The string literals of the four status unions ([BatchStatus],
    [BatchItemStatus], [PptxJobStatus], [PptxSlideStatus]); the column is
    [TEXT] in every table. *)
Inductive Status :=
| pending | extracting | processing | assembling | completed | failed.

Global Instance Status_eq_dec : EqDecision Status.
Proof. solve_decision. Defined.

Definition isTerminalStatus (s : Status) : bool :=
  match s with
  | completed | failed => true
  | _ => false
  end.

(** [interface Batch]. [estimated_cost] (a [REAL]) and [created_at] are
    written once at insertion and never read by the engine; they are left
    out. [completed_at] records only whether the column holds a time stamp. *)
Module Batch.
Record t := mk {
  id : Z;
  status : Status;
  total_items : Z;
  completed_items : Z;
  failed_items : Z;
  prompt : string;
  preset : option string;
  aspect_ratio : option string;
  completed_at : bool
}.
End Batch.

(** [interface BatchItem]. *)
Module BatchItem.
Record t := mk {
  id : Z;
  batch_id : Z;
  filename : string;
  original_image : string;
  original_mime_type : string;
  generated_image : option string;
  generated_mime_type : option string;
  status : Status;
  error : option string;
  processing_time : option Z
}.
End BatchItem.

(** [interface PptxJob]; the slide dimensions are [REAL]s used only as the
    page size handed to the assembly tool and are left out. *)
Module PptxJob.
Record t := mk {
  id : Z;
  status : Status;
  original_filename : string;
  total_slides : Z;
  completed_slides : Z;
  failed_slides : Z;
  prompt : string;
  preset : option string;
  aspect_ratio : option string;
  completed_at : bool
}.
End PptxJob.

(** [interface PptxSlide]. *)
Module PptxSlide.
Record t := mk {
  id : Z;
  job_id : Z;
  slide_number : Z;
  status : Status;
  original_image : string;
  beautified_image : option string;
  error : option string;
  processing_time : option Z
}.
End PptxSlide.

(** The database: each table is the list of its rows in insertion order,
    with the [AUTOINCREMENT] sequence of its primary key. *)
Record DB := mkDB {
  batches : list Batch.t;
  batch_items : list BatchItem.t;
  pptx_jobs : list PptxJob.t;
  pptx_slides : list PptxSlide.t;
  seq_batches : Z;
  seq_batch_items : Z;
  seq_pptx_jobs : Z;
  seq_pptx_slides : Z
}.

Definition emptyDB : DB := mkDB [] [] [] [] 0 0 0 0.

Definition set_batches (f : list Batch.t → list Batch.t) (d : DB) : DB :=
  mkDB (f (batches d)) (batch_items d) (pptx_jobs d) (pptx_slides d)
       (seq_batches d) (seq_batch_items d) (seq_pptx_jobs d) (seq_pptx_slides d).

Definition set_batch_items (f : list BatchItem.t → list BatchItem.t) (d : DB) : DB :=
  mkDB (batches d) (f (batch_items d)) (pptx_jobs d) (pptx_slides d)
       (seq_batches d) (seq_batch_items d) (seq_pptx_jobs d) (seq_pptx_slides d).

Definition set_pptx_jobs (f : list PptxJob.t → list PptxJob.t) (d : DB) : DB :=
  mkDB (batches d) (batch_items d) (f (pptx_jobs d)) (pptx_slides d)
       (seq_batches d) (seq_batch_items d) (seq_pptx_jobs d) (seq_pptx_slides d).

Definition set_pptx_slides (f : list PptxSlide.t → list PptxSlide.t) (d : DB) : DB :=
  mkDB (batches d) (batch_items d) (pptx_jobs d) (f (pptx_slides d))
       (seq_batches d) (seq_batch_items d) (seq_pptx_jobs d) (seq_pptx_slides d).

(** *** SQL building blocks *)

(** [UPDATE t SET ... WHERE p]. *)
Definition sqlUpdate {A} (p : A → bool) (f : A → A) (rows : list A) : list A :=
  map (λ r, if p r then f r else r) rows.

(** [SELECT * FROM t WHERE p] through [stmt.get]: the first matching row. *)
Definition sqlGet {A} (p : A → bool) (rows : list A) : option A :=
  List.find p rows.

(** Sorting by an integer key. *)
Definition keyLe {A} (key : A → Z) : relation A := λ a b, key a ≤ key b.

Global Instance keyLe_dec {A} (key : A → Z) : RelDecision (keyLe key).
Proof. intros a b. unfold keyLe. apply _. Defined.

(** A stable sort: elements with equal keys keep the order they come in.
    [x] goes before the first element whose key is not below its own. *)
Fixpoint insertBy {A} (key : A → Z) (x : A) (l : list A) : list A :=
  match l with
  | [] => [x]
  | y :: rest => if key x <=? key y then x :: y :: rest else y :: insertBy key x rest
  end.

Definition stableSort {A} (key : A → Z) (l : list A) : list A :=
  foldr (insertBy key) [] l.

(** [ORDER BY key]. SQL leaves the order of rows with equal keys open; SQLite,
    which has no index on any of the columns sorted by, returns them in the
    order of its scan of the table, that is by [rowid], which is the order the
    rows are kept in here. *)
Definition orderBy {A} (key : A → Z) (rows : list A) : list A :=
  stableSort key rows.

(** [SELECT ... WHERE p ORDER BY key LIMIT 1] through [stmt.get]. *)
Definition sqlFirstBy {A} (p : A → bool) (key : A → Z) (rows : list A) : option A :=
  head (orderBy key (List.filter p rows)).

(** *** The statements

    Each function of [database.ts] prepares and runs SQL statements; [Sql]
    holds the effect of each statement on the tables, under the name of the
    function that runs it. *)
Module Sql.

(** [result?: { generatedImage?, generatedMimeType?, error?, processingTime? }] *)
Record ItemResult := mkItemResult {
  generatedImage : option string;
  generatedMimeType : option string;
  error : option string;
  processingTime : option Z
}.

(** [result?: { beautifiedImage?, error?, processingTime? }] *)
Record SlideResult := mkSlideResult {
  beautifiedImage : option string;
  slideError : option string;
  slideProcessingTime : option Z
}.

(** The [INSERT INTO batches] of [createBatch]; returns [lastInsertRowid]. *)
Definition insertBatch (total : Z) (prompt : string)
    (preset aspectRatio : option string) (d : DB) : Z * DB :=
  let id := seq_batches d + 1 in
  let row := Batch.mk id pending total 0 0 prompt
               (orNull preset) (orNull aspectRatio) false in
  (id, mkDB (batches d ++ [row]) (batch_items d) (pptx_jobs d) (pptx_slides d)
            id (seq_batch_items d) (seq_pptx_jobs d) (seq_pptx_slides d)).

(** The [INSERT INTO batch_items] of [createBatch]. *)
Definition insertBatchItem (batchId : Z) (filename image mimeType : string)
    (d : DB) : DB :=
  let id := seq_batch_items d + 1 in
  let row := BatchItem.mk id batchId filename image mimeType
               None None pending None None in
  mkDB (batches d) (batch_items d ++ [row]) (pptx_jobs d) (pptx_slides d)
       (seq_batches d) id (seq_pptx_jobs d) (seq_pptx_slides d).

Definition getBatch (id : Z) (d : DB) : option Batch.t :=
  sqlGet (λ b, Batch.id b =? id) (batches d).

Definition getBatchItems (batchId : Z) (d : DB) : list BatchItem.t :=
  orderBy BatchItem.id
    (List.filter (λ i, BatchItem.batch_id i =? batchId) (batch_items d)).

Definition getBatchItem (id : Z) (d : DB) : option BatchItem.t :=
  sqlGet (λ i, BatchItem.id i =? id) (batch_items d).

(** [WHERE batch_id = ? AND status = 'pending' ORDER BY id LIMIT 1] *)
Definition getNextPendingBatchItem (batchId : Z) (d : DB) : option BatchItem.t :=
  sqlFirstBy
    (λ i, (BatchItem.batch_id i =? batchId) && bool_decide (BatchItem.status i = pending))
    BatchItem.id (batch_items d).

(** [SET status = ?, completed_at = CASE WHEN ? IN ('completed', 'failed')
    THEN CURRENT_TIMESTAMP ELSE NULL END WHERE id = ?] *)
Definition updateBatchStatus (id : Z) (status : Status) (d : DB) : DB :=
  set_batches
    (sqlUpdate (λ b, Batch.id b =? id)
       (λ b, Batch.mk (Batch.id b) status (Batch.total_items b)
               (Batch.completed_items b) (Batch.failed_items b)
               (Batch.prompt b) (Batch.preset b) (Batch.aspect_ratio b)
               (isTerminalStatus status))) d.

(** [SET status = ?, generated_image = ?, generated_mime_type = ?,
    error = ?, processing_time = ? WHERE id = ?], the four values being
    [result?.x || null]. *)
Definition updateBatchItemStatus (id : Z) (status : Status)
    (result : option ItemResult) (d : DB) : DB :=
  set_batch_items
    (sqlUpdate (λ i, BatchItem.id i =? id)
       (λ i, BatchItem.mk (BatchItem.id i) (BatchItem.batch_id i)
               (BatchItem.filename i) (BatchItem.original_image i)
               (BatchItem.original_mime_type i)
               (orNull (result ≫= generatedImage))
               (orNull (result ≫= generatedMimeType))
               status
               (orNull (result ≫= error))
               (numOrNull (result ≫= processingTime)))) d.

Definition incrementBatchCompleted (batchId : Z) (failed : bool) (d : DB) : DB :=
  if failed then
    set_batches
      (sqlUpdate (λ b, Batch.id b =? batchId)
         (λ b, Batch.mk (Batch.id b) (Batch.status b) (Batch.total_items b)
                 (Batch.completed_items b + 1) (Batch.failed_items b + 1)
                 (Batch.prompt b) (Batch.preset b) (Batch.aspect_ratio b)
                 (Batch.completed_at b))) d
  else
    set_batches
      (sqlUpdate (λ b, Batch.id b =? batchId)
         (λ b, Batch.mk (Batch.id b) (Batch.status b) (Batch.total_items b)
                 (Batch.completed_items b + 1) (Batch.failed_items b)
                 (Batch.prompt b) (Batch.preset b) (Batch.aspect_ratio b)
                 (Batch.completed_at b))) d.

Definition resetBatchItem (id : Z) (d : DB) : DB :=
  set_batch_items
    (sqlUpdate (λ i, BatchItem.id i =? id)
       (λ i, BatchItem.mk (BatchItem.id i) (BatchItem.batch_id i)
               (BatchItem.filename i) (BatchItem.original_image i)
               (BatchItem.original_mime_type i)
               None None pending None None)) d.

Definition decrementBatchFailed (batchId : Z) (d : DB) : DB :=
  set_batches
    (sqlUpdate (λ b, Batch.id b =? batchId)
       (λ b, Batch.mk (Batch.id b) (Batch.status b) (Batch.total_items b)
               (Batch.completed_items b - 1) (Batch.failed_items b - 1)
               (Batch.prompt b) (Batch.preset b) (Batch.aspect_ratio b)
               (Batch.completed_at b))) d.

(** The [INSERT INTO pptx_jobs] of [createPptxJob]. *)
Definition insertPptxJob (filename : string) (total : Z) (prompt : string)
    (preset aspectRatio : option string) (d : DB) : Z * DB :=
  let id := seq_pptx_jobs d + 1 in
  let row := PptxJob.mk id pending filename total 0 0 prompt
               (orNull preset) (orNull aspectRatio) false in
  (id, mkDB (batches d) (batch_items d) (pptx_jobs d ++ [row]) (pptx_slides d)
            (seq_batches d) (seq_batch_items d) id (seq_pptx_slides d)).

(** The [INSERT INTO pptx_slides] of [createPptxJob]. *)
Definition insertPptxSlide (jobId slideNumber : Z) (imageData : string)
    (d : DB) : DB :=
  let id := seq_pptx_slides d + 1 in
  let row := PptxSlide.mk id jobId slideNumber pending imageData None None None in
  mkDB (batches d) (batch_items d) (pptx_jobs d) (pptx_slides d ++ [row])
       (seq_batches d) (seq_batch_items d) (seq_pptx_jobs d) id.

Definition getPptxJob (id : Z) (d : DB) : option PptxJob.t :=
  sqlGet (λ j, PptxJob.id j =? id) (pptx_jobs d).

(** [WHERE job_id = ? ORDER BY slide_number] *)
Definition getPptxSlides (jobId : Z) (d : DB) : list PptxSlide.t :=
  orderBy PptxSlide.slide_number
    (List.filter (λ s, PptxSlide.job_id s =? jobId) (pptx_slides d)).

Definition getPptxSlide (id : Z) (d : DB) : option PptxSlide.t :=
  sqlGet (λ s, PptxSlide.id s =? id) (pptx_slides d).

(** [WHERE job_id = ? AND status = 'pending' ORDER BY slide_number LIMIT 1] *)
Definition getNextPendingPptxSlide (jobId : Z) (d : DB) : option PptxSlide.t :=
  sqlFirstBy
    (λ s, (PptxSlide.job_id s =? jobId) && bool_decide (PptxSlide.status s = pending))
    PptxSlide.slide_number (pptx_slides d).

Definition updatePptxJobStatus (id : Z) (status : Status) (d : DB) : DB :=
  set_pptx_jobs
    (sqlUpdate (λ j, PptxJob.id j =? id)
       (λ j, PptxJob.mk (PptxJob.id j) status (PptxJob.original_filename j)
               (PptxJob.total_slides j) (PptxJob.completed_slides j)
               (PptxJob.failed_slides j) (PptxJob.prompt j) (PptxJob.preset j)
               (PptxJob.aspect_ratio j) (isTerminalStatus status))) d.

Definition updatePptxSlideStatus (id : Z) (status : Status)
    (result : option SlideResult) (d : DB) : DB :=
  set_pptx_slides
    (sqlUpdate (λ s, PptxSlide.id s =? id)
       (λ s, PptxSlide.mk (PptxSlide.id s) (PptxSlide.job_id s)
               (PptxSlide.slide_number s) status (PptxSlide.original_image s)
               (orNull (result ≫= beautifiedImage))
               (orNull (result ≫= slideError))
               (numOrNull (result ≫= slideProcessingTime)))) d.

Definition incrementPptxCompleted (jobId : Z) (failed : bool) (d : DB) : DB :=
  if failed then
    set_pptx_jobs
      (sqlUpdate (λ j, PptxJob.id j =? jobId)
         (λ j, PptxJob.mk (PptxJob.id j) (PptxJob.status j)
                 (PptxJob.original_filename j) (PptxJob.total_slides j)
                 (PptxJob.completed_slides j + 1) (PptxJob.failed_slides j + 1)
                 (PptxJob.prompt j) (PptxJob.preset j) (PptxJob.aspect_ratio j)
                 (PptxJob.completed_at j))) d
  else
    set_pptx_jobs
      (sqlUpdate (λ j, PptxJob.id j =? jobId)
         (λ j, PptxJob.mk (PptxJob.id j) (PptxJob.status j)
                 (PptxJob.original_filename j) (PptxJob.total_slides j)
                 (PptxJob.completed_slides j + 1) (PptxJob.failed_slides j)
                 (PptxJob.prompt j) (PptxJob.preset j) (PptxJob.aspect_ratio j)
                 (PptxJob.completed_at j))) d.

Definition resetPptxSlide (id : Z) (d : DB) : DB :=
  set_pptx_slides
    (sqlUpdate (λ s, PptxSlide.id s =? id)
       (λ s, PptxSlide.mk (PptxSlide.id s) (PptxSlide.job_id s)
               (PptxSlide.slide_number s) pending (PptxSlide.original_image s)
               None None None)) d.

Definition decrementPptxFailed (jobId : Z) (d : DB) : DB :=
  set_pptx_jobs
    (sqlUpdate (λ j, PptxJob.id j =? jobId)
       (λ j, PptxJob.mk (PptxJob.id j) (PptxJob.status j)
               (PptxJob.original_filename j) (PptxJob.total_slides j)
               (PptxJob.completed_slides j - 1) (PptxJob.failed_slides j - 1)
               (PptxJob.prompt j) (PptxJob.preset j) (PptxJob.aspect_ratio j)
               (PptxJob.completed_at j))) d.

End Sql.

(** ** The process: heap, exceptions, suspension *)

(** A [Buffer] is opaque to the engine. *)
Definition Buffer := string.

(** The module-level state of the server process, with the two inputs the
    environment feeds a running stretch of code: what [Date.now()] returns
    and which of the statements it runs against SQLite throw ([Some e]:
    the next statement throws [e] and changes nothing; an exhausted plan
    means every further statement succeeds). *)
Record Heap := mkHeap {
  db : DB;
  activeBatches : gmap Z bool;       (* batchProcessor.ts *)
  activeJobs : gmap Z bool;          (* pptxProcessor.ts *)
  pptxResults : gmap Z Buffer;       (* pptxProcessor.ts *)
  genAI : bool;                      (* gemini.ts: the client exists *)
  GEMINI_API_KEY : option string;    (* process.env *)
  now : Z;
  faults : list (option JsValue)
}.

Definition set_db (f : DB → DB) (h : Heap) : Heap :=
  mkHeap (f (db h)) (activeBatches h) (activeJobs h) (pptxResults h)
         (genAI h) (GEMINI_API_KEY h) (now h) (faults h).

Definition set_activeBatches (f : gmap Z bool → gmap Z bool) (h : Heap) : Heap :=
  mkHeap (db h) (f (activeBatches h)) (activeJobs h) (pptxResults h)
         (genAI h) (GEMINI_API_KEY h) (now h) (faults h).

Definition set_activeJobs (f : gmap Z bool → gmap Z bool) (h : Heap) : Heap :=
  mkHeap (db h) (activeBatches h) (f (activeJobs h)) (pptxResults h)
         (genAI h) (GEMINI_API_KEY h) (now h) (faults h).

Definition set_pptxResults (f : gmap Z Buffer → gmap Z Buffer) (h : Heap) : Heap :=
  mkHeap (db h) (activeBatches h) (activeJobs h) (f (pptxResults h))
         (genAI h) (GEMINI_API_KEY h) (now h) (faults h).

Definition set_genAI (b : bool) (h : Heap) : Heap :=
  mkHeap (db h) (activeBatches h) (activeJobs h) (pptxResults h)
         b (GEMINI_API_KEY h) (now h) (faults h).

Definition set_faults (fs : list (option JsValue)) (h : Heap) : Heap :=
  mkHeap (db h) (activeBatches h) (activeJobs h) (pptxResults h)
         (genAI h) (GEMINI_API_KEY h) (now h) fs.

Definition set_env (t : Z) (fs : list (option JsValue)) (h : Heap) : Heap :=
  mkHeap (db h) (activeBatches h) (activeJobs h) (pptxResults h)
         (genAI h) (GEMINI_API_KEY h) t fs.

(** The outcome of a stretch of code, and of a promise once settled. *)
Inductive Res (A : Type) :=
| Ret (a : A)
| Throw (e : JsValue).
Arguments Ret {A} a.
Arguments Throw {A} e.

Definition M (A : Type) : Type := Heap → Res A * Heap.

Definition ret {A} (a : A) : M A := λ h, (Ret a, h).

Definition throw {A} (e : JsValue) : M A := λ h, (Throw e, h).

Definition bind {A B} (m : M A) (k : A → M B) : M B :=
  λ h, match m h with
       | (Ret a, h') => k a h'
       | (Throw e, h') => (Throw e, h')
       end.

(** [try { m } catch (error) { handler error }] *)
Definition tryCatch {A} (m : M A) (handler : JsValue → M A) : M A :=
  λ h, match m h with
       | (Ret a, h') => (Ret a, h')
       | (Throw e, h') => handler e h'
       end.

Definition gets {A} (f : Heap → A) : M A := λ h, (Ret (f h), h).

Definition modify (f : Heap → Heap) : M unit := λ h, (Ret tt, f h).

(** [await p] for a promise that has settled with [r]. *)
Definition await {A} (r : Res A) : M A := λ h, (r, h).

(** One statement run against the database. *)
Definition stmt {A} (f : DB → A * DB) : M A :=
  λ h, match faults h with
       | Some e :: fs => (Throw e, set_faults fs h)
       | None :: fs => (Ret (f (db h)).1, set_faults fs (set_db (λ _, (f (db h)).2) h))
       | [] => (Ret (f (db h)).1, set_db (λ _, (f (db h)).2) h)
       end.

Definition query {A} (f : DB → A) : M A := stmt (λ d, (f d, d)).

Definition exec (f : DB → DB) : M unit := stmt (λ d, (tt, f d)).

Declare Scope M_scope.
Delimit Scope M_scope with M.
Notation "'let*' x ':=' m 'in' k" := (bind m (λ x, k))
  (at level 10, x name, m at level 100, k at level 200) : M_scope.
Notation "m '>>' k" := (bind m (λ _, k))
  (at level 100, k at level 200, right associativity) : M_scope.
Local Open Scope M_scope.

(** [for (const x of xs) { body x }] *)
Fixpoint forEach {A} (xs : list A) (body : A → M unit) : M unit :=
  match xs with
  | [] => ret tt
  | x :: rest => body x >> forEach rest body
  end.

(** [Date.now()] *)
Definition Date_now : M Z := gets now.

(** *** The exported functions of [database.ts] *)

Record BatchInputItem := mkBatchInputItem {
  in_filename : string;
  in_image : string;
  in_mimeType : string
}.

Record CreateBatchInput := mkCreateBatchInput {
  cb_prompt : string;
  cb_preset : option string;
  cb_aspectRatio : option string;
  cb_items : list BatchInputItem
}.

Record PptxInputSlide := mkPptxInputSlide {
  in_slideNumber : Z;
  in_imageData : string
}.

Record CreatePptxJobInput := mkCreatePptxJobInput {
  cp_filename : string;
  cp_prompt : string;
  cp_preset : option string;
  cp_aspectRatio : option string;
  cp_slides : list PptxInputSlide
}.

Definition createBatch (input : CreateBatchInput) : M Z :=
  let* batchId := stmt (Sql.insertBatch (Z.of_nat (length (cb_items input)))
                          (cb_prompt input) (cb_preset input) (cb_aspectRatio input)) in
  forEach (cb_items input) (λ item,
    exec (Sql.insertBatchItem batchId (in_filename item) (in_image item) (in_mimeType item))) >>
  ret batchId.

Definition getBatch (id : Z) : M (option Batch.t) := query (Sql.getBatch id).
Definition getBatchItems (batchId : Z) : M (list BatchItem.t) := query (Sql.getBatchItems batchId).
Definition getBatchItem (id : Z) : M (option BatchItem.t) := query (Sql.getBatchItem id).
Definition getNextPendingBatchItem (batchId : Z) : M (option BatchItem.t) :=
  query (Sql.getNextPendingBatchItem batchId).
Definition updateBatchStatus (id : Z) (status : Status) : M unit :=
  exec (Sql.updateBatchStatus id status).
Definition updateBatchItemStatus (id : Z) (status : Status)
    (result : option Sql.ItemResult) : M unit :=
  exec (Sql.updateBatchItemStatus id status result).
Definition incrementBatchCompleted (batchId : Z) (failed : bool) : M unit :=
  exec (Sql.incrementBatchCompleted batchId failed).
Definition resetBatchItem (id : Z) : M unit := exec (Sql.resetBatchItem id).
Definition decrementBatchFailed (batchId : Z) : M unit := exec (Sql.decrementBatchFailed batchId).

Definition createPptxJob (input : CreatePptxJobInput) : M Z :=
  let* jobId := stmt (Sql.insertPptxJob (cp_filename input)
                        (Z.of_nat (length (cp_slides input))) (cp_prompt input)
                        (cp_preset input) (cp_aspectRatio input)) in
  forEach (cp_slides input) (λ slide,
    exec (Sql.insertPptxSlide jobId (in_slideNumber slide) (in_imageData slide))) >>
  ret jobId.

Definition getPptxJob (id : Z) : M (option PptxJob.t) := query (Sql.getPptxJob id).
Definition getPptxSlides (jobId : Z) : M (list PptxSlide.t) := query (Sql.getPptxSlides jobId).
Definition getPptxSlide (id : Z) : M (option PptxSlide.t) := query (Sql.getPptxSlide id).
Definition getNextPendingPptxSlide (jobId : Z) : M (option PptxSlide.t) :=
  query (Sql.getNextPendingPptxSlide jobId).
Definition updatePptxJobStatus (id : Z) (status : Status) : M unit :=
  exec (Sql.updatePptxJobStatus id status).
Definition updatePptxSlideStatus (id : Z) (status : Status)
    (result : option Sql.SlideResult) : M unit :=
  exec (Sql.updatePptxSlideStatus id status result).
Definition incrementPptxCompleted (jobId : Z) (failed : bool) : M unit :=
  exec (Sql.incrementPptxCompleted jobId failed).
Definition resetPptxSlide (id : Z) : M unit := exec (Sql.resetPptxSlide id).
Definition decrementPptxFailed (jobId : Z) : M unit := exec (Sql.decrementPptxFailed jobId).

(** ** The Generation Gateway: [services/gemini.ts] *)

Record GenerateImageOptions := mkOptions {
  opt_image : string;
  opt_mimeType : string;
  opt_prompt : string;
  opt_aspectRatio : option string
}.

Record GenerateImageResult := mkResult {
  success : bool;
  image : option string;
  mimeType : option string;
  error : option string;
  errorCode : option string
}.

(** The part of the provider's response that [generateImage] reads. *)
Record InlineData := mkInlineData {
  data : option string;
  inlineMimeType : option string
}.

Record Part := mkPart { inlineData : option InlineData }.

Record Content := mkContent { parts : option (list Part) }.

Record Candidate := mkCandidate {
  content : option Content;
  finishReason : option string
}.

Record GenerateContentResponse := mkResponse {
  candidates : option (list Candidate)
}.

(** What is sent to [client.models.generateContent]. *)
Record GenerateContentRequest := mkRequest {
  req_image : string;
  req_mimeType : string;
  req_text : string
}.

(** [generateImage] between its call and its [await]: it has already
    returned a result, or it waits for the provider. *)
Inductive GenSusp :=
| GenReturned (r : GenerateImageResult)
| GenAwaitsProvider (request : GenerateContentRequest).

Definition getClient : M unit :=
  let* client := gets genAI in
  if negb client then
    let* apiKey := gets GEMINI_API_KEY in
    if negb (truthy apiKey) then
      throw (JsError "GEMINI_API_KEY environment variable is not set")
    else modify (set_genAI true)
  else ret tt.

Definition errorMessageOf (error : JsValue) : string :=
  match error with
  | JsError message => message
  | JsNonError => "Unknown error"
  end.

(** The [catch (error)] block of [generateImage]. *)
Definition generateImage_catch (error : JsValue) : GenerateImageResult :=
  let errorMessage := errorMessageOf error in
  if includes errorMessage "403" || includes errorMessage "PERMISSION_DENIED"
     || includes errorMessage "API_KEY_SERVICE_BLOCKED" then
    mkResult false None None
      (Some "API key does not have permission. Please enable the Generative Language API in Google Cloud Console.")
      (Some "API_ERROR")
  else if includes errorMessage "429"
          || includes (toLowerCase errorMessage) "rate limit" then
    mkResult false None None
      (Some "Rate limit exceeded. Please try again later.") (Some "RATE_LIMIT")
  else if includes (toLowerCase errorMessage) "safety" then
    mkResult false None None
      (Some "Content was blocked by safety filters") (Some "SAFETY_FILTER")
  else
    mkResult false None None
      (Some ("API error: " ++ errorMessage)%string) (Some "API_ERROR").

(** The [for (const part of content.parts)] loop: the first part that
    carries an image. *)
Fixpoint findImagePart (ps : list Part) : option GenerateImageResult :=
  match ps with
  | [] => None
  | p :: rest =>
      match inlineData p with
      | Some d =>
          if truthy (data d) && truthy (inlineMimeType d)
          then Some (mkResult true (data d) (inlineMimeType d) None None)
          else findImagePart rest
      | None => findImagePart rest
      end
  end.

(** The [try] block after [generateContent] has answered. *)
Definition generateImage_extract (response : GenerateContentResponse) : GenerateImageResult :=
  match candidates response with
  | None | Some [] =>
      mkResult false None None (Some "No response generated") (Some "API_ERROR")
  | Some (first :: _) =>
      match content first ≫= parts with
      | None =>
          mkResult false None None (Some "No content in response") (Some "API_ERROR")
      | Some ps =>
          match findImagePart ps with
          | Some r => r
          | None =>
              if bool_decide (finishReason first = Some "SAFETY") then
                mkResult false None None
                  (Some "Content was blocked by safety filters") (Some "SAFETY_FILTER")
              else
                mkResult false None None
                  (Some "No image found in response") (Some "API_ERROR")
          end
      end
  end.

(** [generateImage] up to [await client.models.generateContent(...)]. *)
Definition generateImage_call (options : GenerateImageOptions) : M GenSusp :=
  tryCatch
    (getClient >>
     let fullPrompt :=
       match opt_aspectRatio options with
       | Some aspectRatio =>
           if truthy (Some aspectRatio)
           then (opt_prompt options ++ String "010" (String "010" "Output the image in ")
                   ++ aspectRatio ++ " aspect ratio.")%string
           else opt_prompt options
       | None => opt_prompt options
       end in
     ret (GenAwaitsProvider
            (mkRequest (opt_image options) (opt_mimeType options) fullPrompt)))
    (λ error, ret (GenReturned (generateImage_catch error))).

(** A [message] of an [Error] that is no string and has no [includes]
    method: [undefined], [null], or a number, a boolean or a plain object. *)
Inductive NonString := MsgUndefined | MsgNull | MsgNoIncludes.

(** The message of the [TypeError] that [errorMessage.includes('403')]
    raises in the [catch] block for such a message. *)
Definition includesTypeError (message : NonString) : string :=
  match message with
  | MsgUndefined => "Cannot read properties of undefined (reading 'includes')"
  | MsgNull => "Cannot read properties of null (reading 'includes')"
  | MsgNoIncludes => "errorMessage.includes is not a function"
  end.

(** What [client.models.generateContent] settles with: a response, a thrown
    value as [JsValue] has them, or an [Error] whose [message] is no string.
    (A message that is an object with an [includes] method of its own, such
    as an array, is left out.) *)
Inductive ProviderOutcome :=
| Answers (response : GenerateContentResponse)
| Rejects (error : JsValue)
| RejectsOdd (message : NonString).

(** [generateImage] from the settling of [generateContent] to its return, or
    to the exception that leaves its [catch] block. *)
Definition generateImage_resume (provider : ProviderOutcome) : Res GenerateImageResult :=
  match provider with
  | Answers response => Ret (generateImage_extract response)
  | Rejects error => Ret (generateImage_catch error)
  | RejectsOdd message => Throw (JsError (includesTypeError message))
  end.

(** What the caller's [await generateImage(...)] receives. *)
Definition generateImage_result (g : GenSusp) (provider : ProviderOutcome)
    : Res GenerateImageResult :=
  match g with
  | GenReturned r => Ret r
  | GenAwaitsProvider _ => generateImage_resume provider
  end.

(** ** The Job Processors *)

(** [interface SlideImage] of [pptxService.ts]; [mimeType] is always
    ['image/png']. *)
Record SlideImage := mkSlideImage {
  slideNumber : Z;
  imageData : string
}.

(** A call of [processBatch] or [processPptxJob] suspended at an [await],
    with the local variables it resumes with. *)
Inductive Susp :=
| BatchAwaitGenerate (batchId : Z) (batch : Batch.t) (item : BatchItem.t)
    (startTime : Z) (g : GenSusp)
| BatchAwaitTimer (batchId : Z) (batch : Batch.t)
| PptxAwaitGenerate (jobId : Z) (job : PptxJob.t) (slide : PptxSlide.t)
    (startTime : Z) (g : GenSusp)
| PptxAwaitTimer (jobId : Z) (job : PptxJob.t)
| PptxAwaitAssembly (jobId : Z) (finalJob : PptxJob.t) (allSlides : list SlideImage).

(** A [Map<number, boolean>] entry used as a condition. *)
Definition flagSet (v : option bool) : bool :=
  match v with
  | Some true => true
  | _ => false
  end.

(** [try { m } finally { cleanup }] around a body that may suspend: the
    [finally] block runs when the body returns or throws, not when it
    suspends at an [await]. *)
Definition tryFinally (m : M (option Susp)) (cleanup : Heap → Heap) : M (option Susp) :=
  λ h, match m h with
       | (Ret (Some k), h') => (Ret (Some k), h')
       | (r, h') => (r, cleanup h')
       end.

(** *** [services/batchProcessor.ts] *)

Definition isProcessingBatch (batchId : Z) : M bool :=
  gets (λ h, bool_decide (activeBatches h !! batchId = Some true)).

Definition cancelBatch (batchId : Z) : M unit :=
  modify (set_activeBatches <[batchId := false]>).

(** Lines 99-107: "Check final status". *)
Definition batchFinalStatus (batchId : Z) : M unit :=
  let* finalBatch := getBatch batchId in
  match finalBatch with
  | Some finalBatch =>
      if Batch.failed_items finalBatch =? Batch.total_items finalBatch
      then updateBatchStatus batchId failed
      else updateBatchStatus batchId completed
  | None => ret tt
  end.

(** Lines 40-60: the [while (item)] loop from its test to the call of
    [generateImage], or, when the loop ends, the final status. *)
Definition batchWhile (batchId : Z) (batch : Batch.t) (item : option BatchItem.t)
    : M (option Susp) :=
  match item with
  | Some item =>
      let* active := gets (λ h, activeBatches h !! batchId) in
      if negb (flagSet active) then
        (* break *)
        batchFinalStatus batchId >> ret None
      else
        updateBatchItemStatus (BatchItem.id item) processing None >>
        let* startTime := Date_now in
        let* g := generateImage_call
                    (mkOptions (BatchItem.original_image item)
                       (BatchItem.original_mime_type item)
                       (Batch.prompt batch) (Batch.aspect_ratio batch)) in
        ret (Some (BatchAwaitGenerate batchId batch item startTime g))
  | None => batchFinalStatus batchId >> ret None
  end.

(** Lines 54-90: the inner [try]/[catch] once [generateImage] has settled. *)
Definition batchRunItem (batchId : Z) (item : BatchItem.t) (startTime : Z)
    (outcome : Res GenerateImageResult) : M unit :=
  tryCatch
    (let* result := await outcome in
     let* t := Date_now in
     let processingTime := t - startTime in
     if success result && truthy (image result) && truthy (mimeType result) then
       updateBatchItemStatus (BatchItem.id item) completed
         (Some (Sql.mkItemResult (image result) (mimeType result) None
                  (Some processingTime))) >>
       incrementBatchCompleted batchId false
     else
       updateBatchItemStatus (BatchItem.id item) failed
         (Some (Sql.mkItemResult None None
                  (Some (orElse (error result) "Unknown error"))
                  (Some processingTime))) >>
       incrementBatchCompleted batchId true)
    (λ error,
       let* t := Date_now in
       let processingTime := t - startTime in
       let errorMessage := errorMessageOf error in
       updateBatchItemStatus (BatchItem.id item) failed
         (Some (Sql.mkItemResult None None (Some errorMessage)
                  (Some processingTime))) >>
       incrementBatchCompleted batchId true).

(** [processBatch] from its call to its first [await] (or its return). *)
Definition processBatch (batchId : Z) : M (option Susp) :=
  let* active := gets (λ h, activeBatches h !! batchId) in
  if flagSet active then ret None
  else
    modify (set_activeBatches <[batchId := true]>) >>
    tryFinally
      (let* batch := getBatch batchId in
       match batch with
       | None => ret None
       | Some batch =>
           updateBatchStatus batchId processing >>
           let* item := getNextPendingBatchItem batchId in
           batchWhile batchId batch item
       end)
      (set_activeBatches (delete batchId)).

(** [processBatch] from the settling of [generateImage] to the timer. *)
Definition processBatch_afterGenerate (batchId : Z) (batch : Batch.t)
    (item : BatchItem.t) (startTime : Z) (outcome : Res GenerateImageResult)
    : M (option Susp) :=
  tryFinally
    (batchRunItem batchId item startTime outcome >>
     ret (Some (BatchAwaitTimer batchId batch)))
    (set_activeBatches (delete batchId)).

(** [processBatch] from the timer to the next [await] (or its return). *)
Definition processBatch_afterTimer (batchId : Z) (batch : Batch.t) : M (option Susp) :=
  tryFinally
    (let* item := getNextPendingBatchItem batchId in
     batchWhile batchId batch item)
    (set_activeBatches (delete batchId)).

(** *** [services/pptxProcessor.ts] *)

Definition isProcessingPptxJob (jobId : Z) : M bool :=
  gets (λ h, bool_decide (activeJobs h !! jobId = Some true)).

Definition cancelPptxJob (jobId : Z) : M unit :=
  modify (set_activeJobs <[jobId := false]>).

(** Lines 117-137: the slides handed to [createPptxFromImages]. The filter
    has checked [beautified_image] before [s.beautified_image!] reads it.
    [Array.prototype.sort] is stable: of two slides with the same number a
    beautified one comes before a failed one. *)
Definition assembleSlides (slides : list PptxSlide.t) : list SlideImage :=
  let beautifiedSlides :=
    map (λ s, mkSlideImage (PptxSlide.slide_number s)
                (default "" (PptxSlide.beautified_image s)))
      (List.filter (λ s, bool_decide (PptxSlide.status s = completed)
                           && truthy (PptxSlide.beautified_image s)) slides) in
  let failedSlides :=
    map (λ s, mkSlideImage (PptxSlide.slide_number s) (PptxSlide.original_image s))
      (List.filter (λ s, bool_decide (PptxSlide.status s = failed)) slides) in
  stableSort slideNumber (beautifiedSlides ++ failedSlides).

(** Lines 107-142: "Assemble final PPTX", up to [await createPptxFromImages]. *)
Definition pptxFinal (jobId : Z) : M (option Susp) :=
  let* finalJob := getPptxJob jobId in
  match finalJob with
  | Some finalJob =>
      if PptxJob.failed_slides finalJob =? PptxJob.total_slides finalJob then
        updatePptxJobStatus jobId failed >> ret None
      else
        updatePptxJobStatus jobId assembling >>
        tryCatch
          (let* slides := getPptxSlides jobId in
           let allSlides := assembleSlides slides in
           ret (Some (PptxAwaitAssembly jobId finalJob allSlides)))
          (λ error, updatePptxJobStatus jobId failed >> ret None)
  | None => ret None
  end.

(** Lines 49-69. *)
Definition pptxWhile (jobId : Z) (job : PptxJob.t) (slide : option PptxSlide.t)
    : M (option Susp) :=
  match slide with
  | Some slide =>
      let* active := gets (λ h, activeJobs h !! jobId) in
      if negb (flagSet active) then
        (* break *)
        pptxFinal jobId
      else
        updatePptxSlideStatus (PptxSlide.id slide) processing None >>
        let* startTime := Date_now in
        let* g := generateImage_call
                    (mkOptions (PptxSlide.original_image slide) "image/png"
                       (PptxJob.prompt job) (PptxJob.aspect_ratio job)) in
        ret (Some (PptxAwaitGenerate jobId job slide startTime g))
  | None => pptxFinal jobId
  end.

(** Lines 63-98. *)
Definition pptxRunSlide (jobId : Z) (slide : PptxSlide.t) (startTime : Z)
    (outcome : Res GenerateImageResult) : M unit :=
  tryCatch
    (let* result := await outcome in
     let* t := Date_now in
     let processingTime := t - startTime in
     if success result && truthy (image result) then
       updatePptxSlideStatus (PptxSlide.id slide) completed
         (Some (Sql.mkSlideResult (image result) None (Some processingTime))) >>
       incrementPptxCompleted jobId false
     else
       updatePptxSlideStatus (PptxSlide.id slide) failed
         (Some (Sql.mkSlideResult None
                  (Some (orElse (error result) "Unknown error"))
                  (Some processingTime))) >>
       incrementPptxCompleted jobId true)
    (λ error,
       let* t := Date_now in
       let processingTime := t - startTime in
       let errorMessage := errorMessageOf error in
       updatePptxSlideStatus (PptxSlide.id slide) failed
         (Some (Sql.mkSlideResult None (Some errorMessage) (Some processingTime))) >>
       incrementPptxCompleted jobId true).

Definition processPptxJob (jobId : Z) : M (option Susp) :=
  let* active := gets (λ h, activeJobs h !! jobId) in
  if flagSet active then ret None
  else
    modify (set_activeJobs <[jobId := true]>) >>
    tryFinally
      (let* job := getPptxJob jobId in
       match job with
       | None => ret None
       | Some job =>
           updatePptxJobStatus jobId processing >>
           let* slide := getNextPendingPptxSlide jobId in
           pptxWhile jobId job slide
       end)
      (set_activeJobs (delete jobId)).

Definition processPptxJob_afterGenerate (jobId : Z) (job : PptxJob.t)
    (slide : PptxSlide.t) (startTime : Z) (outcome : Res GenerateImageResult)
    : M (option Susp) :=
  tryFinally
    (pptxRunSlide jobId slide startTime outcome >>
     ret (Some (PptxAwaitTimer jobId job)))
    (set_activeJobs (delete jobId)).

Definition processPptxJob_afterTimer (jobId : Z) (job : PptxJob.t) : M (option Susp) :=
  tryFinally
    (let* slide := getNextPendingPptxSlide jobId in
     pptxWhile jobId job slide)
    (set_activeJobs (delete jobId)).

(** Lines 144-152: from the settling of [createPptxFromImages] on. *)
Definition processPptxJob_afterAssembly (jobId : Z) (outcome : Res Buffer)
    : M (option Susp) :=
  tryFinally
    (tryCatch
       (let* pptxBuffer := await outcome in
        modify (set_pptxResults <[jobId := pptxBuffer]>) >>
        updatePptxJobStatus jobId completed >>
        ret None)
       (λ error, updatePptxJobStatus jobId failed >> ret None))
    (set_activeJobs (delete jobId)).

(** ** The route handlers: [routes/batch.ts], [routes/pptx.ts] *)

(** [f(id).catch(err => console.error(...))]: the call runs up to its first
    [await]; a rejection is logged and goes no further. *)
Definition fireAndForget (call : M (option Susp)) : M (option Susp) :=
  tryCatch call (λ _, ret None).

(** Each handler returns the HTTP status it answers with and the processor
    call it has left running, if any. *)

(** [batchRouter.post('/')] *)
Definition batchRouter_post (input : CreateBatchInput) : M (Z * option Susp) :=
  if negb (truthy (Some (cb_prompt input))) then ret (400, None)
  else if bool_decide (cb_items input = []) then ret (400, None)
  else if 100 <? Z.of_nat (length (cb_items input)) then ret (400, None)
  else if existsb (λ item, negb (truthy (Some (in_filename item)))
                           || negb (truthy (Some (in_image item)))
                           || negb (truthy (Some (in_mimeType item))))
            (cb_items input) then ret (400, None)
  else
    tryCatch
      (let* batchId := createBatch input in
       let* p := fireAndForget (processBatch batchId) in
       ret (200, p))
      (λ _, ret (500, None)).

(** [batchRouter.post('/:batchId/items/:itemId/retry')] *)
Definition batchRouter_retry (batchId itemId : Z) : M (Z * option Susp) :=
  let* batch := getBatch batchId in
  let* item := getBatchItem itemId in
  match batch, item with
  | Some batch, Some item =>
      if negb (BatchItem.batch_id item =? batchId) then ret (404, None)
      else if negb (bool_decide (BatchItem.status item = failed)) then ret (400, None)
      else
        resetBatchItem itemId >>
        decrementBatchFailed batchId >>
        (if bool_decide (Batch.status batch = completed)
            || bool_decide (Batch.status batch = failed)
         then updateBatchStatus batchId processing else ret tt) >>
        let* running := isProcessingBatch batchId in
        if negb running then
          let* p := fireAndForget (processBatch batchId) in
          ret (200, p)
        else ret (200, None)
  | _, _ => ret (404, None)
  end.

(** [batchRouter.post('/:id/cancel')] *)
Definition batchRouter_cancel (id : Z) : M (Z * option Susp) :=
  let* batch := getBatch id in
  match batch with
  | None => ret (404, None)
  | Some _ =>
      cancelBatch id >>
      updateBatchStatus id failed >>
      ret (200, None)
  end.

(** [pptxRouter.post('/beautify')], from "Create job in database" on: the
    slides have been extracted. *)
Definition pptxRouter_beautify (input : CreatePptxJobInput) : M (Z * option Susp) :=
  tryCatch
    (let* jobId := createPptxJob input in
     let* p := fireAndForget (processPptxJob jobId) in
     ret (200, p))
    (λ _, ret (500, None)).

(** [pptxRouter.post('/:jobId/slides/:slideId/retry')] *)
Definition pptxRouter_retry (jobId slideId : Z) : M (Z * option Susp) :=
  let* job := getPptxJob jobId in
  let* slide := getPptxSlide slideId in
  match job, slide with
  | Some job, Some slide =>
      if negb (PptxSlide.job_id slide =? jobId) then ret (404, None)
      else if negb (bool_decide (PptxSlide.status slide = failed)) then ret (400, None)
      else
        resetPptxSlide slideId >>
        decrementPptxFailed jobId >>
        (if bool_decide (PptxJob.status job = completed)
            || bool_decide (PptxJob.status job = failed)
         then updatePptxJobStatus jobId processing else ret tt) >>
        let* running := isProcessingPptxJob jobId in
        if negb running then
          let* p := fireAndForget (processPptxJob jobId) in
          ret (200, p)
        else ret (200, None)
  | _, _ => ret (404, None)
  end.

(** [pptxRouter.post('/:jobId/cancel')] *)
Definition pptxRouter_cancel (jobId : Z) : M (Z * option Susp) :=
  let* job := getPptxJob jobId in
  match job with
  | None => ret (404, None)
  | Some _ =>
      cancelPptxJob jobId >>
      updatePptxJobStatus jobId failed >>
      ret (200, None)
  end.

(** ** The server as a transition system *)

Inductive Request :=
| PostBatch (input : CreateBatchInput)
| RetryBatchItem (batchId itemId : Z)
| CancelBatch (id : Z)
| PostPptx (input : CreatePptxJobInput)
| RetryPptxSlide (jobId slideId : Z)
| CancelPptxJob (jobId : Z).

(** What a suspended call can be woken by. *)
Inductive Settlement :=
| ProviderSettles (r : ProviderOutcome)
| TimerFires
| AssemblySettles (r : Res Buffer).

Inductive Event :=
| Http (r : Request)
| Settles (pid : nat) (s : Settlement).

(** One turn of the event loop: the event, the clock, and the fault plan
    of the statements run during the turn. *)
Record Tick := mkTick {
  event : Event;
  time : Z;
  plan : list (option JsValue)
}.

(** The suspended processor calls are kept in the order they were started;
    a call that has returned or thrown leaves [None] in its slot. *)
Record World := mkWorld {
  heap : Heap;
  procs : list (option Susp)
}.

Definition handle (r : Request) : M (Z * option Susp) :=
  match r with
  | PostBatch input => batchRouter_post input
  | RetryBatchItem batchId itemId => batchRouter_retry batchId itemId
  | CancelBatch id => batchRouter_cancel id
  | PostPptx input => pptxRouter_beautify input
  | RetryPptxSlide jobId slideId => pptxRouter_retry jobId slideId
  | CancelPptxJob jobId => pptxRouter_cancel jobId
  end.

Definition resume (k : Susp) (s : Settlement) : option (M (option Susp)) :=
  match k, s with
  | BatchAwaitGenerate batchId batch item startTime g, ProviderSettles r =>
      Some (processBatch_afterGenerate batchId batch item startTime
              (generateImage_result g r))
  | BatchAwaitTimer batchId batch, TimerFires =>
      Some (processBatch_afterTimer batchId batch)
  | PptxAwaitGenerate jobId job slide startTime g, ProviderSettles r =>
      Some (processPptxJob_afterGenerate jobId job slide startTime
              (generateImage_result g r))
  | PptxAwaitTimer jobId job, TimerFires =>
      Some (processPptxJob_afterTimer jobId job)
  | PptxAwaitAssembly jobId _ _, AssemblySettles r =>
      Some (processPptxJob_afterAssembly jobId r)
  | _, _ => None
  end.

Definition spawned (r : Res (Z * option Susp)) : list (option Susp) :=
  match r with
  | Ret (_, Some k) => [Some k]
  | _ => []
  end.

Definition continued (r : Res (option Susp)) : option Susp :=
  match r with
  | Ret (Some k) => Some k
  | _ => None
  end.

Definition step (t : Tick) (w : World) : World :=
  let h := set_env (time t) (plan t) (heap w) in
  match event t with
  | Http r =>
      let (res, h') := handle r h in
      mkWorld h' (procs w ++ spawned res)
  | Settles pid s =>
      match procs w !! pid with
      | Some (Some k) =>
          match resume k s with
          | Some m =>
              let (res, h') := m h in
              mkWorld h' (<[pid := continued res]> (procs w))
          | None => w
          end
      | _ => w
      end
  end.

Definition run (ts : list Tick) (w : World) : World :=
  fold_left (λ w t, step t w) ts w.

(** The server at start-up, with the given environment variable. *)
Definition initHeap (apiKey : option string) : Heap :=
  mkHeap emptyDB ∅ ∅ ∅ false apiKey 0 [].

Definition initWorld (apiKey : option string) : World :=
  mkWorld (initHeap apiKey) [].

(** ** Specification vocabulary *)

(** A call has completed: it returned or threw, it did not suspend. *)
Definition settled (r : Res (option Susp)) : Prop :=
  match r with
  | Ret (Some _) => False
  | _ => True
  end.

(** [m] keeps [P] true of the heap, whatever it returns. *)
Definition preserves {A} (P : Heap → Prop) (m : M A) : Prop :=
  ∀ h, P h → P (m h).2.

(** [P] does not look at the database or at the fault plan. *)
Definition storeBlind (P : Heap → Prop) : Prop :=
  (∀ h fs, P h → P (set_faults fs h)) ∧ (∀ h f, P h → P (set_db f h)).

(** The two job kinds, their registries and their processors. *)
Inductive Kind := BatchKind | PptxKind.

Definition registry (kind : Kind) (h : Heap) : gmap Z bool :=
  match kind with
  | BatchKind => activeBatches h
  | PptxKind => activeJobs h
  end.

Definition processor (kind : Kind) (id : Z) : M (option Susp) :=
  match kind with
  | BatchKind => processBatch id
  | PptxKind => processPptxJob id
  end.

(** The job a suspended call is working for. *)
Definition jobOf (k : Susp) : Kind * Z :=
  match k with
  | BatchAwaitGenerate batchId _ _ _ _ => (BatchKind, batchId)
  | BatchAwaitTimer batchId _ => (BatchKind, batchId)
  | PptxAwaitGenerate jobId _ _ _ _ => (PptxKind, jobId)
  | PptxAwaitTimer jobId _ => (PptxKind, jobId)
  | PptxAwaitAssembly jobId _ _ => (PptxKind, jobId)
  end.

(** The Gateway's call has failed: it returned a failure result, or threw. *)
Definition gatewayFailed (outcome : Res GenerateImageResult) : Prop :=
  match outcome with
  | Ret result => success result = false
  | Throw _ => True
  end.

(** The message of a failed call as the runner computes it. *)
Definition failureText (outcome : Res GenerateImageResult) : string :=
  match outcome with
  | Ret result => orElse (error result) "Unknown error"
  | Throw e => errorMessageOf e
  end.

(** [SELECT COUNT( * ) FROM t WHERE q], as a number. *)
Definition countIf {A} (q : A → bool) (rows : list A) : Z :=
  Z.of_nat (length (List.filter q rows)).

(** *** Invariants of the job tables

    Batches with their items and deck jobs with their slides are two copies
    of one schema: a job row with three counters, and task rows with an
    owner, a status, an output and an error text. *)
Record Schema (J T : Type) := mkSchema {
  job_id : J → Z;
  job_total : J → Z;
  job_completed : J → Z;
  job_failed : J → Z;
  task_id : T → Z;
  task_job : T → Z;
  task_status : T → Status;
  task_output : T → option string;
  task_error : T → option string
}.
Arguments job_id {J T} _ _.
Arguments job_total {J T} _ _.
Arguments job_completed {J T} _ _.
Arguments job_failed {J T} _ _.
Arguments task_id {J T} _ _.
Arguments task_job {J T} _ _.
Arguments task_status {J T} _ _.
Arguments task_output {J T} _ _.
Arguments task_error {J T} _ _.

Definition batchSchema : Schema Batch.t BatchItem.t :=
  mkSchema _ _ Batch.id Batch.total_items Batch.completed_items Batch.failed_items
    BatchItem.id BatchItem.batch_id BatchItem.status
    BatchItem.generated_image BatchItem.error.

Definition pptxSchema : Schema PptxJob.t PptxSlide.t :=
  mkSchema _ _ PptxJob.id PptxJob.total_slides PptxJob.completed_slides
    PptxJob.failed_slides
    PptxSlide.id PptxSlide.job_id PptxSlide.status
    PptxSlide.beautified_image PptxSlide.error.

(** The counters of a job row against the rows of its tasks. *)
Definition counted {J T} (S : Schema J T) (tasks : list T) (j : J) : Prop :=
  job_total S j = countIf (λ t, task_job S t =? job_id S j) tasks ∧
  job_completed S j =
    countIf (λ t, (task_job S t =? job_id S j)
                  && isTerminalStatus (task_status S t)) tasks ∧
  job_failed S j =
    countIf (λ t, (task_job S t =? job_id S j)
                  && bool_decide (task_status S t = failed)) tasks.

(** Output iff [completed], error text iff [failed]. *)
Definition consistent {J T} (S : Schema J T) (t : T) : Prop :=
  (task_output S t ≠ None ↔ task_status S t = completed) ∧
  (task_error S t ≠ None ↔ task_status S t = failed).

(** Primary keys are unique and below their sequence, every counter counts
    what it says, and every task row is consistent. *)
Record TablesInv {J T} (S : Schema J T) (jobs : list J) (tasks : list T)
    (seqJ seqT : Z) : Prop := mkTablesInv {
  ti_nodup : NoDup (map (task_id S) tasks);
  ti_task_seq : ∀ t, t ∈ tasks → task_id S t ≤ seqT ∧ task_job S t ≤ seqJ;
  ti_job_seq : ∀ j, j ∈ jobs → job_id S j ≤ seqJ;
  ti_counted : ∀ j, j ∈ jobs → counted S tasks j;
  ti_consistent : ∀ t, t ∈ tasks → consistent S t
}.

(** The job and the task a suspended call is waiting for the Gateway on. *)
Definition itemInFlight (k : option Susp) : option (Z * Z) :=
  match k with
  | Some (BatchAwaitGenerate batchId _ item _ _) => Some (batchId, BatchItem.id item)
  | _ => None
  end.

Definition slideInFlight (k : option Susp) : option (Z * Z) :=
  match k with
  | Some (PptxAwaitGenerate jobId _ slide _ _) => Some (jobId, PptxSlide.id slide)
  | _ => None
  end.

(** Every task in flight is a [processing] row of its job, and no two
    suspended calls work on the same task. *)
Record ProcsInv {J T} (S : Schema J T) (inFlight : option Susp → option (Z * Z))
    (tasks : list T) (ps : list (option Susp)) : Prop := mkProcsInv {
  pi_row : ∀ pid k jobId taskId,
    ps !! pid = Some k → inFlight k = Some (jobId, taskId) →
    ∃ row, row ∈ tasks ∧ task_id S row = taskId ∧
           task_job S row = jobId ∧ task_status S row = processing;
  pi_inj : ∀ pid1 pid2 k1 k2 j1 j2 taskId,
    ps !! pid1 = Some k1 → ps !! pid2 = Some k2 →
    inFlight k1 = Some (j1, taskId) → inFlight k2 = Some (j2, taskId) →
    pid1 = pid2
}.

Definition BatchInv (d : DB) (ps : list (option Susp)) : Prop :=
  TablesInv batchSchema (batches d) (batch_items d)
    (seq_batches d) (seq_batch_items d) ∧
  ProcsInv batchSchema itemInFlight (batch_items d) ps.

Definition PptxInv (d : DB) (ps : list (option Susp)) : Prop :=
  TablesInv pptxSchema (pptx_jobs d) (pptx_slides d)
    (seq_pptx_jobs d) (seq_pptx_slides d) ∧
  ProcsInv pptxSchema slideInFlight (pptx_slides d) ps.

(** The suspended calls [ps'] are those of [ps], but for slot [pid0], which
    holds [x]. *)
Definition slotsFrom (ps ps' : list (option Susp)) (pid0 : nat) (x : option Susp) : Prop :=
  ∀ j y, ps' !! j = Some y → (j = pid0 ∧ y = x) ∨ (j ≠ pid0 ∧ ps !! j = Some y).

(** *** The rows a new job inserts *)

(** The rows [createBatch] inserts after the batch row, and the database
    it leaves. *)
Fixpoint newItemRows (batchId seq : Z) (items : list BatchInputItem) : list BatchItem.t :=
  match items with
  | [] => []
  | item :: rest =>
      BatchItem.mk (seq + 1) batchId (in_filename item) (in_image item)
        (in_mimeType item) None None pending None None
      :: newItemRows batchId (seq + 1) rest
  end.

Definition insertBatchItems (batchId : Z) (items : list BatchInputItem) (d : DB) : DB :=
  fold_left (λ d item, Sql.insertBatchItem batchId (in_filename item)
                         (in_image item) (in_mimeType item) d) items d.

Definition createBatchRows (input : CreateBatchInput) (d : DB) : DB :=
  insertBatchItems (seq_batches d + 1) (cb_items input)
    (Sql.insertBatch (Z.of_nat (length (cb_items input))) (cb_prompt input)
       (cb_preset input) (cb_aspectRatio input) d).2.

(** The same for a deck job and its slides. *)
Fixpoint newSlideRows (jobId seq : Z) (slides : list PptxInputSlide) : list PptxSlide.t :=
  match slides with
  | [] => []
  | slide :: rest =>
      PptxSlide.mk (seq + 1) jobId (in_slideNumber slide) pending
        (in_imageData slide) None None None
      :: newSlideRows jobId (seq + 1) rest
  end.

Definition insertPptxSlides (jobId : Z) (slides : list PptxInputSlide) (d : DB) : DB :=
  fold_left (λ d slide, Sql.insertPptxSlide jobId (in_slideNumber slide)
                          (in_imageData slide) d) slides d.

Definition createPptxRows (input : CreatePptxJobInput) (d : DB) : DB :=
  insertPptxSlides (seq_pptx_jobs d + 1) (cp_slides input)
    (Sql.insertPptxJob (cp_filename input) (Z.of_nat (length (cp_slides input)))
       (cp_prompt input) (cp_preset input) (cp_aspectRatio input) d).2.


(** *** Reachable states

    The states the server reaches from start-up when no statement fails.
    A restart keeps the database and loses everything else. *)
Definition restart (apiKey : option string) (w : World) : World :=
  mkWorld (mkHeap (db (heap w)) ∅ ∅ ∅ false apiKey 0 []) [].

Inductive reachable : World → Prop :=
| reachable_init (apiKey : option string) : reachable (initWorld apiKey)
| reachable_step (t : Tick) (w : World) :
    reachable w → plan t = [] → reachable (step t w)
| reachable_restart (apiKey : option string) (w : World) :
    reachable w → reachable (restart apiKey w).

(** What every reachable state satisfies. *)
Definition WorldInv (w : World) : Prop :=
  BatchInv (db (heap w)) (procs w) ∧ PptxInv (db (heap w)) (procs w).

(** *** A cancelled job

    A job of two tasks is created, cancelled while the Gateway works on the
    first task, and then the Gateway answers with an image and the timer
    fires. *)
Definition imageResponse (img : string) : ProviderOutcome :=
  Answers (mkResponse
         (Some [mkCandidate
                  (Some (mkContent
                           (Some [mkPart (Some (mkInlineData (Some img)
                                                  (Some "image/png")))])))
                  None])).

Definition twoItems : CreateBatchInput :=
  mkCreateBatchInput "enhance" None None
    [mkBatchInputItem "a.png" "QQ==" "image/png";
     mkBatchInputItem "b.png" "Qg==" "image/png"].

Definition cancelledBatchTrace : list Tick :=
  [mkTick (Http (PostBatch twoItems)) 1000 [];
   mkTick (Http (CancelBatch 1)) 1500 [];
   mkTick (Settles 0 (ProviderSettles (imageResponse "SU1H"))) 4000 [];
   mkTick (Settles 0 TimerFires) 5000 []].

Definition twoSlides : CreatePptxJobInput :=
  mkCreatePptxJobInput "deck.pptx" "enhance" None None
    [mkPptxInputSlide 1 "UzE="; mkPptxInputSlide 2 "UzI="].

Definition cancelledPptxTrace : list Tick :=
  [mkTick (Http (PostPptx twoSlides)) 1000 [];
   mkTick (Http (CancelPptxJob 1)) 1500 [];
   mkTick (Settles 0 (ProviderSettles (imageResponse "SU1H"))) 4000 [];
   mkTick (Settles 0 TimerFires) 5000 []].

(** *** A failure, a drain and a retry

    The first Gateway call of a two-item batch is rate limited, the second
    returns an image, the batch completes, and the failed item is retried. *)
Definition retryTrace : list Tick :=
  [mkTick (Http (PostBatch twoItems)) 1000 [];
   mkTick (Settles 0 (ProviderSettles (Rejects (JsError "429 Too Many Requests")))) 2000 [];
   mkTick (Settles 0 TimerFires) 3000 [];
   mkTick (Settles 0 (ProviderSettles (imageResponse "SU1H"))) 6000 [];
   mkTick (Settles 0 TimerFires) 7000 [];
   mkTick (Http (RetryBatchItem 1 1)) 9000 []].

Definition retryWorld : World := run retryTrace (initWorld (Some "key")).

(** *** A store that fails

    The first Gateway call is rate limited, and the statement that counts
    the failed item throws both times it is run, in the [try] block and in
    the [catch] block; the failed item is then retried. *)
Definition storeFailureTrace : list Tick :=
  [mkTick (Http (PostBatch twoItems)) 1000 [];
   mkTick (Settles 0 (ProviderSettles (Rejects (JsError "429 Too Many Requests")))) 2000
     [None; Some (JsError "disk I/O error"); None; Some (JsError "disk I/O error")];
   mkTick (Http (RetryBatchItem 1 1)) 9000 []].

(** *** Sample states *)

(** A batch with one pending item, not being processed. *)
Definition sampleBatch : Batch.t :=
  Batch.mk 1 pending 1 0 0 "enhance" None None false.

Definition sampleItem : BatchItem.t :=
  BatchItem.mk 1 1 "a.png" "QQ==" "image/png" None None pending None None.

Definition sampleJob : PptxJob.t :=
  PptxJob.mk 1 pending "deck.pptx" 1 0 0 "enhance" None None false.

Definition sampleSlide : PptxSlide.t :=
  PptxSlide.mk 1 1 1 pending "UzE=" None None None.

Definition sampleHeap : Heap :=
  mkHeap (mkDB [sampleBatch] [sampleItem] [sampleJob] [sampleSlide] 1 1 1 1)
    ∅ ∅ ∅ false (Some "key") 1000 [].

(** The same while batch 1 is being processed and the database is failing. *)
Definition failingHeap : Heap :=
  mkHeap (db sampleHeap) {[ 1 := true ]} ∅ ∅ false (Some "key") 1000
    [Some (JsError "disk I/O error")].

(** ** Further vocabulary: the Gateway's results *)

(** A result as [generateImage] builds them: a success carries an image and
    its type and nothing else; a failure carries a message and one of the
    three error codes. *)
Definition wellFormedResult (r : GenerateImageResult) : Prop :=
  (success r = true ∧ truthy (image r) = true ∧ truthy (mimeType r) = true ∧
   error r = None ∧ errorCode r = None) ∨
  (success r = false ∧ image r = None ∧ mimeType r = None ∧
   truthy (error r) = true ∧
   errorCode r ∈ [Some "API_ERROR"; Some "RATE_LIMIT"; Some "SAFETY_FILTER"]).

(** A part of the provider's answer that carries an image: both
    [inlineData.data] and [inlineData.mimeType] are truthy. *)
Definition isImagePart (p : Part) : bool :=
  match inlineData p with
  | Some d => truthy (data d) && truthy (inlineMimeType d)
  | None => false
  end.

(** ** Further vocabulary: what every statement keeps *)

(** A property of the database that each statement of [database.ts] keeps,
    whatever its arguments. *)
Record StmtClosed (J : DB → Prop) : Prop := mkStmtClosed {
  sc_insertBatch : ∀ total prompt preset aspectRatio d,
    J d → J (Sql.insertBatch total prompt preset aspectRatio d).2;
  sc_insertBatchItem : ∀ batchId filename image mimeType d,
    J d → J (Sql.insertBatchItem batchId filename image mimeType d);
  sc_updateBatchStatus : ∀ id status d, J d → J (Sql.updateBatchStatus id status d);
  sc_updateBatchItemStatus : ∀ id status result d,
    J d → J (Sql.updateBatchItemStatus id status result d);
  sc_incrementBatchCompleted : ∀ id failed d,
    J d → J (Sql.incrementBatchCompleted id failed d);
  sc_resetBatchItem : ∀ id d, J d → J (Sql.resetBatchItem id d);
  sc_decrementBatchFailed : ∀ id d, J d → J (Sql.decrementBatchFailed id d);
  sc_insertPptxJob : ∀ filename total prompt preset aspectRatio d,
    J d → J (Sql.insertPptxJob filename total prompt preset aspectRatio d).2;
  sc_insertPptxSlide : ∀ jobId slideNumber imageData d,
    J d → J (Sql.insertPptxSlide jobId slideNumber imageData d);
  sc_updatePptxJobStatus : ∀ id status d, J d → J (Sql.updatePptxJobStatus id status d);
  sc_updatePptxSlideStatus : ∀ id status result d,
    J d → J (Sql.updatePptxSlideStatus id status result d);
  sc_incrementPptxCompleted : ∀ id failed d,
    J d → J (Sql.incrementPptxCompleted id failed d);
  sc_resetPptxSlide : ∀ id d, J d → J (Sql.resetPptxSlide id d);
  sc_decrementPptxFailed : ∀ id d, J d → J (Sql.decrementPptxFailed id d)
}.

(** [w'] is reached from [w] by turns of the event loop, whatever the
    store does in them (any fault plan), and by restarts. *)
Inductive evolves (w : World) : World → Prop :=
| evolves_refl : evolves w w
| evolves_step (t : Tick) (w' : World) : evolves w w' → evolves w (step t w')
| evolves_restart (apiKey : option string) (w' : World) :
    evolves w w' → evolves w (restart apiKey w').

(** The columns of a row that hold what was submitted. *)
Definition batchInputs (b : Batch.t) :=
  (Batch.id b, Batch.total_items b, Batch.prompt b, Batch.preset b, Batch.aspect_ratio b).

Definition itemInputs (i : BatchItem.t) :=
  (BatchItem.id i, BatchItem.batch_id i, BatchItem.filename i,
   BatchItem.original_image i, BatchItem.original_mime_type i).

Definition jobInputs (j : PptxJob.t) :=
  (PptxJob.id j, PptxJob.original_filename j, PptxJob.total_slides j,
   PptxJob.prompt j, PptxJob.preset j, PptxJob.aspect_ratio j).

Definition slideInputs (s : PptxSlide.t) :=
  (PptxSlide.id s, PptxSlide.job_id s, PptxSlide.slide_number s,
   PptxSlide.original_image s).

(** The table [rows'] still has every row of [rows], at its place and with
    the same inputs. *)
Definition rowsKept {A B} (inputs : A → B) (rows rows' : list A) : Prop :=
  ∀ n r, rows !! n = Some r → ∃ r', rows' !! n = Some r' ∧ inputs r' = inputs r.

Definition tablesKept (d d' : DB) : Prop :=
  rowsKept batchInputs (batches d) (batches d') ∧
  rowsKept itemInputs (batch_items d) (batch_items d') ∧
  rowsKept jobInputs (pptx_jobs d) (pptx_jobs d') ∧
  rowsKept slideInputs (pptx_slides d) (pptx_slides d').

(** [completed_at] holds a time stamp exactly when the status is
    [completed] or [failed]. *)
Definition stampedWhenOver (d : DB) : Prop :=
  (∀ b, b ∈ batches d → Batch.completed_at b = isTerminalStatus (Batch.status b)) ∧
  (∀ j, j ∈ pptx_jobs d → PptxJob.completed_at j = isTerminalStatus (PptxJob.status j)).

(** ** Further vocabulary: the retry routes *)

(** The retry routes act on a task that exists, belongs to the job of the
    address, and is [failed], when that job exists. *)
Definition retryEligibleItem (batchId itemId : Z) (d : DB) : bool :=
  match Sql.getBatch batchId d, Sql.getBatchItem itemId d with
  | Some _, Some item =>
      (BatchItem.batch_id item =? batchId) && bool_decide (BatchItem.status item = failed)
  | _, _ => false
  end.

Definition retryEligibleSlide (jobId slideId : Z) (d : DB) : bool :=
  match Sql.getPptxJob jobId d, Sql.getPptxSlide slideId d with
  | Some _, Some slide =>
      (PptxSlide.job_id slide =? jobId) && bool_decide (PptxSlide.status slide = failed)
  | _, _ => false
  end.

(** A task that waits for its run or is in it, with nothing recorded. *)
Definition itemAwaitsRun (i : BatchItem.t) : Prop :=
  (BatchItem.status i = pending ∨ BatchItem.status i = processing) ∧
  BatchItem.generated_image i = None ∧ BatchItem.error i = None.

Definition slideAwaitsRun (s : PptxSlide.t) : Prop :=
  (PptxSlide.status s = pending ∨ PptxSlide.status s = processing) ∧
  PptxSlide.beautified_image s = None ∧ PptxSlide.error s = None.

(** A drained batch with one failed and one completed item. *)
Definition drainedHeap : Heap :=
  mkHeap (mkDB [Batch.mk 1 completed 2 2 1 "enhance" None None true]
               [BatchItem.mk 1 1 "a.png" "QQ==" "image/png" None None failed
                  (Some "Rate limit exceeded. Please try again later.") (Some 700);
                BatchItem.mk 2 1 "b.png" "Qg==" "image/png" (Some "SU1H")
                  (Some "image/png") completed None (Some 900)]
               [] [] 1 2 0 0)
    ∅ ∅ ∅ false (Some "key") 5000 [].

(** ** The history table: [database.ts], [routes/history.ts], [routes/beautify.ts] *)

(** [interface HistoryEntry]; [created_at] is the value of
    [CURRENT_TIMESTAMP] at insertion, as a number of seconds. The column
    [batch_id] of the table, which no statement writes or reads, is left
    out. *)
Module History.
Record t := mk {
  id : Z;
  original_image : string;
  original_mime_type : string;
  generated_image : string;
  generated_mime_type : string;
  prompt : string;
  preset : option string;
  aspect_ratio : option string;
  processing_time : option Z;
  created_at : Z
}.
End History.

(** The [history] table with its [AUTOINCREMENT] sequence. *)
Record HistoryTable := mkHistoryTable {
  history : list History.t;
  seq_history : Z
}.

Record CreateHistoryInput := mkCreateHistoryInput {
  ch_originalImage : string;
  ch_originalMimeType : string;
  ch_generatedImage : string;
  ch_generatedMimeType : string;
  ch_prompt : string;
  ch_preset : option string;
  ch_aspectRatio : option string;
  ch_processingTime : option Z
}.

(** [saveToHistory], for an [INSERT] that does not throw; [clock] is what
    [CURRENT_TIMESTAMP] evaluates to. *)
Definition saveToHistory (input : CreateHistoryInput) (clock : Z) (t : HistoryTable)
    : Z * HistoryTable :=
  let id := seq_history t + 1 in
  let row := History.mk id (ch_originalImage input) (ch_originalMimeType input)
               (ch_generatedImage input) (ch_generatedMimeType input)
               (ch_prompt input) (orNull (ch_preset input))
               (orNull (ch_aspectRatio input)) (numOrNull (ch_processingTime input))
               clock in
  (id, mkHistoryTable (history t ++ [row]) id).





Definition getHistoryEntry (id : Z) (t : HistoryTable) : option History.t :=
  sqlGet (λ r, History.id r =? id) (history t).

(** [deleteHistoryEntry]: whether [result.changes > 0], and the table. *)
Definition deleteHistoryEntry (id : Z) (t : HistoryTable) : bool * HistoryTable :=
  let kept := List.filter (λ r, negb (History.id r =? id)) (history t) in
  (0 <? Z.of_nat (length (history t)) - Z.of_nat (length kept),
   mkHistoryTable kept (seq_history t)).

Definition getHistoryCount (t : HistoryTable) : Z := Z.of_nat (length (history t)).





(** [beautifyRouter.post('/')], [routes/beautify.ts]. *)
Record BeautifyRequest := mkBeautifyRequest {
  br_image : string;
  br_mimeType : string;
  br_prompt : string;
  br_aspectRatio : option string;
  br_preset : option string
}.

Record BeautifyResponse := mkBeautifyResponse {
  resp_success : bool;
  resp_image : option string;
  resp_mimeType : option string;
  resp_error : option string;
  resp_errorCode : option string;
  resp_processingTime : Z;
  resp_historyId : option Z
}.

(** The handler up to [await generateImage(...)]. *)
Definition beautifyRouter_call (body : BeautifyRequest) : M (Z * GenSusp) :=
  let* startTime := Date_now in
  let* g := generateImage_call
              (mkOptions (br_image body) (br_mimeType body) (br_prompt body)
                 (br_aspectRatio body)) in
  ret (startTime, g).

(** The handler once [generateImage] has settled with [outcome]: the status
    and the body of the answer, and the history table. [time] is what
    [Date.now()] returns in the [try] block and [catchTime] what it returns
    in the [catch] block, [clock] is what [CURRENT_TIMESTAMP] evaluates to,
    and [fault] is the exception the [INSERT] throws, if it does. *)
Definition beautifyRouter_respond (body : BeautifyRequest) (startTime : Z)
    (outcome : Res GenerateImageResult) (time catchTime clock : Z)
    (fault : option JsValue) (t : HistoryTable) : Z * BeautifyResponse * HistoryTable :=
  let unexpected :=
    (500, mkBeautifyResponse false None None
            (Some "An unexpected error occurred") (Some "UNKNOWN")
            (catchTime - startTime) None, t) in
  match outcome with
  | Throw _ => unexpected
  | Ret result =>
      let processingTime := time - startTime in
      if success result && truthy (image result) && truthy (mimeType result) then
        match fault with
        | None =>
            let (historyId, t') :=
              saveToHistory
                (mkCreateHistoryInput (br_image body) (br_mimeType body)
                   (default "" (image result)) (default "" (mimeType result))
                   (br_prompt body) (br_preset body) (br_aspectRatio body)
                   (Some processingTime)) clock t in
            (200, mkBeautifyResponse true (image result) (mimeType result) None None
                    processingTime (Some historyId), t')
        | Some _ => unexpected
        end
      else if success result then
        (500, mkBeautifyResponse false None None (Some "No image generated")
                (Some "API_ERROR") processingTime None, t)
      else
        (500, mkBeautifyResponse false None None (error result) (errorCode result)
                processingTime None, t)
  end.

(** Ids are unique and none is above the sequence. *)
Definition historyOk (t : HistoryTable) : Prop :=
  NoDup (map History.id (history t)) ∧
  ∀ r, r ∈ history t → History.id r ≤ seq_history t.

(** ** The status route: [batchRouter.get('/:id')] *)

Record ItemSummary := mkItemSummary {
  sum_id : Z;
  sum_filename : string;
  sum_status : Status;
  sum_error : option string;
  sum_processingTime : option Z;
  sum_hasResult : bool
}.

(** The body of the answer, without the cost and the time stamps, which
    [Batch.t] leaves out. *)
Record BatchStatusResponse := mkBatchStatusResponse {
  bsr_id : Z;
  bsr_status : Status;
  bsr_totalItems : Z;
  bsr_completedItems : Z;
  bsr_failedItems : Z;
  bsr_prompt : string;
  bsr_preset : option string;
  bsr_aspectRatio : option string;
  bsr_items : list ItemSummary;
  bsr_isProcessing : bool
}.

(** [idParam] is what [parseInt(req.params.id)] returns, [None] for [NaN]. *)
Definition batchRouter_get (idParam : option Z) : M (Z * option BatchStatusResponse) :=
  match idParam with
  | None => ret (400, None)
  | Some id =>
      let* batch := getBatch id in
      match batch with
      | None => ret (404, None)
      | Some batch =>
          let* items := getBatchItems id in
          let itemSummaries :=
            map (λ item, mkItemSummary (BatchItem.id item) (BatchItem.filename item)
                           (BatchItem.status item) (BatchItem.error item)
                           (BatchItem.processing_time item)
                           (truthy (BatchItem.generated_image item)))
              items in
          let* isProcessing := isProcessingBatch id in
          ret (200, Some (mkBatchStatusResponse (Batch.id batch) (Batch.status batch)
                            (Batch.total_items batch) (Batch.completed_items batch)
                            (Batch.failed_items batch) (Batch.prompt batch)
                            (Batch.preset batch) (Batch.aspect_ratio batch)
                            itemSummaries isProcessing))
      end
  end.

(** No nullable text column holds the empty string. *)
Definition noEmptyText (d : DB) : Prop :=
  (∀ b, b ∈ batches d → Batch.preset b ≠ Some "" ∧ Batch.aspect_ratio b ≠ Some "") ∧
  (∀ i, i ∈ batch_items d →
     BatchItem.generated_image i ≠ Some "" ∧ BatchItem.generated_mime_type i ≠ Some "" ∧
     BatchItem.error i ≠ Some "") ∧
  (∀ j, j ∈ pptx_jobs d → PptxJob.preset j ≠ Some "" ∧ PptxJob.aspect_ratio j ≠ Some "") ∧
  (∀ s, s ∈ pptx_slides d →
     PptxSlide.beautified_image s ≠ Some "" ∧ PptxSlide.error s ≠ Some "").

(** ** The names in the ZIP archive: [batchRouter.get('/:id/download')] *)

(** A character that [[^/.]] matches. *)
Definition plainChar (c : ascii) : bool :=
  negb (Ascii.eqb c ".") && negb (Ascii.eqb c "/").

Fixpoint plainChars (s : string) : bool :=
  match s with
  | EmptyString => true
  | String c rest => plainChar c && plainChars rest
  end.

(** [s.replace(/\.[^/.]+$/, '')]: the match starts at the first dot that is
    followed, up to the end of [s], by one or more characters other than
    dots and slashes. *)
Fixpoint removeExtension (s : string) : string :=
  match s with
  | EmptyString => EmptyString
  | String c rest =>
      if Ascii.eqb c "." && negb (String.eqb rest "") && plainChars rest
      then EmptyString
      else String c (removeExtension rest)
  end.

(** [s.split(sep)] for a separator of one character. *)
Fixpoint splitOn (sep : ascii) (s : string) : list string :=
  match s with
  | EmptyString => [EmptyString]
  | String c rest =>
      if Ascii.eqb c sep then EmptyString :: splitOn sep rest
      else match splitOn sep rest with
           | seg :: segs => String c seg :: segs
           | [] => [String c EmptyString]
           end
  end.

(** Lines 248-249: [ext] and [filename] of an archive entry. *)
Definition archiveExtension (generated_mime_type : string) : string :=
  orElse (splitOn "/" generated_mime_type !! 1%nat) "png".

Definition archiveName (filename generated_mime_type : string) : string :=
  (removeExtension filename ++ "-beautified."
   ++ archiveExtension generated_mime_type)%string.

(** ** Extractions kept for selection: [routes/pptx.ts] *)

(** An entry of [extractedSlidesCache], without the dimensions, which
    [PptxJob.t] leaves out. *)
Record CachedSlide := mkCachedSlide {
  cs_slideNumber : Z;
  cs_imageData : string;
  cs_thumbnail : string
}.

Record Extraction := mkExtraction {
  ex_slides : list CachedSlide;
  ex_filename : string;
  ex_createdAt : Z
}.

(** [pptxRouter.post('/beautify')] for a request whose [extractionId] is a
    non-empty string: lines 161-199, then the creation of the job.
    [selectedSlides] is [Some] when the request carries an array. The
    handler returns its answer and the cache. *)
Definition pptxRouter_beautify_cached (prompt : string) (preset aspectRatio : option string)
    (extractionId : string) (selectedSlides : option (list Z))
    (cache : gmap string Extraction) : M (Z * option Susp * gmap string Extraction) :=
  if negb (truthy (Some prompt)) then ret (400, None, cache)
  else
    match cache !! extractionId with
    | None => ret (400, None, cache)
    | Some cached =>
        let toInput := λ s, mkPptxInputSlide (cs_slideNumber s) (cs_imageData s) in
        let slides :=
          match selectedSlides with
          | Some selected =>
              map toInput
                (List.filter (λ s, existsb (Z.eqb (cs_slideNumber s)) selected)
                   (ex_slides cached))
          | None => map toInput (ex_slides cached)
          end in
        if bool_decide (is_Some selectedSlides) && bool_decide (slides = []) then
          ret (400, None, cache)
        else
          let cache' := delete extractionId cache in
          let* answer := pptxRouter_beautify
                           (mkCreatePptxJobInput (ex_filename cached) prompt preset
                              aspectRatio slides) in
          ret (answer, cache')
    end.

(** The periodic clean-up of the cache: entries older than 30 minutes go. *)
Definition cleanupExtractions (time : Z) (cache : gmap string Extraction)
    : gmap string Extraction :=
  filter (λ kv, ¬ (30 * 60 * 1000 < time - ex_createdAt kv.2)) cache.

(** ** Further vocabulary and sample values *)

(** [c] does not occur in [s]. *)
Fixpoint lacks (c : ascii) (s : string) : bool :=
  match s with
  | EmptyString => true
  | String c' rest => negb (Ascii.eqb c' c) && lacks c rest
  end.

(** The slides of an extraction that a request picks. *)
Definition pickedSlides (selectedSlides : option (list Z)) (cached : Extraction)
    : list CachedSlide :=
  match selectedSlides with
  | Some selected =>
      List.filter (λ s, bool_decide (cs_slideNumber s ∈ selected)) (ex_slides cached)
  | None => ex_slides cached
  end.

(** A candidate whose first part is text and whose next two parts are
    images. *)
Definition sampleCandidate : Candidate :=
  mkCandidate
    (Some (mkContent (Some [mkPart None;
                            mkPart (Some (mkInlineData (Some "SU1H") (Some "image/png")));
                            mkPart (Some (mkInlineData (Some "T1RI") (Some "image/jpeg")))])))
    None.

(** Batch 1 cancelled while it is being processed. *)
Definition cancelledHeap : Heap :=
  (batchRouter_cancel 1 (set_activeBatches <[1 := true]> sampleHeap)).2.

(** An extraction of three slides. *)
Definition sampleCache : gmap string Extraction :=
  {[ "e1" := mkExtraction [mkCachedSlide 1 "UzE=" "VDE="; mkCachedSlide 2 "UzI=" "VDI=";
                           mkCachedSlide 3 "UzM=" "VDM="] "deck.pptx" 1000 ]}.

(** What a failed run leaves in the error and the duration column of the
    task row: the message of the failure result or of the exception, and the
    elapsed time; ['Unknown error'] stands in for a result without a message
    and for a thrown value that is no [Error], and the store keeps [NULL]
    for an empty message and for 0 ms. *)
Definition failureRecorded (outcome : Res GenerateImageResult) (elapsed : Z)
    (errorText : option string) (duration : option Z) : Prop :=
  match outcome with
  | Ret result =>
      match error result with
      | Some (String c message) => errorText = Some (String c message)
      | Some EmptyString | None => errorText = Some "Unknown error"
      end
  | Throw (JsError (String c message)) => errorText = Some (String c message)
  | Throw (JsError EmptyString) => errorText = None
  | Throw JsNonError => errorText = Some "Unknown error"
  end ∧
  match elapsed with
  | 0 => duration = None
  | _ => duration = Some elapsed
  end.

(** Within job [jobId] no two slide rows have the same slide number: the
    extraction numbers the slides of a deck 1, 2, ..., and a job is made of
    slides of one extraction. *)
Definition slideNumbersUnique (jobId : Z) (d : DB) : Prop :=
  ∀ a b, a ∈ pptx_slides d → b ∈ pptx_slides d →
    PptxSlide.job_id a = jobId → PptxSlide.job_id b = jobId →
    PptxSlide.slide_number a = PptxSlide.slide_number b → a = b.

(** The processor call of the cancelled deck job when its timer fires: the
    first slide is [completed], the second still [pending]. *)
Definition cancelledDeckHeap : Heap :=
  set_env 5000 [] (heap (run (take 3 cancelledPptxTrace) (initWorld (Some "key")))).

(** A batch whose item is failing in the millisecond its run started in. *)
Definition missingKeyResult : GenerateImageResult :=
  mkResult false None None
    (Some "API error: GEMINI_API_KEY environment variable is not set")
    (Some "API_ERROR").

(** * Proofs *)

Global Instance keyLe_total {A} (key : A → Z) : Total (keyLe key).
Proof. intros a b. unfold keyLe. lia. Qed.

Global Instance keyLe_trans {A} (key : A → Z) : Transitive (keyLe key).
Proof. intros a b c. unfold keyLe. lia. Qed.

(** ** The monad *)

Section Preserves.
Context (P : Heap → Prop).

Lemma preserves_ret {A} (a : A) : preserves P (ret a).
Proof. by intros h H. Qed.

Lemma preserves_throw {A} (e : JsValue) : preserves P (throw (A := A) e).
Proof. by intros h H. Qed.

Lemma preserves_gets {A} (f : Heap → A) : preserves P (gets f).
Proof. by intros h H. Qed.

Lemma preserves_await {A} (r : Res A) : preserves P (await r).
Proof. by intros h H. Qed.

Lemma preserves_bind {A B} (m : M A) (k : A → M B) :
  preserves P m → (∀ a, preserves P (k a)) → preserves P (bind m k).
Proof.
  intros Hm Hk h H. unfold bind. specialize (Hm h H).
  destruct (m h) as [[a|e] h']; simpl in *; [by apply Hk | done].
Qed.

Lemma preserves_tryCatch {A} (m : M A) (handler : JsValue → M A) :
  preserves P m → (∀ e, preserves P (handler e)) → preserves P (tryCatch m handler).
Proof.
  intros Hm Hk h H. unfold tryCatch. specialize (Hm h H).
  destruct (m h) as [[a|e] h']; simpl in *; [done | by apply Hk].
Qed.

Lemma preserves_modify (f : Heap → Heap) :
  (∀ h, P h → P (f h)) → preserves P (modify f).
Proof. intros Hf h H. by apply Hf. Qed.

Lemma preserves_forEach {A} (xs : list A) (body : A → M unit) :
  (∀ x, preserves P (body x)) → preserves P (forEach xs body).
Proof.
  intros Hb. induction xs as [|x xs IH]; simpl.
  - apply preserves_ret.
  - apply preserves_bind; [apply Hb | intros _; apply IH].
Qed.

Lemma preserves_stmt_blind {A} (f : DB → A * DB) :
  storeBlind P → preserves P (stmt f).
Proof.
  intros [Hf Hd] h H. unfold stmt.
  destruct (faults h) as [|[e|] fs]; simpl; auto.
Qed.
End Preserves.

Lemma preserves_stmt_db {A} (J : DB → Prop) (f : DB → A * DB) :
  (∀ d, J d → J (f d).2) → preserves (λ h, J (db h)) (stmt f).
Proof.
  intros Hf h H. unfold stmt.
  destruct (faults h) as [|[e|] fs]; simpl; auto.
Qed.

(** What [tryFinally] guarantees: a suspended body has not run the
    clean-up, a completed one has. *)
Lemma tryFinally_inv (m : M (option Susp)) (cleanup : Heap → Heap) h r h' :
  tryFinally m cleanup h = (r, h') →
  (∃ k, r = Ret (Some k) ∧ m h = (r, h')) ∨
  (settled r ∧ ∃ h0, m h = (r, h0) ∧ h' = cleanup h0).
Proof.
  unfold tryFinally. destruct (m h) as [[[k|]|e] h0]; intros [= <- <-].
  - left. eauto.
  - right. split; [done | eauto].
  - right. split; [done | eauto].
Qed.

(** Decomposes a goal [preserves P m] along the structure of [m]; the
    statements are left to [tac]. *)
Ltac preserves_with tac :=
  repeat first
    [ apply preserves_ret
    | apply preserves_throw
    | apply preserves_gets
    | apply preserves_await
    | apply preserves_bind; [|intros ?]
    | apply preserves_tryCatch; [|intros ?]
    | apply preserves_forEach; intros ?
    | progress tac
    | match goal with
      | |- preserves _ (if ?b then _ else _) => destruct b
      | |- preserves _ (match ?x with _ => _ end) => destruct x
      end ].

(** ** The registry and the duplicate-start guard *)

Section RegistryFrame.
Context (P : Heap → Prop).
Context (Hblind : storeBlind P).
Context (HgenAI : ∀ h b, P h → P (set_genAI b h)).

Local Ltac blind :=
  first [ apply preserves_stmt_blind; exact Hblind
        | apply preserves_modify; intros ? ?; apply HgenAI; assumption ].

Lemma generateImage_call_blind options : preserves P (generateImage_call options).
Proof using Hblind HgenAI.
  unfold generateImage_call, getClient. preserves_with blind.
Qed.

Lemma batchWhile_blind batchId batch item : preserves P (batchWhile batchId batch item).
Proof using Hblind HgenAI.
  unfold batchWhile, batchFinalStatus, getBatch, updateBatchStatus,
    updateBatchItemStatus, Date_now, query, exec.
  preserves_with ltac:(first [blind | apply generateImage_call_blind]).
Qed.

Lemma pptxWhile_blind jobId job slide : preserves P (pptxWhile jobId job slide).
Proof using Hblind HgenAI.
  unfold pptxWhile, pptxFinal, getPptxJob, getPptxSlides, updatePptxJobStatus,
    updatePptxSlideStatus, Date_now, query, exec.
  preserves_with ltac:(first [blind | apply generateImage_call_blind]).
Qed.
End RegistryFrame.

Lemma flag_blind (reg : Heap → gmap Z bool) (id : Z) (v : option bool) :
  (∀ h fs, reg (set_faults fs h) = reg h) →
  (∀ h f, reg (set_db f h) = reg h) →
  storeBlind (λ h, reg h !! id = v).
Proof. intros H1 H2. split; intros h x Hh; by rewrite ?H1, ?H2. Qed.

(** A call that suspends leaves its job registered active. *)
Lemma processor_suspended_active kind id h k h1 :
  processor kind id h = (Ret (Some k), h1) → registry kind h1 !! id = Some true.
Proof.
  destruct kind; simpl.
  - unfold processBatch, bind at 1, gets at 1.
    destruct (flagSet (activeBatches h !! id)); [by intros [= ]|].
    unfold bind at 1, modify.
    set (h0 := set_activeBatches <[id:=true]> h).
    intros H. apply tryFinally_inv in H as [(k' & _ & H)|[[] _]].
    assert (Hp : preserves (λ h, activeBatches h !! id = Some true)
              (let* batch := getBatch id in
               match batch with
               | None => ret None
               | Some batch =>
                   updateBatchStatus id processing >>
                   let* item := getNextPendingBatchItem id in
                   batchWhile id batch item
               end)).
    { unfold getBatch, updateBatchStatus, getNextPendingBatchItem, query, exec.
      preserves_with ltac:(first
        [ apply preserves_stmt_blind; by apply flag_blind
        | apply batchWhile_blind; [by apply flag_blind | done] ]). }
    specialize (Hp h0). rewrite H in Hp. apply Hp.
    unfold h0. simpl. apply lookup_insert_eq.
  - unfold processPptxJob, bind at 1, gets at 1.
    destruct (flagSet (activeJobs h !! id)); [by intros [= ]|].
    unfold bind at 1, modify.
    set (h0 := set_activeJobs <[id:=true]> h).
    intros H. apply tryFinally_inv in H as [(k' & _ & H)|[[] _]].
    assert (Hp : preserves (λ h, activeJobs h !! id = Some true)
              (let* job := getPptxJob id in
               match job with
               | None => ret None
               | Some job =>
                   updatePptxJobStatus id processing >>
                   let* slide := getNextPendingPptxSlide id in
                   pptxWhile id job slide
               end)).
    { unfold getPptxJob, updatePptxJobStatus, getNextPendingPptxSlide, query, exec.
      preserves_with ltac:(first
        [ apply preserves_stmt_blind; by apply flag_blind
        | apply pptxWhile_blind; [by apply flag_blind | done] ]). }
    specialize (Hp h0). rewrite H in Hp. apply Hp.
    unfold h0. simpl. apply lookup_insert_eq.
Qed.

(** C4: while a job is registered active, a further call of its processor
    returns at once and leaves the whole process state (database, registries,
    results) as it was; in particular a call made right after one that is
    suspended in its loop does nothing. *)
Theorem duplicate_start_is_noop :
  (∀ kind id h,
     registry kind h !! id = Some true →
     processor kind id h = (Ret None, h)) ∧
  (∀ kind id h k h1,
     processor kind id h = (Ret (Some k), h1) →
     processor kind id h1 = (Ret None, h1)).
Proof.
  assert (H1 : ∀ kind id h, registry kind h !! id = Some true →
                 processor kind id h = (Ret None, h)).
  { intros [] id h H; simpl in *.
    - unfold processBatch, bind, gets. by rewrite H.
    - unfold processPptxJob, bind, gets. by rewrite H. }
  split; [exact H1|].
  intros kind id h k h1 H. apply H1. by eapply processor_suspended_active.
Qed.

(** C5: whenever a processor call completes, by returning or by throwing,
    from its first stretch or after any of its awaits, its job id is absent
    from the registry, so the duplicate-start guard lets the next call in. *)
Theorem processor_deregisters_on_every_exit :
  (∀ kind id h r h',
     flagSet (registry kind h !! id) = false →
     processor kind id h = (r, h') → settled r →
     registry kind h' !! id = None) ∧
  (∀ k s m h r h',
     resume k s = Some m → m h = (r, h') → settled r →
     registry (jobOf k).1 h' !! (jobOf k).2 = None).
Proof.
  split.
  - intros [] id h r h' Hflag H Hr; simpl in *.
    + unfold processBatch, bind at 1, gets at 1 in H. rewrite Hflag in H.
      unfold bind at 1, modify in H.
      apply tryFinally_inv in H as [(k & -> & _)|(_ & h0 & _ & ->)]; [done|].
      simpl. apply lookup_delete_eq.
    + unfold processPptxJob, bind at 1, gets at 1 in H. rewrite Hflag in H.
      unfold bind at 1, modify in H.
      apply tryFinally_inv in H as [(k & -> & _)|(_ & h0 & _ & ->)]; [done|].
      simpl. apply lookup_delete_eq.
  - intros k s m h r h' Hm H Hr.
    destruct k, s; simpl in Hm; try discriminate; injection Hm as <-;
      apply tryFinally_inv in H as [(k & -> & _)|(_ & h0 & _ & ->)];
      try done; simpl; apply lookup_delete_eq.
Qed.

(** ** Queries *)

Lemma insertBy_Permutation {A} (key : A → Z) (x : A) (l : list A) :
  insertBy key x l ≡ₚ x :: l.
Proof.
  induction l as [|y l IH]; simpl; [done|].
  destruct (key x <=? key y); [done|]. rewrite IH. apply Permutation_swap.
Qed.

Lemma stableSort_Permutation {A} (key : A → Z) (l : list A) : stableSort key l ≡ₚ l.
Proof.
  induction l as [|x l IH]; simpl; [done|].
  fold (stableSort key l). by rewrite insertBy_Permutation, IH.
Qed.

Lemma insertBy_sorted {A} (key : A → Z) (x : A) (l : list A) :
  StronglySorted (keyLe key) l → StronglySorted (keyLe key) (insertBy key x l).
Proof.
  induction 1 as [|y l Hl IH Hy]; simpl; [repeat constructor|].
  destruct (Z.leb_spec (key x) (key y)) as [Hle|Hgt].
  - constructor; [by constructor|]. constructor; [done|].
    eapply Forall_impl; [exact Hy|]. unfold keyLe. intros z Hz. simpl in Hz. lia.
  - constructor; [done|]. rewrite insertBy_Permutation. constructor; [|done].
    unfold keyLe. lia.
Qed.

Lemma stableSort_sorted {A} (key : A → Z) (l : list A) :
  StronglySorted (keyLe key) (stableSort key l).
Proof.
  induction l as [|x l IH]; simpl; [constructor|].
  by apply insertBy_sorted.
Qed.

Lemma orderBy_Permutation {A} (key : A → Z) (rows : list A) : orderBy key rows ≡ₚ rows.
Proof. apply stableSort_Permutation. Qed.

Lemma orderBy_elem {A} (key : A → Z) (rows : list A) (r : A) :
  r ∈ orderBy key rows ↔ r ∈ rows.
Proof. by rewrite orderBy_Permutation. Qed.

Lemma orderBy_sorted {A} (key : A → Z) (rows : list A) :
  StronglySorted (keyLe key) (orderBy key rows).
Proof. apply stableSort_sorted. Qed.

Lemma elem_of_List_filter {A} (p : A → bool) (rows : list A) (r : A) :
  r ∈ List.filter p rows ↔ r ∈ rows ∧ p r = true.
Proof. rewrite !list_elem_of_In. apply filter_In. Qed.

Lemma sqlFirstBy_Some {A} (p : A → bool) (key : A → Z) (rows : list A) (r : A) :
  sqlFirstBy p key rows = Some r →
  r ∈ rows ∧ p r = true ∧ ∀ r', r' ∈ rows → p r' = true → key r ≤ key r'.
Proof.
  unfold sqlFirstBy. intros H.
  pose proof (orderBy_sorted key (List.filter p rows)) as Hs.
  destruct (orderBy key (List.filter p rows)) as [|x l] eqn:E; [done|].
  injection H as ->.
  assert (Hr : r ∈ orderBy key (List.filter p rows)) by (rewrite E; left).
  apply orderBy_elem, elem_of_List_filter in Hr as [Hr Hp].
  split_and!; [done..|].
  intros r' Hr' Hp'.
  assert (H' : r' ∈ r :: l).
  { rewrite <- E. apply orderBy_elem, elem_of_List_filter. done. }
  apply StronglySorted_inv in Hs as [_ Hall].
  apply elem_of_cons in H' as [->|H']; [lia|].
  rewrite Forall_forall in Hall. by apply Hall.
Qed.

Lemma sqlFirstBy_None {A} (p : A → bool) (key : A → Z) (rows : list A) :
  sqlFirstBy p key rows = None → ∀ r, r ∈ rows → p r = false.
Proof.
  unfold sqlFirstBy. intros H r Hr.
  destruct (p r) eqn:Hp; [|done].
  assert (H' : r ∈ orderBy key (List.filter p rows)).
  { apply orderBy_elem, elem_of_List_filter. done. }
  destruct (orderBy key (List.filter p rows)); [|done].
  by apply elem_of_nil in H'.
Qed.

Lemma sqlGet_Some {A} (p : A → bool) (rows : list A) (r : A) :
  sqlGet p rows = Some r → r ∈ rows ∧ p r = true.
Proof.
  unfold sqlGet. intros H. apply find_some in H as [H1 H2].
  by rewrite list_elem_of_In.
Qed.

(** C7, as amended: [getNextPendingBatchItem] returns the pending item of the
    batch with the lowest row id, [getNextPendingPptxSlide] the pending slide
    of the job with the lowest slide number, and each returns nothing exactly
    when the job has no pending task. Row ids being unique, and slide numbers
    being unique within a job, every other pending task of the job has a
    strictly higher id, or slide number. Hence, as long as no task is put back
    to [pending], the task returned after one that has left [pending] has a
    strictly higher id, or slide number: tasks are taken in strictly ascending
    order. *)
Theorem next_pending_is_lowest :
  (∀ d batchId,
     match Sql.getNextPendingBatchItem batchId d with
     | Some i =>
         i ∈ batch_items d ∧ BatchItem.batch_id i = batchId ∧
         BatchItem.status i = pending ∧
         ∀ i', i' ∈ batch_items d → BatchItem.batch_id i' = batchId →
               BatchItem.status i' = pending →
               BatchItem.id i ≤ BatchItem.id i' ∧
               (NoDup (map BatchItem.id (batch_items d)) → i' ≠ i →
                BatchItem.id i < BatchItem.id i')
     | None =>
         ∀ i', i' ∈ batch_items d → BatchItem.batch_id i' = batchId →
               BatchItem.status i' ≠ pending
     end) ∧
  (∀ d jobId,
     match Sql.getNextPendingPptxSlide jobId d with
     | Some s =>
         s ∈ pptx_slides d ∧ PptxSlide.job_id s = jobId ∧
         PptxSlide.status s = pending ∧
         ∀ s', s' ∈ pptx_slides d → PptxSlide.job_id s' = jobId →
               PptxSlide.status s' = pending →
               PptxSlide.slide_number s ≤ PptxSlide.slide_number s' ∧
               (slideNumbersUnique jobId d → s' ≠ s →
                PptxSlide.slide_number s < PptxSlide.slide_number s')
     | None =>
         ∀ s', s' ∈ pptx_slides d → PptxSlide.job_id s' = jobId →
               PptxSlide.status s' ≠ pending
     end) ∧
  (∀ d d' batchId i i',
     NoDup (map BatchItem.id (batch_items d)) →
     Sql.getNextPendingBatchItem batchId d = Some i →
     (∀ r, r ∈ batch_items d' → BatchItem.status r = pending → r ∈ batch_items d) →
     i ∉ batch_items d' →
     Sql.getNextPendingBatchItem batchId d' = Some i' →
     BatchItem.id i < BatchItem.id i') ∧
  (∀ d d' jobId s s',
     slideNumbersUnique jobId d →
     Sql.getNextPendingPptxSlide jobId d = Some s →
     (∀ r, r ∈ pptx_slides d' → PptxSlide.status r = pending → r ∈ pptx_slides d) →
     s ∉ pptx_slides d' →
     Sql.getNextPendingPptxSlide jobId d' = Some s' →
     PptxSlide.slide_number s < PptxSlide.slide_number s').
Proof.
  assert (Hitem : ∀ d batchId i, Sql.getNextPendingBatchItem batchId d = Some i →
            i ∈ batch_items d ∧ BatchItem.batch_id i = batchId ∧
            BatchItem.status i = pending ∧
            ∀ i', i' ∈ batch_items d → BatchItem.batch_id i' = batchId →
                  BatchItem.status i' = pending → BatchItem.id i ≤ BatchItem.id i').
  { intros d batchId i E. unfold Sql.getNextPendingBatchItem in E.
    apply sqlFirstBy_Some in E as (Hin & Hp & Hmin).
    apply andb_true_iff in Hp as [Hb Hs].
    apply Z.eqb_eq in Hb. apply bool_decide_eq_true in Hs.
    split_and!; [done..|].
    intros i' Hi' Hb' Hs'. apply Hmin; [done|].
    rewrite Hb', Hs', Z.eqb_refl. done. }
  assert (Hslide : ∀ d jobId s, Sql.getNextPendingPptxSlide jobId d = Some s →
            s ∈ pptx_slides d ∧ PptxSlide.job_id s = jobId ∧
            PptxSlide.status s = pending ∧
            ∀ s', s' ∈ pptx_slides d → PptxSlide.job_id s' = jobId →
                  PptxSlide.status s' = pending →
                  PptxSlide.slide_number s ≤ PptxSlide.slide_number s').
  { intros d jobId s E. unfold Sql.getNextPendingPptxSlide in E.
    apply sqlFirstBy_Some in E as (Hin & Hp & Hmin).
    apply andb_true_iff in Hp as [Hb Hs].
    apply Z.eqb_eq in Hb. apply bool_decide_eq_true in Hs.
    split_and!; [done..|].
    intros s' Hs'' Hb' Hs'. apply Hmin; [done|].
    rewrite Hb', Hs', Z.eqb_refl. done. }
  assert (Hids : ∀ d (i i' : BatchItem.t),
            NoDup (map BatchItem.id (batch_items d)) →
            i ∈ batch_items d → i' ∈ batch_items d →
            BatchItem.id i = BatchItem.id i' → i = i').
  { intros d. generalize (batch_items d). intros rows i i' Hnd Hin Hin' Heq.
    induction rows as [|x rows IH]; [by apply elem_of_nil in Hin|].
    simpl in Hnd. apply NoDup_cons in Hnd as [Hx Hnd].
    assert (Hmem : ∀ r, r ∈ rows → BatchItem.id r ∈ map BatchItem.id rows).
    { intros r Hr. rewrite list_elem_of_In, in_map_iff. exists r.
      by rewrite <- list_elem_of_In. }
    apply elem_of_cons in Hin as [->|Hin]; apply elem_of_cons in Hin' as [->|Hin']; auto.
    - exfalso. apply Hx. rewrite Heq. by apply Hmem.
    - exfalso. apply Hx. rewrite <- Heq. by apply Hmem. }
  split_and!.
  - intros d batchId.
    destruct (Sql.getNextPendingBatchItem batchId d) as [i|] eqn:E.
    + destruct (Hitem d batchId i E) as (Hin & Hb & Hs & Hmin).
      split_and!; [done..|]. intros i' Hi' Hb' Hs'.
      split; [by apply Hmin|]. intros Hnd Hne.
      pose proof (Hmin i' Hi' Hb' Hs') as Hle.
      destruct (decide (BatchItem.id i = BatchItem.id i')) as [Heq|Hneq]; [|lia].
      exfalso. apply Hne. symmetry. by apply (Hids d).
    + intros i' Hi' Hb' Hs'. unfold Sql.getNextPendingBatchItem in E.
      pose proof (sqlFirstBy_None _ _ _ E i' Hi') as Hp. simpl in Hp.
      rewrite Hb', Hs', Z.eqb_refl in Hp. done.
  - intros d jobId.
    destruct (Sql.getNextPendingPptxSlide jobId d) as [s|] eqn:E.
    + destruct (Hslide d jobId s E) as (Hin & Hb & Hs & Hmin).
      split_and!; [done..|]. intros s' Hs'' Hb' Hs'.
      split; [by apply Hmin|]. intros Huniq Hne.
      pose proof (Hmin s' Hs'' Hb' Hs') as Hle.
      destruct (decide (PptxSlide.slide_number s = PptxSlide.slide_number s'))
        as [Heq|Hneq]; [|lia].
      exfalso. apply Hne. symmetry. by apply (Huniq s s').
    + intros s' Hs'' Hb' Hs'. unfold Sql.getNextPendingPptxSlide in E.
      pose proof (sqlFirstBy_None _ _ _ E s' Hs'') as Hp. simpl in Hp.
      rewrite Hb', Hs', Z.eqb_refl in Hp. done.
  - intros d d' batchId i i' Hnd Hi Hkept Hgone Hi'.
    apply Hitem in Hi as (Hin & Hb & Hs & Hmin).
    apply Hitem in Hi' as (Hin' & Hb' & Hs' & _).
    pose proof (Hmin i' (Hkept i' Hin' Hs') Hb' Hs') as Hle.
    destruct (decide (BatchItem.id i = BatchItem.id i')) as [Heq|Hneq]; [|lia].
    exfalso. apply Hgone.
    rewrite (Hids d i i' Hnd Hin (Hkept i' Hin' Hs') Heq). done.
  - intros d d' jobId s s' Huniq Hs Hkept Hgone Hs'.
    apply Hslide in Hs as (Hin & Hb & Hst & Hmin).
    apply Hslide in Hs' as (Hin' & Hb' & Hst' & _).
    pose proof (Hmin s' (Hkept s' Hin' Hst') Hb' Hst') as Hle.
    destruct (decide (PptxSlide.slide_number s = PptxSlide.slide_number s'))
      as [Heq|Hneq]; [|lia].
    exfalso. apply Hgone.
    rewrite (Huniq s s' Hin (Hkept s' Hin' Hst') Hb Hb' Heq). done.
Qed.

(** C7 as stated fails for batches: of two pending items the one inserted
    first is returned although the other has the smaller filename. *)
Lemma next_pending_batch_item_ignores_filename :
  ¬ ∀ d batchId i i',
      Sql.getNextPendingBatchItem batchId d = Some i →
      i' ∈ batch_items d → BatchItem.batch_id i' = batchId →
      BatchItem.status i' = pending →
      String.leb (BatchItem.filename i) (BatchItem.filename i') = true.
Proof.
  intros H.
  specialize (H (mkDB [] [ BatchItem.mk 1 1 "b.png" "Qg==" "image/png" None None pending None None;
                          BatchItem.mk 2 1 "a.png" "QQ==" "image/png" None None pending None None ]
                   [] [] 1 2 0 0) 1
                (BatchItem.mk 1 1 "b.png" "Qg==" "image/png" None None pending None None)
                (BatchItem.mk 2 1 "a.png" "QQ==" "image/png" None None pending None None)).
  assert (Hleb : String.leb "b.png" "a.png" = false) by (vm_compute; reflexivity).
  simpl in H. rewrite Hleb in H.
  specialize (H ltac:(vm_compute; reflexivity) ltac:(right; left) eq_refl eq_refl).
  discriminate.
Qed.

(** ** Statements that succeed *)

Lemma stmt_ok {A} (f : DB → A * DB) h :
  faults h = [] →
  stmt f h = (Ret (f (db h)).1, set_db (λ _, (f (db h)).2) h).
Proof. intros H. unfold stmt. by rewrite H. Qed.

Lemma query_ok {A} (f : DB → A) h :
  faults h = [] → query f h = (Ret (f (db h)), h).
Proof. intros H. unfold query. rewrite stmt_ok by done. by destruct h. Qed.

Lemma exec_ok (f : DB → DB) h :
  faults h = [] → exec f h = (Ret tt, set_db f h).
Proof. intros H. unfold exec. by rewrite stmt_ok. Qed.

Lemma bind_query_ok {A B} (f : DB → A) (k : A → M B) h :
  faults h = [] → bind (query f) k h = k (f (db h)) h.
Proof. intros H. unfold bind. by rewrite query_ok. Qed.

Lemma bind_exec_ok {B} (f : DB → DB) (k : unit → M B) h :
  faults h = [] → bind (exec f) k h = k tt (set_db f h).
Proof. intros H. unfold bind. by rewrite exec_ok. Qed.

Lemma sqlUpdate_lookup {A} (p : A → bool) (f : A → A) (rows : list A) (n : nat) :
  sqlUpdate p f rows !! n = (λ r, if p r then f r else r) <$> rows !! n.
Proof. unfold sqlUpdate. apply list_lookup_fmap. Qed.

(** ** The Task Runner *)

Lemma batchRunItem_failure batchId item startTime outcome h :
  faults h = [] → gatewayFailed outcome →
  batchRunItem batchId item startTime outcome h =
    (Ret tt,
     set_db (λ d, Sql.incrementBatchCompleted batchId true
                    (Sql.updateBatchItemStatus (BatchItem.id item) failed
                       (Some (Sql.mkItemResult None None
                                (Some (failureText outcome))
                                (Some (now h - startTime)))) d)) h).
Proof.
  intros Hf Hfail. unfold batchRunItem, tryCatch, bind, await, Date_now, gets.
  destruct outcome as [result|e]; simpl in *.
  - rewrite Hfail. simpl.
    unfold updateBatchItemStatus, incrementBatchCompleted.
    rewrite exec_ok by done. rewrite exec_ok by done. done.
  - unfold updateBatchItemStatus, incrementBatchCompleted.
    rewrite exec_ok by done. rewrite exec_ok by done. done.
Qed.

Lemma pptxRunSlide_failure jobId slide startTime outcome h :
  faults h = [] → gatewayFailed outcome →
  pptxRunSlide jobId slide startTime outcome h =
    (Ret tt,
     set_db (λ d, Sql.incrementPptxCompleted jobId true
                    (Sql.updatePptxSlideStatus (PptxSlide.id slide) failed
                       (Some (Sql.mkSlideResult None
                                (Some (failureText outcome))
                                (Some (now h - startTime)))) d)) h).
Proof.
  intros Hf Hfail. unfold pptxRunSlide, tryCatch, bind, await, Date_now, gets.
  destruct outcome as [result|e]; simpl in *.
  - rewrite Hfail. simpl.
    unfold updatePptxSlideStatus, incrementPptxCompleted.
    rewrite exec_ok by done. rewrite exec_ok by done. done.
  - unfold updatePptxSlideStatus, incrementPptxCompleted.
    rewrite exec_ok by done. rewrite exec_ok by done. done.
Qed.

(** C6, as amended: when the Gateway's call has failed, by a failure result
    or by an exception, and the store works, the runner returns normally.
    Every row of the task is then [failed] and without output. Its error
    text is the message of the failure result, or ['Unknown error'] when the
    result has none; for an exception it is the message of the [Error],
    [NULL] when that message is empty, and ['Unknown error'] when the thrown
    value is no [Error]. Its duration is the elapsed time, and [NULL] when
    that is 0 ms. Every row of the job has both its completed and its failed
    counter one higher. This holds for batch items and for slides. *)
Theorem gateway_failure_is_recorded :
  (∀ batchId item startTime outcome h,
     faults h = [] → gatewayFailed outcome →
     let out := batchRunItem batchId item startTime outcome h in
     out.1 = Ret tt ∧
     (∀ n i, batch_items (db h) !! n = Some i →
        BatchItem.id i = BatchItem.id item →
        ∃ i', batch_items (db out.2) !! n = Some i' ∧
          BatchItem.status i' = failed ∧
          failureRecorded outcome (now h - startTime)
            (BatchItem.error i') (BatchItem.processing_time i') ∧
          BatchItem.generated_image i' = None ∧
          BatchItem.generated_mime_type i' = None) ∧
     (∀ n b, batches (db h) !! n = Some b → Batch.id b = batchId →
        ∃ b', batches (db out.2) !! n = Some b' ∧
          Batch.completed_items b' = Batch.completed_items b + 1 ∧
          Batch.failed_items b' = Batch.failed_items b + 1)) ∧
  (∀ jobId slide startTime outcome h,
     faults h = [] → gatewayFailed outcome →
     let out := pptxRunSlide jobId slide startTime outcome h in
     out.1 = Ret tt ∧
     (∀ n s, pptx_slides (db h) !! n = Some s →
        PptxSlide.id s = PptxSlide.id slide →
        ∃ s', pptx_slides (db out.2) !! n = Some s' ∧
          PptxSlide.status s' = failed ∧
          failureRecorded outcome (now h - startTime)
            (PptxSlide.error s') (PptxSlide.processing_time s') ∧
          PptxSlide.beautified_image s' = None) ∧
     (∀ n j, pptx_jobs (db h) !! n = Some j → PptxJob.id j = jobId →
        ∃ j', pptx_jobs (db out.2) !! n = Some j' ∧
          PptxJob.completed_slides j' = PptxJob.completed_slides j + 1 ∧
          PptxJob.failed_slides j' = PptxJob.failed_slides j + 1)).
Proof.
  assert (Hrec : ∀ outcome elapsed,
            failureRecorded outcome elapsed (orNull (Some (failureText outcome)))
              (numOrNull (Some elapsed))).
  { intros outcome elapsed. split; [|by destruct elapsed].
    destruct outcome as [result|[[|c message]|]]; simpl; try done.
    by destruct (error result) as [[|c message]|]. }
  split.
  - intros batchId item startTime outcome h Hf Hfail out. subst out.
    rewrite batchRunItem_failure by done. simpl. split_and!; [done|..].
    + intros n i Hn Hid. rewrite sqlUpdate_lookup, Hn. simpl.
      rewrite Hid, Z.eqb_refl. eexists. split; [done|]. simpl.
      split; [done|]. split; [apply Hrec|done].
    + intros n b Hn Hid. rewrite sqlUpdate_lookup, Hn. simpl.
      rewrite Hid, Z.eqb_refl. eexists. split; [done|]. simpl. done.
  - intros jobId slide startTime outcome h Hf Hfail out. subst out.
    rewrite pptxRunSlide_failure by done. simpl. split_and!; [done|..].
    + intros n s Hn Hid. rewrite sqlUpdate_lookup, Hn. simpl.
      rewrite Hid, Z.eqb_refl. eexists. split; [done|]. simpl.
      split; [done|]. split; [apply Hrec|done].
    + intros n j Hn Hid. rewrite sqlUpdate_lookup, Hn. simpl.
      rewrite Hid, Z.eqb_refl. eexists. split; [done|]. simpl. done.
Qed.

(** C6 as stated fails: an item whose run fails in the millisecond it
    started in (as with a missing credential, where [generateImage] returns
    at once) is [failed] with its message, but its duration column holds
    [NULL], not the elapsed 0 ms. *)
Lemma immediate_failure_has_no_duration :
  ¬ ∀ batchId item startTime outcome h,
      faults h = [] → gatewayFailed outcome →
      ∀ i', i' ∈ batch_items (db (batchRunItem batchId item startTime outcome h).2) →
        BatchItem.id i' = BatchItem.id item →
        BatchItem.processing_time i' = Some (now h - startTime).
Proof.
  intros H.
  specialize (H 1 sampleItem 1000 (Ret missingKeyResult) sampleHeap eq_refl eq_refl
                (BatchItem.mk 1 1 "a.png" "QQ==" "image/png" None None failed
                   (Some "API error: GEMINI_API_KEY environment variable is not set")
                   None)).
  assert (Hin : BatchItem.mk 1 1 "a.png" "QQ==" "image/png" None None failed
                  (Some "API error: GEMINI_API_KEY environment variable is not set") None
                ∈ batch_items (db (batchRunItem 1 sampleItem 1000 (Ret missingKeyResult)
                                     sampleHeap).2)).
  { vm_compute. left. }
  specialize (H Hin eq_refl). discriminate.
Qed.

(** ** The Gateway without a credential *)

(** C8, as amended: when [GEMINI_API_KEY] is unset or empty and no client
    has been created yet, [getClient] throws, but [generateImage] catches the
    exception itself: its caller receives the per-call failure result
    [{ success: false, error: 'API error: GEMINI_API_KEY environment variable
    is not set', errorCode: 'API_ERROR' }] and no exception, and the heap is
    left as it was. *)
Theorem missing_credential_is_a_failure_result :
  ∀ options h provider,
    genAI h = false → truthy (GEMINI_API_KEY h) = false →
    getClient h = (Throw (JsError "GEMINI_API_KEY environment variable is not set"), h) ∧
    ∃ g, generateImage_call options h = (Ret g, h) ∧
         generateImage_result g provider =
           Ret (mkResult false None None
                  (Some "API error: GEMINI_API_KEY environment variable is not set")
                  (Some "API_ERROR")).
Proof.
  intros options h provider Hc Hk.
  assert (Hg : getClient h =
            (Throw (JsError "GEMINI_API_KEY environment variable is not set"), h)).
  { unfold getClient, bind, gets. rewrite Hc. simpl. by rewrite Hk. }
  split; [done|].
  eexists. unfold generateImage_call, tryCatch, bind. rewrite Hg.
  split; [reflexivity|]. vm_compute. reflexivity.
Qed.

(** C8 as stated fails: with no credential the call of [generateImage]
    throws nothing. *)
Lemma missing_credential_is_not_thrown :
  ¬ ∃ e, (generateImage_call (mkOptions "QUJD" "image/png" "enhance" None)
            (initHeap None)).1 = Throw e.
Proof. intros [e H]. vm_compute in H. discriminate. Qed.

(** ** Status updates *)

(** C9, as amended: [updateBatchItemStatus] and [updatePptxSlideStatus]
    check nothing. Whatever status a row has, the call gives it the status it
    is passed, [pending] included, with the output, error and duration of its
    [result] argument ([null] where absent), and returns normally unless the
    statement itself fails. *)
Theorem update_status_is_unconditional :
  (∀ id status result h,
     faults h = [] →
     updateBatchItemStatus id status result h =
       (Ret tt, set_db (Sql.updateBatchItemStatus id status result) h) ∧
     ∀ n i, batch_items (db h) !! n = Some i → BatchItem.id i = id →
       ∃ i', batch_items (Sql.updateBatchItemStatus id status result (db h)) !! n
               = Some i' ∧
         BatchItem.status i' = status ∧
         BatchItem.generated_image i' = orNull (result ≫= Sql.generatedImage) ∧
         BatchItem.error i' = orNull (result ≫= Sql.error) ∧
         BatchItem.processing_time i' = numOrNull (result ≫= Sql.processingTime)) ∧
  (∀ id status result h,
     faults h = [] →
     updatePptxSlideStatus id status result h =
       (Ret tt, set_db (Sql.updatePptxSlideStatus id status result) h) ∧
     ∀ n s, pptx_slides (db h) !! n = Some s → PptxSlide.id s = id →
       ∃ s', pptx_slides (Sql.updatePptxSlideStatus id status result (db h)) !! n
               = Some s' ∧
         PptxSlide.status s' = status ∧
         PptxSlide.beautified_image s' = orNull (result ≫= Sql.beautifiedImage) ∧
         PptxSlide.error s' = orNull (result ≫= Sql.slideError) ∧
         PptxSlide.processing_time s' = numOrNull (result ≫= Sql.slideProcessingTime)).
Proof.
  split.
  - intros id status result h Hf. split.
    + unfold updateBatchItemStatus. by rewrite exec_ok.
    + intros n i Hn Hid. simpl. rewrite sqlUpdate_lookup, Hn. simpl.
      rewrite Hid, Z.eqb_refl. eexists. split; [done|]. done.
  - intros id status result h Hf. split.
    + unfold updatePptxSlideStatus. by rewrite exec_ok.
    + intros n s Hn Hid. simpl. rewrite sqlUpdate_lookup, Hn. simpl.
      rewrite Hid, Z.eqb_refl. eexists. split; [done|]. done.
Qed.

(** C9 as stated fails: a completed item, and a failed slide, are put back
    to [pending] by the status update, which returns normally. *)
Lemma update_status_accepts_pending :
  let item := BatchItem.mk 1 1 "a.png" "QQ==" "image/png"
                (Some "SU1H") (Some "image/png") completed None (Some 800) in
  let slide := PptxSlide.mk 1 1 1 failed "UzE=" None (Some "Rate limit exceeded. Please try again later.") (Some 300) in
  let d := mkDB [] [item] [] [slide] 0 1 0 1 in
  let h := mkHeap d ∅ ∅ ∅ false None 0 [] in
  (updateBatchItemStatus 1 pending None h).1 = Ret tt ∧
  batch_items (db (updateBatchItemStatus 1 pending None h).2) =
    [BatchItem.mk 1 1 "a.png" "QQ==" "image/png" None None pending None None] ∧
  (updatePptxSlideStatus 1 pending None h).1 = Ret tt ∧
  pptx_slides (db (updatePptxSlideStatus 1 pending None h).2) =
    [PptxSlide.mk 1 1 1 pending "UzE=" None None None].
Proof. vm_compute. done. Qed.

(** ** Assembly *)

Lemma assembleSlides_perm slides :
  assembleSlides slides ≡ₚ
    map (λ s, mkSlideImage (PptxSlide.slide_number s)
                (default "" (PptxSlide.beautified_image s)))
      (List.filter (λ s, bool_decide (PptxSlide.status s = completed)
                           && truthy (PptxSlide.beautified_image s)) slides)
    ++ map (λ s, mkSlideImage (PptxSlide.slide_number s) (PptxSlide.original_image s))
         (List.filter (λ s, bool_decide (PptxSlide.status s = failed)) slides).
Proof. unfold assembleSlides. apply stableSort_Permutation. Qed.

Lemma truthy_Some s : truthy s = true → ∃ v, s = Some v ∧ v ≠ "".
Proof. destruct s as [[|c v]|]; simpl; intros H; try done. eexists. split; done. Qed.

(** ** Cancellation *)

(** C1 (the code departs from the claim): after the cancelled run of the
    two-item batch the processor has returned, the second item is still
    [pending] and the registry entry is gone, but the batch is [completed],
    not [failed]: the final-status block overwrites the [failed] written by
    the cancel handler. The cancelled deck job goes on to the assembly with
    its one completed slide and, once the assembly tool answers, is
    [completed] as well. *)
Theorem cancelled_job_ends_completed :
  let w := run cancelledBatchTrace (initWorld (Some "key")) in
  let pw := run cancelledPptxTrace (initWorld (Some "key")) in
  let pw' := step (mkTick (Settles 0 (AssemblySettles (Ret "UFBUWA=="))) 6000 []) pw in
  map Batch.status (batches (db (heap w))) = [completed] ∧
  map BatchItem.status (batch_items (db (heap w))) = [completed; pending] ∧
  procs w = [None] ∧ activeBatches (heap w) !! 1 = None ∧
  map PptxJob.status (pptx_jobs (db (heap pw))) = [assembling] ∧
  (∃ finalJob, procs pw = [Some (PptxAwaitAssembly 1 finalJob [mkSlideImage 1 "SU1H"])]) ∧
  map PptxSlide.status (pptx_slides (db (heap pw'))) = [completed; pending] ∧
  map PptxJob.status (pptx_jobs (db (heap pw'))) = [completed] ∧
  pptxResults (heap pw') !! 1 = Some "UFBUWA==".
Proof. vm_compute. split_and!; try reflexivity. eexists; reflexivity. Qed.

(** ** Counting rows *)

Section Rows.
Context {A : Type} (rid : A → Z).

Lemma elem_of_sqlUpdate (p : A → bool) (f : A → A) (rows : list A) (r' : A) :
  r' ∈ sqlUpdate p f rows ↔ ∃ r, r ∈ rows ∧ r' = if p r then f r else r.
Proof.
  unfold sqlUpdate. rewrite list_elem_of_In, in_map_iff.
  split; intros (r & H1 & H2); exists r; rewrite ?list_elem_of_In in *; done.
Qed.

Lemma sqlUpdate_ids (p : A → bool) (f : A → A) (rows : list A) :
  (∀ r, r ∈ rows → p r = true → rid (f r) = rid r) →
  map rid (sqlUpdate p f rows) = map rid rows.
Proof.
  intros Hf. unfold sqlUpdate. rewrite map_map. apply map_ext_in.
  intros r Hr. rewrite <- list_elem_of_In in Hr.
  destruct (p r) eqn:Hp; auto.
Qed.

Lemma countIf_nonneg (q : A → bool) (rows : list A) : 0 ≤ countIf q rows.
Proof. unfold countIf. lia. Qed.

Lemma countIf_cons (q : A → bool) (r : A) (rows : list A) :
  countIf q (r :: rows) = Z.b2z (q r) + countIf q rows.
Proof. unfold countIf. simpl. destruct (q r); simpl; lia. Qed.

Lemma countIf_app (q : A → bool) (l1 l2 : list A) :
  countIf q (l1 ++ l2) = countIf q l1 + countIf q l2.
Proof.
  induction l1 as [|r l1 IH]; [done|].
  rewrite <- app_comm_cons, !countIf_cons, IH. lia.
Qed.

Lemma countIf_none (q : A → bool) (rows : list A) :
  (∀ r, r ∈ rows → q r = false) → countIf q rows = 0.
Proof.
  induction rows as [|r rows IH]; intros H; [done|].
  rewrite countIf_cons, IH, H; [done|left|].
  intros r' Hr'. apply H. by right.
Qed.

Lemma countIf_all (q : A → bool) (rows : list A) :
  (∀ r, r ∈ rows → q r = true) → countIf q rows = Z.of_nat (length rows).
Proof.
  induction rows as [|r rows IH]; intros H; [done|].
  rewrite countIf_cons, IH, H; [simpl; lia|left|].
  intros r' Hr'. apply H. by right.
Qed.

Lemma countIf_le (q1 q2 : A → bool) (rows : list A) :
  (∀ r, q1 r = true → q2 r = true) → countIf q1 rows ≤ countIf q2 rows.
Proof.
  intros H. induction rows as [|r rows IH]; [done|].
  rewrite !countIf_cons. specialize (H r).
  destruct (q1 r), (q2 r); simpl; first [lia | by specialize (H eq_refl)].
Qed.

(** An update that leaves [q] as it was on the rows it touches. *)
Lemma countIf_sqlUpdate_same (q : A → bool) (p : A → bool) (f : A → A) (rows : list A) :
  (∀ r, r ∈ rows → p r = true → q (f r) = q r) →
  countIf q (sqlUpdate p f rows) = countIf q rows.
Proof.
  induction rows as [|r rows IH]; intros H; [done|].
  unfold sqlUpdate in *. simpl. rewrite !countIf_cons, IH.
  - destruct (p r) eqn:Hp; [|done]. rewrite H; [done|left|done].
  - intros r' Hr'. apply H. by right.
Qed.

(** An update of the one row that has the given id. *)
Lemma countIf_sqlUpdate_one (q : A → bool) (f : A → A) (id : Z) (rows : list A) (r : A) :
  NoDup (map rid rows) → r ∈ rows → rid r = id →
  countIf q (sqlUpdate (λ x, rid x =? id) f rows)
  = countIf q rows - Z.b2z (q r) + Z.b2z (q (f r)).
Proof.
  intros Hnd Hr Hid. induction rows as [|x rows IH]; [by apply elem_of_nil in Hr|].
  simpl in Hnd. apply NoDup_cons in Hnd as [Hx Hnd].
  unfold sqlUpdate in *. simpl. rewrite !countIf_cons.
  apply elem_of_cons in Hr as [->|Hr].
  - rewrite Hid, Z.eqb_refl.
    fold (sqlUpdate (λ x, rid x =? id) f rows).
    rewrite countIf_sqlUpdate_same; [lia|].
    intros r' Hr' Hp. apply Z.eqb_eq in Hp. exfalso. apply Hx.
    rewrite list_elem_of_In, in_map_iff. exists r'.
    rewrite <- list_elem_of_In. split; [congruence|done].
  - destruct (rid x =? id) eqn:Hp.
    + apply Z.eqb_eq in Hp. exfalso. apply Hx.
      rewrite list_elem_of_In, in_map_iff. exists r.
      rewrite <- list_elem_of_In. split; [congruence|done].
    + rewrite IH by done. lia.
Qed.

(** With unique ids, the row [stmt.get] finds by id is the only one. *)
Lemma NoDup_rid_inj (rows : list A) (r1 r2 : A) :
  NoDup (map rid rows) → r1 ∈ rows → r2 ∈ rows → rid r1 = rid r2 → r1 = r2.
Proof.
  induction rows as [|x rows IH]; intros Hnd H1 H2 Heq; [by apply elem_of_nil in H1|].
  simpl in Hnd. apply NoDup_cons in Hnd as [Hx Hnd].
  assert (Hin : ∀ r, r ∈ rows → rid r ∈ map rid rows).
  { intros r Hr. rewrite list_elem_of_In, in_map_iff. exists r.
    by rewrite <- list_elem_of_In. }
  apply elem_of_cons in H1 as [->|H1]; apply elem_of_cons in H2 as [->|H2]; auto.
  - exfalso. apply Hx. rewrite Heq. by apply Hin.
  - exfalso. apply Hx. rewrite <- Heq. by apply Hin.
Qed.
End Rows.

Lemma countIf_Permutation {A} (q : A → bool) (l1 l2 : list A) :
  l1 ≡ₚ l2 → countIf q l1 = countIf q l2.
Proof.
  intros H. induction H; rewrite ?countIf_cons; lia.
Qed.

Lemma countIf_filter {A} (p q : A → bool) (rows : list A) :
  countIf q (List.filter p rows) = countIf (λ r, p r && q r) rows.
Proof.
  induction rows as [|x rows IH]; simpl; [done|].
  rewrite countIf_cons. destruct (p x); simpl; rewrite ?countIf_cons; lia.
Qed.

(** ** The slides of the deliverable *)

(** The end of a run of a deck job of which not every slide has failed:
    the job is marked [assembling] and the call suspends in the assembly
    tool with the slides of [assembleSlides]. *)
Lemma pptxFinal_assembles jobId finalJob h :
  faults h = [] →
  Sql.getPptxJob jobId (db h) = Some finalJob →
  PptxJob.failed_slides finalJob ≠ PptxJob.total_slides finalJob →
  pptxFinal jobId h
  = (Ret (Some (PptxAwaitAssembly jobId finalJob
                  (assembleSlides (Sql.getPptxSlides jobId (db h))))),
     set_db (Sql.updatePptxJobStatus jobId assembling) h).
Proof.
  intros Hf Hget Hne. unfold pptxFinal, getPptxJob.
  rewrite bind_query_ok by done. rewrite Hget.
  replace (PptxJob.failed_slides finalJob =? PptxJob.total_slides finalJob) with false
    by (symmetry; by apply Z.eqb_neq).
  unfold updatePptxJobStatus. rewrite bind_exec_ok by done.
  unfold tryCatch, getPptxSlides. rewrite bind_query_ok by done. done.
Qed.

Lemma elem_of_getPptxSlides jobId d s :
  s ∈ Sql.getPptxSlides jobId d ↔ s ∈ pptx_slides d ∧ PptxSlide.job_id s = jobId.
Proof.
  unfold Sql.getPptxSlides. rewrite orderBy_elem, elem_of_List_filter, Z.eqb_eq. done.
Qed.

Lemma countIf_getPptxSlides jobId d q :
  countIf q (Sql.getPptxSlides jobId d)
  = countIf (λ s, (PptxSlide.job_id s =? jobId) && q s) (pptx_slides d).
Proof.
  unfold Sql.getPptxSlides.
  rewrite (countIf_Permutation q _ _ (orderBy_Permutation _ _)).
  apply countIf_filter.
Qed.

(** C10: when [processPptxJob] comes to the end of its loop, because no
    slide of the job is pending or because it finds the job cancelled, and
    not every slide of the job has failed, it hands the assembly tool a
    list of slides and waits for it, whatever slides are still pending. The
    list is sorted by slide number; it holds, for each [completed] slide of
    the job that has a beautified image, that image, and for each [failed]
    slide of the job its original image, and nothing else: slides that are
    [pending] or [processing] contribute nothing, so the deliverable has
    fewer slides than the deck by at least the number of pending ones. *)
Theorem assembly_uses_only_terminal_slides :
  ∀ jobId job finalJob h,
    faults h = [] →
    activeJobs h !! jobId ≠ Some true ∨ Sql.getNextPendingPptxSlide jobId (db h) = None →
    Sql.getPptxJob jobId (db h) = Some finalJob →
    PptxJob.failed_slides finalJob ≠ PptxJob.total_slides finalJob →
    let mine := λ s, PptxSlide.job_id s =? jobId in
    ∃ imgs h',
      processPptxJob_afterTimer jobId job h
      = (Ret (Some (PptxAwaitAssembly jobId finalJob imgs)), h') ∧
      pptx_slides (db h') = pptx_slides (db h) ∧
      StronglySorted (keyLe slideNumber) imgs ∧
      (∀ img, img ∈ imgs ↔
         ∃ s, s ∈ pptx_slides (db h) ∧ PptxSlide.job_id s = jobId ∧
           slideNumber img = PptxSlide.slide_number s ∧
           ((PptxSlide.status s = completed ∧
             PptxSlide.beautified_image s = Some (imageData img) ∧
             imageData img ≠ "") ∨
            (PptxSlide.status s = failed ∧
             imageData img = PptxSlide.original_image s))) ∧
      Z.of_nat (length imgs)
      = countIf (λ s, mine s && bool_decide (PptxSlide.status s = completed)
                      && truthy (PptxSlide.beautified_image s)) (pptx_slides (db h))
        + countIf (λ s, mine s && bool_decide (PptxSlide.status s = failed))
            (pptx_slides (db h)) ∧
      Z.of_nat (length imgs)
      + countIf (λ s, mine s && bool_decide (PptxSlide.status s = pending))
          (pptx_slides (db h))
      ≤ countIf mine (pptx_slides (db h)).
Proof.
  intros jobId job finalJob h Hf Hend Hget Hne mine.
  set (slides := Sql.getPptxSlides jobId (db h)).
  assert (Hrun : processPptxJob_afterTimer jobId job h
                 = (Ret (Some (PptxAwaitAssembly jobId finalJob (assembleSlides slides))),
                    set_db (Sql.updatePptxJobStatus jobId assembling) h)).
  { unfold processPptxJob_afterTimer, tryFinally, getNextPendingPptxSlide.
    rewrite bind_query_ok by done.
    assert (Hwhile : pptxWhile jobId job (Sql.getNextPendingPptxSlide jobId (db h)) h
                     = pptxFinal jobId h).
    { unfold pptxWhile.
      destruct (Sql.getNextPendingPptxSlide jobId (db h)) as [slide|] eqn:Hnext; [|done].
      destruct Hend as [Hflag|Hnone]; [|done].
      unfold bind at 1, gets.
      destruct (activeJobs h !! jobId) as [[]|]; done. }
    rewrite Hwhile, (pptxFinal_assembles jobId finalJob h) by done. done. }
  exists (assembleSlides slides), (set_db (Sql.updatePptxJobStatus jobId assembling) h).
  assert (Hlen : Z.of_nat (length (assembleSlides slides))
                 = countIf (λ s, bool_decide (PptxSlide.status s = completed)
                                 && truthy (PptxSlide.beautified_image s)) slides
                   + countIf (λ s, bool_decide (PptxSlide.status s = failed)) slides).
  { rewrite assembleSlides_perm, length_app, !length_map. unfold countIf. lia. }
  split_and!.
  - exact Hrun.
  - done.
  - unfold assembleSlides. apply stableSort_sorted.
  - intros img. rewrite assembleSlides_perm, elem_of_app.
    rewrite !list_elem_of_In, !in_map_iff. split.
    + intros [(s & <- & Hs)|(s & <- & Hs)];
        rewrite <- list_elem_of_In in Hs; apply elem_of_List_filter in Hs as [Hs Hp];
        apply elem_of_getPptxSlides in Hs as [Hs Hjob].
      * apply andb_true_iff in Hp as [Hc Hb].
        apply bool_decide_eq_true in Hc.
        apply truthy_Some in Hb as (v & Hv & Hv').
        exists s. rewrite Hv. simpl. split_and!; [done..|]. left. done.
      * apply bool_decide_eq_true in Hp.
        exists s. simpl. split_and!; [done..|]. right. done.
    + intros (s & Hs & Hjob & Hn & [(Hc & Hb & Hv)|(Hfl & Ho)]).
      * left. exists s. split.
        -- rewrite Hb. simpl. destruct img; simpl in *. by subst.
        -- rewrite <- list_elem_of_In. apply elem_of_List_filter. split.
           ++ by apply elem_of_getPptxSlides.
           ++ rewrite Hc, Hb. simpl. destruct (imageData img); done.
      * right. exists s. split.
        -- destruct img; simpl in *. by subst.
        -- rewrite <- list_elem_of_In. apply elem_of_List_filter. split.
           ++ by apply elem_of_getPptxSlides.
           ++ by rewrite Hfl.
  - rewrite Hlen. unfold slides. rewrite !countIf_getPptxSlides.
    f_equal. unfold countIf. f_equal. f_equal. apply List.filter_ext.
    intros s. by rewrite andb_assoc.
  - rewrite Hlen. unfold slides. rewrite !countIf_getPptxSlides.
    generalize (pptx_slides (db h)). intros rows.
    induction rows as [|s rows IH]; [done|]. rewrite !countIf_cons.
    destruct (mine s) eqn:Hm; unfold mine in Hm; rewrite Hm; simpl; [|lia].
    destruct (PptxSlide.status s); simpl;
      try destruct (truthy (PptxSlide.beautified_image s)); simpl; lia.
Qed.



Lemma slotsFrom_insert ps pid0 x : slotsFrom ps (<[pid0 := x]> ps) pid0 x.
Proof.
  intros j y H. apply list_lookup_insert_Some in H as [(-> & -> & _)|[Hne H]]; auto.
Qed.

Lemma slotsFrom_snoc ps x : slotsFrom ps (ps ++ [x]) (length ps) x.
Proof.
  intros j y H. apply lookup_app_Some in H as [H|[Hle H]].
  - right. split; [|done]. apply lookup_lt_Some in H. lia.
  - left. destruct (j - length ps)%nat eqn:E; simpl in H; [|done].
    injection H as <-. split; [lia|done].
Qed.

Lemma slotsFrom_same ps x : slotsFrom ps ps (length ps) x.
Proof.
  intros j y H. right. split; [|done]. apply lookup_lt_Some in H. lia.
Qed.


Lemma sqlUpdate_id {A} (p : A → bool) (rows : list A) :
  sqlUpdate p (λ r, r) rows = rows.
Proof.
  unfold sqlUpdate. rewrite <- (map_id rows) at 2. apply map_ext.
  intros r. by destruct (p r).
Qed.



Lemma forEach_exec_ok {A} (f : A → DB → DB) (xs : list A) h :
  faults h = [] →
  forEach xs (λ x, exec (f x)) h
  = (Ret tt, set_db (λ d, fold_left (λ d x, f x d) xs d) h).
Proof.
  revert h. induction xs as [|x xs IH]; intros h Hf; simpl.
  - unfold ret. by destruct h.
  - unfold bind. rewrite exec_ok by done. rewrite IH by done. done.
Qed.


(** ** The job tables under updates and inserts *)

Section Tables.
Context {J T : Type} (S : Schema J T).

Lemma counted_ext (tasks : list T) (j j' : J) :
  job_id S j' = job_id S j → job_total S j' = job_total S j →
  job_completed S j' = job_completed S j → job_failed S j' = job_failed S j →
  counted S tasks j → counted S tasks j'.
Proof. unfold counted. intros -> -> -> ->. done. Qed.

(** An update of job rows that leaves ids and counters alone. *)
Lemma tables_job_update (p : J → bool) (g : J → J) jobs tasks seqJ seqT :
  (∀ j, job_id S (g j) = job_id S j ∧ job_total S (g j) = job_total S j ∧
        job_completed S (g j) = job_completed S j ∧
        job_failed S (g j) = job_failed S j) →
  TablesInv S jobs tasks seqJ seqT →
  TablesInv S (sqlUpdate p g jobs) tasks seqJ seqT.
Proof.
  intros Hg [Hnd Hseq Hjseq Hcnt Hcons]. constructor; try done.
  - intros j' Hj'. apply elem_of_sqlUpdate in Hj' as (j & Hj & ->).
    specialize (Hjseq j Hj). destruct (Hg j) as (Hid & _).
    destruct (p j); [by rewrite Hid|done].
  - intros j' Hj'. apply elem_of_sqlUpdate in Hj' as (j & Hj & ->).
    specialize (Hcnt j Hj). destruct (Hg j) as (Hid & Ht & Hc & Hf).
    destruct (p j); [|done]. by eapply counted_ext; [..|exact Hcnt].
Qed.

(** One task row rewritten by [f], the counters of its job by [g]. *)
Lemma tables_task_update (tid0 jid0 : Z) (f : T → T) (g : J → J) (row : T)
    jobs tasks seqJ seqT :
  TablesInv S jobs tasks seqJ seqT →
  row ∈ tasks → task_id S row = tid0 → task_job S row = jid0 →
  task_id S (f row) = tid0 → task_job S (f row) = jid0 →
  consistent S (f row) →
  (∀ j, job_id S (g j) = job_id S j ∧ job_total S (g j) = job_total S j ∧
        job_completed S (g j) = job_completed S j
          - Z.b2z (isTerminalStatus (task_status S row))
          + Z.b2z (isTerminalStatus (task_status S (f row))) ∧
        job_failed S (g j) = job_failed S j
          - Z.b2z (bool_decide (task_status S row = failed))
          + Z.b2z (bool_decide (task_status S (f row) = failed))) →
  TablesInv S (sqlUpdate (λ j, job_id S j =? jid0) g jobs)
    (sqlUpdate (λ t, task_id S t =? tid0) f tasks) seqJ seqT.
Proof.
  intros [Hnd Hseq Hjseq Hcnt Hcons] Hrow Hid Hjid Hfid Hfjid Hfcons Hg.
  assert (Hother : ∀ t, t ∈ tasks → (task_id S t =? tid0) = true → t = row).
  { intros t Ht Hp. apply Z.eqb_eq in Hp.
    eapply (NoDup_rid_inj (task_id S)); eauto. congruence. }
  constructor.
  - rewrite (sqlUpdate_ids (task_id S)); [done|].
    intros r Hr Hp. rewrite (Hother r Hr Hp). congruence.
  - intros t' Ht'. apply elem_of_sqlUpdate in Ht' as (t & Ht & ->).
    destruct (task_id S t =? tid0) eqn:Hp; [|by apply Hseq].
    rewrite (Hother t Ht Hp). rewrite Hfid, Hfjid, <- Hid, <- Hjid. by apply Hseq.
  - intros j' Hj'. apply elem_of_sqlUpdate in Hj' as (j & Hj & ->).
    specialize (Hjseq j Hj). destruct (Hg j) as (Hgid & _).
    destruct (job_id S j =? jid0); [by rewrite Hgid|done].
  - intros j' Hj'. apply elem_of_sqlUpdate in Hj' as (j & Hj & ->).
    destruct (Hcnt j Hj) as (Ht & Hc & Hf).
    destruct (Hg j) as (Hgid & Hgt & Hgc & Hgf).
    unfold counted.
    assert (Hcount : ∀ q, countIf q (sqlUpdate (λ t, task_id S t =? tid0) f tasks)
                          = countIf q tasks - Z.b2z (q row) + Z.b2z (q (f row))).
    { intros q. by apply (countIf_sqlUpdate_one (task_id S)). }
    destruct (job_id S j =? jid0) eqn:Hj'.
    + apply Z.eqb_eq in Hj'. rewrite !Hcount, Hgid, Hgt, Hgc, Hgf, Ht, Hc, Hf.
      rewrite Hfjid, Hjid, Hj', Z.eqb_refl. simpl. split_and!; lia.
    + rewrite !Hcount, Hfjid, Hjid, (Z.eqb_sym jid0), Hj'. simpl.
      rewrite <- Ht, <- Hc, <- Hf. split_and!; lia.
  - intros t' Ht'. apply elem_of_sqlUpdate in Ht' as (t & Ht & ->).
    destruct (task_id S t =? tid0) eqn:Hp; [|by apply Hcons].
    by rewrite (Hother t Ht Hp).
Qed.

(** One task row rewritten without a change of what the counters count. *)
Lemma tables_task_touch (tid0 : Z) (f : T → T) (row : T) jobs tasks seqJ seqT :
  TablesInv S jobs tasks seqJ seqT →
  row ∈ tasks → task_id S row = tid0 →
  task_id S (f row) = tid0 → task_job S (f row) = task_job S row →
  consistent S (f row) →
  isTerminalStatus (task_status S (f row)) = isTerminalStatus (task_status S row) →
  bool_decide (task_status S (f row) = failed)
    = bool_decide (task_status S row = failed) →
  TablesInv S jobs (sqlUpdate (λ t, task_id S t =? tid0) f tasks) seqJ seqT.
Proof.
  intros Hinv Hrow Hid Hfid Hfjid Hfcons Hterm Hfail.
  rewrite <- (sqlUpdate_id (λ j, job_id S j =? task_job S row) jobs).
  eapply tables_task_update; eauto.
  intros j. rewrite Hterm, Hfail. split_and!; lia.
Qed.

(** A new job with its pending tasks. *)
Lemma tables_insert (job : J) (new : list T) jobs tasks seqJ seqT :
  TablesInv S jobs tasks seqJ seqT →
  job_id S job = seqJ + 1 →
  job_total S job = Z.of_nat (length new) →
  job_completed S job = 0 → job_failed S job = 0 →
  NoDup (map (task_id S) new) →
  (∀ t, t ∈ new →
     seqT < task_id S t ≤ seqT + Z.of_nat (length new) ∧
     task_job S t = seqJ + 1 ∧ task_status S t = pending ∧
     task_output S t = None ∧ task_error S t = None) →
  TablesInv S (jobs ++ [job]) (tasks ++ new)
    (seqJ + 1) (seqT + Z.of_nat (length new)).
Proof.
  intros [Hnd Hseq Hjseq Hcnt Hcons] Hjid Htot Hcomp Hfail Hndnew Hnew.
  constructor.
  - rewrite map_app. apply NoDup_app. split_and!; [done| |done].
    intros i. rewrite !list_elem_of_In, !in_map_iff.
    intros (r & <- & Hr) (r' & Heq & Hr'). rewrite <- list_elem_of_In in Hr, Hr'.
    apply Hseq in Hr. apply Hnew in Hr'. lia.
  - intros t Ht. apply elem_of_app in Ht as [Ht|Ht].
    + apply Hseq in Ht. lia.
    + apply Hnew in Ht. lia.
  - intros j Hj. apply elem_of_app in Hj as [Hj|Hj].
    + apply Hjseq in Hj. lia.
    + apply list_elem_of_singleton in Hj as ->. lia.
  - intros j Hj. unfold counted. rewrite !countIf_app.
    apply elem_of_app in Hj as [Hj|Hj].
    + destruct (Hcnt j Hj) as (Ht & Hc & Hf). specialize (Hjseq j Hj).
      rewrite !(countIf_none _ new); [lia|..]; intros r Hr;
        apply Hnew in Hr as (_ & -> & _);
        replace (seqJ + 1 =? job_id S j) with false; try done;
        symmetry; apply Z.eqb_neq; lia.
    + apply list_elem_of_singleton in Hj as ->.
      rewrite !(countIf_none _ tasks).
      * rewrite (countIf_all _ new), !(countIf_none _ new).
        -- split_and!; lia.
        -- intros r Hr. apply Hnew in Hr as (_ & _ & -> & _).
           by rewrite andb_false_r.
        -- intros r Hr. apply Hnew in Hr as (_ & _ & -> & _).
           by rewrite andb_false_r.
        -- intros r Hr. apply Hnew in Hr as (_ & -> & _).
           rewrite Hjid. apply Z.eqb_refl.
      * intros r Hr. apply Hseq in Hr.
        replace (task_job S r =? job_id S job) with false; [done|].
        symmetry. apply Z.eqb_neq. lia.
      * intros r Hr. apply Hseq in Hr.
        replace (task_job S r =? job_id S job) with false; [done|].
        symmetry. apply Z.eqb_neq. lia.
      * intros r Hr. apply Hseq in Hr.
        replace (task_job S r =? job_id S job) with false; [done|].
        symmetry. apply Z.eqb_neq. lia.
  - intros t Ht. apply elem_of_app in Ht as [Ht|Ht]; [by apply Hcons|].
    apply Hnew in Ht as (_ & _ & Hst & Hout & Herr).
    unfold consistent. rewrite Hst, Hout, Herr. split; split; intros; done.
Qed.

(** *** The suspended calls *)

Context (inFlight : option Susp → option (Z * Z)).

Lemma procs_slots tasks ps ps' pid0 x :
  ProcsInv S inFlight tasks ps → slotsFrom ps ps' pid0 x → inFlight x = None →
  ProcsInv S inFlight tasks ps'.
Proof.
  intros [Hrow Hinj] Hs Hx. constructor.
  - intros pid k j i Hk Hfl. apply Hs in Hk as [[-> ->]|[_ Hk]]; [congruence|].
    by eapply Hrow.
  - intros pid1 pid2 k1 k2 j1 j2 i H1 H2 F1 F2.
    apply Hs in H1 as [[-> ->]|[_ H1]]; [congruence|].
    apply Hs in H2 as [[-> ->]|[_ H2]]; [congruence|].
    by eapply Hinj.
Qed.

Lemma procs_more_tasks tasks new ps :
  ProcsInv S inFlight tasks ps → ProcsInv S inFlight (tasks ++ new) ps.
Proof.
  intros [Hrow Hinj]. constructor; [|done].
  intros pid k j i Hk Hfl. destruct (Hrow pid k j i Hk Hfl) as (row & Hr & H').
  exists row. split; [|done]. apply elem_of_app. by left.
Qed.

(** One task row is rewritten; the slots kept are not in flight on it, and
    the new slot, if in flight, is in flight on it. *)
Lemma procs_update tasks ps ps' pid0 x tid0 f :
  NoDup (map (task_id S) tasks) →
  ProcsInv S inFlight tasks ps →
  slotsFrom ps ps' pid0 x →
  (∀ n k j, n ≠ pid0 → ps !! n = Some k → inFlight k ≠ Some (j, tid0)) →
  (∀ j i, inFlight x = Some (j, i) →
     i = tid0 ∧ ∃ row, row ∈ tasks ∧ task_id S row = tid0 ∧
       task_id S (f row) = tid0 ∧ task_job S (f row) = j ∧
       task_status S (f row) = processing) →
  ProcsInv S inFlight (sqlUpdate (λ t, task_id S t =? tid0) f tasks) ps'.
Proof.
  intros Hnd [Hrow Hinj] Hs Hkept Hnew. constructor.
  - intros pid k j i Hk Hfl. apply Hs in Hk as [[-> ->]|[Hne Hk]].
    + destruct (Hnew j i Hfl) as (-> & row & Hr & Hid & Hfid & Hfj & Hfs).
      exists (f row). split_and!; try done.
      apply elem_of_sqlUpdate. exists row. by rewrite Hid, Z.eqb_refl.
    + destruct (Hrow pid k j i Hk Hfl) as (row & Hr & Hid & Hj & Hst).
      exists row. split_and!; try done.
      apply elem_of_sqlUpdate. exists row. split; [done|].
      destruct (task_id S row =? tid0) eqn:E; [|done].
      apply Z.eqb_eq in E. exfalso. apply (Hkept pid k j Hne Hk).
      rewrite Hfl. congruence.
  - intros pid1 pid2 k1 k2 j1 j2 i H1 H2 F1 F2.
    apply Hs in H1 as [[-> ->]|[Hne1 H1]]; apply Hs in H2 as [[-> ->]|[Hne2 H2]].
    + done.
    + destruct (Hnew _ _ F1) as (-> & _). exfalso. by apply (Hkept pid2 k2 j2 Hne2 H2).
    + destruct (Hnew _ _ F2) as (-> & _). exfalso. by apply (Hkept pid1 k1 j1 Hne1 H1).
    + by eapply Hinj.
Qed.

(** No call is in flight on a row that is not [processing]. *)
Lemma not_in_flight tasks ps row n k j :
  NoDup (map (task_id S) tasks) → ProcsInv S inFlight tasks ps →
  row ∈ tasks → task_status S row ≠ processing →
  ps !! n = Some k → inFlight k ≠ Some (j, task_id S row).
Proof.
  intros Hnd [Hrow _] Hr Hst Hk Hfl.
  destruct (Hrow n k j _ Hk Hfl) as (row' & Hr' & Hid & _ & Hst').
  assert (row' = row) as -> by (eapply (NoDup_rid_inj (task_id S)); eauto).
  done.
Qed.

(** A task row no call is in flight on is rewritten. *)
Lemma procs_idle_update tasks ps tid0 f :
  ProcsInv S inFlight tasks ps →
  (∀ n k j, ps !! n = Some k → inFlight k ≠ Some (j, tid0)) →
  ProcsInv S inFlight (sqlUpdate (λ t, task_id S t =? tid0) f tasks) ps.
Proof.
  intros [Hrow Hinj] Hidle. constructor; [|done].
  intros pid k j i Hk Hfl.
  destruct (Hrow pid k j i Hk Hfl) as (row & Hr & Hid & Hj & Hst).
  exists row. split_and!; try done.
  apply elem_of_sqlUpdate. exists row. split; [done|].
  destruct (task_id S row =? tid0) eqn:E; [|done].
  apply Z.eqb_eq in E. exfalso. apply (Hidle pid k j Hk). rewrite Hfl. congruence.
Qed.

(** *** The three ways the engine rewrites a task row *)

(** A pending task starts: its row becomes [processing], the call [x] is in
    flight on it. *)
Lemma engine_start tasks jobs seqJ seqT ps ps' pid0 x (f : T → T) (row : T) :
  TablesInv S jobs tasks seqJ seqT → ProcsInv S inFlight tasks ps →
  row ∈ tasks → task_status S row = pending →
  slotsFrom ps ps' pid0 x →
  inFlight x = Some (task_job S row, task_id S row) →
  task_id S (f row) = task_id S row → task_job S (f row) = task_job S row →
  task_status S (f row) = processing →
  task_output S (f row) = None → task_error S (f row) = None →
  TablesInv S jobs (sqlUpdate (λ t, task_id S t =? task_id S row) f tasks) seqJ seqT ∧
  ProcsInv S inFlight (sqlUpdate (λ t, task_id S t =? task_id S row) f tasks) ps'.
Proof.
  intros Ht Hp Hin Hst Hs Hx Hfid Hfj Hfst Hfout Hferr. split.
  - eapply tables_task_touch; eauto.
    + unfold consistent. rewrite Hfst, Hfout, Hferr. split; split; intros; done.
    + by rewrite Hfst, Hst.
    + by rewrite Hfst, Hst.
  - eapply procs_update; eauto using ti_nodup.
    + intros n k j _ Hk. eapply not_in_flight; eauto using ti_nodup.
      by rewrite Hst.
    + intros j i. rewrite Hx. intros [= <- <-]. split; [done|].
      exists row. by split_and!.
Qed.

(** The task in flight at [pid0] ends: its row becomes [status], the
    counters of its job go up. *)
Lemma engine_finish tasks jobs seqJ seqT ps ps' pid0 k x jid0 tid0
    (f : T → T) (g : J → J) (status : Status) :
  TablesInv S jobs tasks seqJ seqT → ProcsInv S inFlight tasks ps →
  ps !! pid0 = Some k → inFlight k = Some (jid0, tid0) →
  slotsFrom ps ps' pid0 x → inFlight x = None →
  isTerminalStatus status = true →
  (∀ t, task_id S (f t) = task_id S t ∧ task_job S (f t) = task_job S t ∧
        task_status S (f t) = status ∧ consistent S (f t)) →
  (∀ j, job_id S (g j) = job_id S j ∧ job_total S (g j) = job_total S j ∧
        job_completed S (g j) = job_completed S j + 1 ∧
        job_failed S (g j) = job_failed S j + Z.b2z (bool_decide (status = failed))) →
  TablesInv S (sqlUpdate (λ j, job_id S j =? jid0) g jobs)
    (sqlUpdate (λ t, task_id S t =? tid0) f tasks) seqJ seqT ∧
  ProcsInv S inFlight (sqlUpdate (λ t, task_id S t =? tid0) f tasks) ps'.
Proof.
  intros Ht Hp Hpid Hfl Hs Hx Hterm Hf Hg.
  destruct (pi_row _ _ _ _ Hp pid0 k jid0 tid0 Hpid Hfl) as (row & Hin & Hid & Hj & Hst).
  destruct (Hf row) as (Hfid & Hfj & Hfst & Hfcons).
  split.
  - eapply tables_task_update; eauto; [congruence..|].
    intros j. destruct (Hg j) as (? & ? & ? & ?).
    rewrite Hst, Hfst, Hterm. simpl. split_and!; lia.
  - eapply procs_update; eauto using ti_nodup.
    + intros n k' j Hne Hk Hfl'. apply Hne.
      by eapply (pi_inj _ _ _ _ Hp n pid0).
    + intros j i. by rewrite Hx.
Qed.

(** A failed task is reset: its row becomes [pending], the counters of its
    job go down. *)
Lemma engine_reset tasks jobs seqJ seqT ps (f : T → T) (g : J → J) (row : T) :
  TablesInv S jobs tasks seqJ seqT → ProcsInv S inFlight tasks ps →
  row ∈ tasks → task_status S row = failed →
  task_id S (f row) = task_id S row → task_job S (f row) = task_job S row →
  task_status S (f row) = pending →
  task_output S (f row) = None → task_error S (f row) = None →
  (∀ j, job_id S (g j) = job_id S j ∧ job_total S (g j) = job_total S j ∧
        job_completed S (g j) = job_completed S j - 1 ∧
        job_failed S (g j) = job_failed S j - 1) →
  TablesInv S (sqlUpdate (λ j, job_id S j =? task_job S row) g jobs)
    (sqlUpdate (λ t, task_id S t =? task_id S row) f tasks) seqJ seqT ∧
  ProcsInv S inFlight (sqlUpdate (λ t, task_id S t =? task_id S row) f tasks) ps.
Proof.
  intros Ht Hp Hin Hst Hfid Hfj Hfst Hfout Hferr Hg. split.
  - eapply tables_task_update; eauto.
    + unfold consistent. rewrite Hfst, Hfout, Hferr. split; split; intros; done.
    + intros j. destruct (Hg j) as (? & ? & ? & ?).
      rewrite Hst, Hfst. simpl. split_and!; lia.
  - apply procs_idle_update; [done|].
    intros n k j Hk. eapply not_in_flight; eauto using ti_nodup.
    by rewrite Hst.
Qed.

(** A new job with its pending tasks. *)
Lemma engine_insert (job : J) (new : list T) jobs tasks seqJ seqT ps :
  TablesInv S jobs tasks seqJ seqT → ProcsInv S inFlight tasks ps →
  job_id S job = seqJ + 1 →
  job_total S job = Z.of_nat (length new) →
  job_completed S job = 0 → job_failed S job = 0 →
  NoDup (map (task_id S) new) →
  (∀ t, t ∈ new →
     seqT < task_id S t ≤ seqT + Z.of_nat (length new) ∧
     task_job S t = seqJ + 1 ∧ task_status S t = pending ∧
     task_output S t = None ∧ task_error S t = None) →
  TablesInv S (jobs ++ [job]) (tasks ++ new)
    (seqJ + 1) (seqT + Z.of_nat (length new)) ∧
  ProcsInv S inFlight (tasks ++ new) ps.
Proof.
  intros Ht Hp. split; [by apply tables_insert|by apply procs_more_tasks].
Qed.
End Tables.

(** ** The batch tables under each statement *)

Lemma next_pending_batch_item bid d item :
  Sql.getNextPendingBatchItem bid d = Some item →
  item ∈ batch_items d ∧ BatchItem.batch_id item = bid ∧ BatchItem.status item = pending.
Proof.
  intros H. apply sqlFirstBy_Some in H as (Hin & Hp & _).
  apply andb_true_iff in Hp as [Hb Hs].
  apply Z.eqb_eq in Hb. by apply bool_decide_eq_true in Hs.
Qed.

(** The loop marks the next pending item [processing] and suspends on it. *)
Lemma inv_mark_processing d ps ps' pid0 bid batch item t g :
  BatchInv d ps →
  Sql.getNextPendingBatchItem bid d = Some item →
  slotsFrom ps ps' pid0 (Some (BatchAwaitGenerate bid batch item t g)) →
  BatchInv (Sql.updateBatchItemStatus (BatchItem.id item) processing None d) ps'.
Proof.
  intros [Ht Hp] Hnext Hs.
  apply next_pending_batch_item in Hnext as (Hin & Hb & Hst).
  eapply (engine_start batchSchema itemInFlight); eauto.
  simpl. by rewrite Hb.
Qed.

(** The call resumed with the Gateway's answer records it and counts it. *)
Lemma inv_run_item d ps ps' pid0 x bid batch item t g status result :
  BatchInv d ps →
  ps !! pid0 = Some (Some (BatchAwaitGenerate bid batch item t g)) →
  slotsFrom ps ps' pid0 x → itemInFlight x = None →
  isTerminalStatus status = true →
  (orNull (result ≫= Sql.generatedImage) ≠ None ↔ status = completed) →
  (orNull (result ≫= Sql.error) ≠ None ↔ status = failed) →
  BatchInv
    (Sql.incrementBatchCompleted bid (bool_decide (status = failed))
       (Sql.updateBatchItemStatus (BatchItem.id item) status result d)) ps'.
Proof.
  intros [Ht Hp] Hpid Hs Hx Hterm Himg Herr.
  unfold BatchInv, Sql.incrementBatchCompleted.
  destruct (bool_decide (status = failed)) eqn:Hfailed; simpl;
    (eapply (engine_finish batchSchema itemInFlight); eauto; [done|];
     intros b; rewrite Hfailed; simpl; split_and!; lia).
Qed.

Lemma inv_run_item_completed d ps ps' pid0 x bid batch item t g img mime pt :
  BatchInv d ps →
  ps !! pid0 = Some (Some (BatchAwaitGenerate bid batch item t g)) →
  slotsFrom ps ps' pid0 x → itemInFlight x = None →
  truthy img = true →
  BatchInv
    (Sql.incrementBatchCompleted bid false
       (Sql.updateBatchItemStatus (BatchItem.id item) completed
          (Some (Sql.mkItemResult img mime None pt)) d)) ps'.
Proof.
  intros Hi Hpid Hs Hx Himg.
  apply (inv_run_item d ps ps' pid0 x bid batch item t g completed
           (Some (Sql.mkItemResult img mime None pt))); try done; simpl.
  unfold orNull. rewrite Himg. destruct img; done.
Qed.

Lemma inv_run_item_failed d ps ps' pid0 x bid batch item t g msg pt :
  BatchInv d ps →
  ps !! pid0 = Some (Some (BatchAwaitGenerate bid batch item t g)) →
  slotsFrom ps ps' pid0 x → itemInFlight x = None →
  truthy (Some msg) = true →
  BatchInv
    (Sql.incrementBatchCompleted bid true
       (Sql.updateBatchItemStatus (BatchItem.id item) failed
          (Some (Sql.mkItemResult None None (Some msg) pt)) d)) ps'.
Proof.
  intros Hi Hpid Hs Hx Hmsg.
  apply (inv_run_item d ps ps' pid0 x bid batch item t g failed
           (Some (Sql.mkItemResult None None (Some msg) pt))); try done; simpl.
  unfold orNull. rewrite Hmsg. done.
Qed.

(** The retry route resets a failed item and takes it off the counters. *)
Lemma inv_retry d ps bid iid item :
  BatchInv d ps →
  Sql.getBatchItem iid d = Some item →
  BatchItem.batch_id item = bid → BatchItem.status item = failed →
  BatchInv (Sql.decrementBatchFailed bid (Sql.resetBatchItem iid d)) ps.
Proof.
  intros [Ht Hp] Hget Hb Hst.
  apply sqlGet_Some in Hget as [Hin Hid]. apply Z.eqb_eq in Hid. subst bid iid.
  by eapply (engine_reset batchSchema itemInFlight).
Qed.

Lemma inv_updateBatchStatus d ps id status :
  BatchInv d ps → BatchInv (Sql.updateBatchStatus id status d) ps.
Proof.
  intros [Ht Hp]. split; [|done].
  by apply (tables_job_update batchSchema).
Qed.

Lemma inv_slots d ps ps' pid0 x :
  BatchInv d ps → slotsFrom ps ps' pid0 x → itemInFlight x = None → BatchInv d ps'.
Proof. intros [Ht Hp] Hs Hx. split; [done|]. by eapply procs_slots. Qed.

Lemma createBatch_ok input h :
  faults h = [] →
  createBatch input h
  = (Ret (seq_batches (db h) + 1), set_db (createBatchRows input) h).
Proof.
  intros Hf. unfold createBatch, bind. rewrite stmt_ok by done.
  rewrite forEach_exec_ok by done. done.
Qed.

Lemma insertBatchItems_eq bid items d :
  insertBatchItems bid items d
  = mkDB (batches d) (batch_items d ++ newItemRows bid (seq_batch_items d) items)
      (pptx_jobs d) (pptx_slides d) (seq_batches d)
      (seq_batch_items d + Z.of_nat (length items))
      (seq_pptx_jobs d) (seq_pptx_slides d).
Proof.
  unfold insertBatchItems. revert d.
  induction items as [|item items IH]; intros d; simpl.
  - destruct d. simpl. by rewrite app_nil_r, Z.add_0_r.
  - rewrite IH. simpl. rewrite <- app_assoc. simpl. f_equal. lia.
Qed.

Lemma newItemRows_spec bid seq items r :
  r ∈ newItemRows bid seq items →
  seq < BatchItem.id r ≤ seq + Z.of_nat (length items) ∧
  BatchItem.batch_id r = bid ∧ BatchItem.status r = pending ∧
  BatchItem.generated_image r = None ∧ BatchItem.error r = None.
Proof.
  revert seq. induction items as [|item items IH]; intros seq H; simpl in *.
  - by apply elem_of_nil in H.
  - apply elem_of_cons in H as [->|H]; simpl.
    + split_and!; try done; lia.
    + apply IH in H as (H1 & H2). split; [lia|done].
Qed.

Lemma newItemRows_length bid seq items :
  length (newItemRows bid seq items) = length items.
Proof. revert seq. induction items; intros seq; simpl; auto. Qed.

Lemma newItemRows_NoDup bid seq items :
  NoDup (map BatchItem.id (newItemRows bid seq items)).
Proof.
  revert seq. induction items as [|item items IH]; intros seq; simpl.
  - constructor.
  - apply NoDup_cons. split; [|apply IH].
    rewrite list_elem_of_In, in_map_iff. intros (r & Hid & Hr).
    rewrite <- list_elem_of_In in Hr. apply newItemRows_spec in Hr. lia.
Qed.

Lemma inv_createBatch input d ps :
  BatchInv d ps → BatchInv (createBatchRows input d) ps.
Proof.
  intros [Ht Hp]. unfold BatchInv, createBatchRows.
  rewrite insertBatchItems_eq. simpl.
  rewrite <- (newItemRows_length (seq_batches d + 1) (seq_batch_items d)
                (cb_items input)).
  apply (engine_insert batchSchema itemInFlight); try done; simpl.
  - apply newItemRows_NoDup.
  - intros r Hr. rewrite newItemRows_length. by apply newItemRows_spec.
Qed.

(** ** The deck tables under each statement *)

Lemma next_pending_pptx_slide jid d slide :
  Sql.getNextPendingPptxSlide jid d = Some slide →
  slide ∈ pptx_slides d ∧ PptxSlide.job_id slide = jid ∧ PptxSlide.status slide = pending.
Proof.
  intros H. apply sqlFirstBy_Some in H as (Hin & Hp & _).
  apply andb_true_iff in Hp as [Hj Hs].
  apply Z.eqb_eq in Hj. by apply bool_decide_eq_true in Hs.
Qed.

(** The loop marks the next pending slide [processing] and suspends on it. *)
Lemma inv_mark_slide_processing d ps ps' pid0 jid job slide t g :
  PptxInv d ps →
  Sql.getNextPendingPptxSlide jid d = Some slide →
  slotsFrom ps ps' pid0 (Some (PptxAwaitGenerate jid job slide t g)) →
  PptxInv (Sql.updatePptxSlideStatus (PptxSlide.id slide) processing None d) ps'.
Proof.
  intros [Ht Hp] Hnext Hs.
  apply next_pending_pptx_slide in Hnext as (Hin & Hj & Hst).
  eapply (engine_start pptxSchema slideInFlight); eauto.
  simpl. by rewrite Hj.
Qed.

(** The call resumed with the Gateway's answer records it and counts it. *)
Lemma inv_run_slide d ps ps' pid0 x jid job slide t g status result :
  PptxInv d ps →
  ps !! pid0 = Some (Some (PptxAwaitGenerate jid job slide t g)) →
  slotsFrom ps ps' pid0 x → slideInFlight x = None →
  isTerminalStatus status = true →
  (orNull (result ≫= Sql.beautifiedImage) ≠ None ↔ status = completed) →
  (orNull (result ≫= Sql.slideError) ≠ None ↔ status = failed) →
  PptxInv
    (Sql.incrementPptxCompleted jid (bool_decide (status = failed))
       (Sql.updatePptxSlideStatus (PptxSlide.id slide) status result d)) ps'.
Proof.
  intros [Ht Hp] Hpid Hs Hx Hterm Himg Herr.
  unfold PptxInv, Sql.incrementPptxCompleted.
  destruct (bool_decide (status = failed)) eqn:Hfailed; simpl;
    (eapply (engine_finish pptxSchema slideInFlight); eauto; [done|];
     intros j; rewrite Hfailed; simpl; split_and!; lia).
Qed.

Lemma inv_run_slide_completed d ps ps' pid0 x jid job slide t g img pt :
  PptxInv d ps →
  ps !! pid0 = Some (Some (PptxAwaitGenerate jid job slide t g)) →
  slotsFrom ps ps' pid0 x → slideInFlight x = None →
  truthy img = true →
  PptxInv
    (Sql.incrementPptxCompleted jid false
       (Sql.updatePptxSlideStatus (PptxSlide.id slide) completed
          (Some (Sql.mkSlideResult img None pt)) d)) ps'.
Proof.
  intros Hi Hpid Hs Hx Himg.
  apply (inv_run_slide d ps ps' pid0 x jid job slide t g completed
           (Some (Sql.mkSlideResult img None pt))); try done; simpl.
  unfold orNull. rewrite Himg. destruct img; done.
Qed.

Lemma inv_run_slide_failed d ps ps' pid0 x jid job slide t g msg pt :
  PptxInv d ps →
  ps !! pid0 = Some (Some (PptxAwaitGenerate jid job slide t g)) →
  slotsFrom ps ps' pid0 x → slideInFlight x = None →
  truthy (Some msg) = true →
  PptxInv
    (Sql.incrementPptxCompleted jid true
       (Sql.updatePptxSlideStatus (PptxSlide.id slide) failed
          (Some (Sql.mkSlideResult None (Some msg) pt)) d)) ps'.
Proof.
  intros Hi Hpid Hs Hx Hmsg.
  apply (inv_run_slide d ps ps' pid0 x jid job slide t g failed
           (Some (Sql.mkSlideResult None (Some msg) pt))); try done; simpl.
  unfold orNull. rewrite Hmsg. done.
Qed.

(** The retry route resets a failed slide and takes it off the counters. *)
Lemma inv_retry_slide d ps jid sid slide :
  PptxInv d ps →
  Sql.getPptxSlide sid d = Some slide →
  PptxSlide.job_id slide = jid → PptxSlide.status slide = failed →
  PptxInv (Sql.decrementPptxFailed jid (Sql.resetPptxSlide sid d)) ps.
Proof.
  intros [Ht Hp] Hget Hj Hst.
  apply sqlGet_Some in Hget as [Hin Hid]. apply Z.eqb_eq in Hid. subst jid sid.
  by eapply (engine_reset pptxSchema slideInFlight).
Qed.

Lemma inv_updatePptxJobStatus d ps id status :
  PptxInv d ps → PptxInv (Sql.updatePptxJobStatus id status d) ps.
Proof.
  intros [Ht Hp]. split; [|done].
  by apply (tables_job_update pptxSchema).
Qed.

Lemma pptx_inv_slots d ps ps' pid0 x :
  PptxInv d ps → slotsFrom ps ps' pid0 x → slideInFlight x = None → PptxInv d ps'.
Proof. intros [Ht Hp] Hs Hx. split; [done|]. by eapply procs_slots. Qed.

Lemma createPptxJob_ok input h :
  faults h = [] →
  createPptxJob input h
  = (Ret (seq_pptx_jobs (db h) + 1), set_db (createPptxRows input) h).
Proof.
  intros Hf. unfold createPptxJob, bind. rewrite stmt_ok by done.
  rewrite forEach_exec_ok by done. done.
Qed.

Lemma insertPptxSlides_eq jid slides d :
  insertPptxSlides jid slides d
  = mkDB (batches d) (batch_items d) (pptx_jobs d)
      (pptx_slides d ++ newSlideRows jid (seq_pptx_slides d) slides)
      (seq_batches d) (seq_batch_items d) (seq_pptx_jobs d)
      (seq_pptx_slides d + Z.of_nat (length slides)).
Proof.
  unfold insertPptxSlides. revert d.
  induction slides as [|slide slides IH]; intros d; simpl.
  - destruct d. simpl. by rewrite app_nil_r, Z.add_0_r.
  - rewrite IH. simpl. rewrite <- app_assoc. simpl. f_equal. lia.
Qed.

Lemma newSlideRows_spec jid seq slides r :
  r ∈ newSlideRows jid seq slides →
  seq < PptxSlide.id r ≤ seq + Z.of_nat (length slides) ∧
  PptxSlide.job_id r = jid ∧ PptxSlide.status r = pending ∧
  PptxSlide.beautified_image r = None ∧ PptxSlide.error r = None.
Proof.
  revert seq. induction slides as [|slide slides IH]; intros seq H; simpl in *.
  - by apply elem_of_nil in H.
  - apply elem_of_cons in H as [->|H]; simpl.
    + split_and!; try done; lia.
    + apply IH in H as (H1 & H2). split; [lia|done].
Qed.

Lemma newSlideRows_length jid seq slides :
  length (newSlideRows jid seq slides) = length slides.
Proof. revert seq. induction slides; intros seq; simpl; auto. Qed.

Lemma newSlideRows_NoDup jid seq slides :
  NoDup (map PptxSlide.id (newSlideRows jid seq slides)).
Proof.
  revert seq. induction slides as [|slide slides IH]; intros seq; simpl.
  - constructor.
  - apply NoDup_cons. split; [|apply IH].
    rewrite list_elem_of_In, in_map_iff. intros (r & Hid & Hr).
    rewrite <- list_elem_of_In in Hr. apply newSlideRows_spec in Hr. lia.
Qed.

Lemma inv_createPptxJob input d ps :
  PptxInv d ps → PptxInv (createPptxRows input d) ps.
Proof.
  intros [Ht Hp]. unfold PptxInv, createPptxRows.
  rewrite insertPptxSlides_eq. simpl.
  rewrite <- (newSlideRows_length (seq_pptx_jobs d + 1) (seq_pptx_slides d)
                (cp_slides input)).
  apply (engine_insert pptxSchema slideInFlight); try done; simpl.
  - apply newSlideRows_NoDup.
  - intros r Hr. rewrite newSlideRows_length. by apply newSlideRows_spec.
Qed.

(** ** Frames: each invariant looks at its own tables only *)

Lemma BatchInv_ext d d' ps :
  batches d' = batches d → batch_items d' = batch_items d →
  seq_batches d' = seq_batches d → seq_batch_items d' = seq_batch_items d →
  BatchInv d ps → BatchInv d' ps.
Proof.
  unfold BatchInv. by intros -> -> -> ->.
Qed.

Lemma PptxInv_ext d d' ps :
  pptx_jobs d' = pptx_jobs d → pptx_slides d' = pptx_slides d →
  seq_pptx_jobs d' = seq_pptx_jobs d → seq_pptx_slides d' = seq_pptx_slides d →
  PptxInv d ps → PptxInv d' ps.
Proof.
  unfold PptxInv. by intros -> -> -> ->.
Qed.

Lemma batch_frame_updatePptxJobStatus d ps id status :
  BatchInv d ps → BatchInv (Sql.updatePptxJobStatus id status d) ps.
Proof. by apply BatchInv_ext. Qed.

Lemma batch_frame_updatePptxSlideStatus d ps id status result :
  BatchInv d ps → BatchInv (Sql.updatePptxSlideStatus id status result d) ps.
Proof. by apply BatchInv_ext. Qed.

Lemma batch_frame_incrementPptxCompleted d ps id failed :
  BatchInv d ps → BatchInv (Sql.incrementPptxCompleted id failed d) ps.
Proof. apply BatchInv_ext; by destruct failed. Qed.

Lemma batch_frame_resetPptxSlide d ps id :
  BatchInv d ps → BatchInv (Sql.resetPptxSlide id d) ps.
Proof. by apply BatchInv_ext. Qed.

Lemma batch_frame_decrementPptxFailed d ps id :
  BatchInv d ps → BatchInv (Sql.decrementPptxFailed id d) ps.
Proof. by apply BatchInv_ext. Qed.

Lemma batch_frame_createPptxRows d ps input :
  BatchInv d ps → BatchInv (createPptxRows input d) ps.
Proof.
  unfold createPptxRows. rewrite insertPptxSlides_eq. by apply BatchInv_ext.
Qed.

Lemma pptx_frame_updateBatchStatus d ps id status :
  PptxInv d ps → PptxInv (Sql.updateBatchStatus id status d) ps.
Proof. by apply PptxInv_ext. Qed.

Lemma pptx_frame_updateBatchItemStatus d ps id status result :
  PptxInv d ps → PptxInv (Sql.updateBatchItemStatus id status result d) ps.
Proof. by apply PptxInv_ext. Qed.

Lemma pptx_frame_incrementBatchCompleted d ps id failed :
  PptxInv d ps → PptxInv (Sql.incrementBatchCompleted id failed d) ps.
Proof. apply PptxInv_ext; by destruct failed. Qed.

Lemma pptx_frame_resetBatchItem d ps id :
  PptxInv d ps → PptxInv (Sql.resetBatchItem id d) ps.
Proof. by apply PptxInv_ext. Qed.

Lemma pptx_frame_decrementBatchFailed d ps id :
  PptxInv d ps → PptxInv (Sql.decrementBatchFailed id d) ps.
Proof. by apply PptxInv_ext. Qed.

Lemma pptx_frame_createBatchRows d ps input :
  PptxInv d ps → PptxInv (createBatchRows input d) ps.
Proof.
  unfold createBatchRows. rewrite insertBatchItems_eq. by apply PptxInv_ext.
Qed.

Lemma truthy_orElse s : truthy (Some (orElse s "Unknown error")) = true.
Proof. by destruct s as [[|c s]|]. Qed.

(** ** One turn of the event loop *)

Lemma generateImage_call_spec options h :
  ∃ g b, generateImage_call options h = (Ret g, set_genAI b h).
Proof.
  unfold generateImage_call, getClient, tryCatch, bind, gets, modify, throw, ret.
  destruct h as [d ab aj pr gen key nw fs]. simpl.
  destruct gen; simpl.
  - eexists _, true. reflexivity.
  - destruct (truthy key); simpl.
    + eexists _, true. reflexivity.
    + eexists _, false. reflexivity.
Qed.

(** [generateImage] returns a result, or rejects with a [TypeError] whose
    message is not empty. *)
Lemma generateImage_result_cases g provider :
  (∃ result, generateImage_result g provider = Ret result) ∨
  (∃ message, generateImage_result g provider = Throw (JsError message) ∧
              truthy (Some message) = true).
Proof.
  destruct g as [r|request]; simpl; [by eauto|].
  destruct provider as [response|error|message]; simpl; [by eauto..|].
  right. eexists. split; [done|]. by destruct message.
Qed.

Lemma step_eq t w :
  step t w =
  let h := set_env (time t) (plan t) (heap w) in
  match event t with
  | Http r => mkWorld (handle r h).2 (procs w ++ spawned (handle r h).1)
  | Settles pid s =>
      match procs w !! pid with
      | Some (Some k) =>
          match resume k s with
          | Some m => mkWorld (m h).2 (<[pid := continued (m h).1]> (procs w))
          | None => w
          end
      | _ => w
      end
  end.
Proof.
  unfold step. simpl. destruct (event t) as [r|pid s].
  - by destruct (handle r _).
  - destruct (procs w !! pid) as [[k|]|]; try done.
    destruct (resume k s) as [m|]; try done. by destruct (m _).
Qed.

(** Unfolds the code of a turn; the statements and the Gateway stay folded. *)
Ltac exec_cbv :=
  cbv beta iota zeta delta [ handle resume spawned continued
        db activeBatches activeJobs pptxResults genAI GEMINI_API_KEY now faults
        heap procs event time plan
        set_db set_activeBatches set_activeJobs set_pptxResults set_genAI
        set_faults set_env
        ret throw bind tryCatch gets modify await stmt query exec Date_now
        tryFinally fireAndForget fst snd negb andb orb flagSet
        batchRouter_post batchRouter_retry batchRouter_cancel
        pptxRouter_beautify pptxRouter_retry pptxRouter_cancel
        isProcessingBatch cancelBatch batchFinalStatus batchWhile batchRunItem
        processBatch processBatch_afterGenerate processBatch_afterTimer
        isProcessingPptxJob cancelPptxJob pptxFinal pptxWhile pptxRunSlide
        processPptxJob processPptxJob_afterGenerate processPptxJob_afterTimer
        processPptxJob_afterAssembly
        getBatch getBatchItems getBatchItem getNextPendingBatchItem
        updateBatchStatus updateBatchItemStatus incrementBatchCompleted
        resetBatchItem decrementBatchFailed
        getPptxJob getPptxSlides getPptxSlide getNextPendingPptxSlide
        updatePptxJobStatus updatePptxSlideStatus incrementPptxCompleted
        resetPptxSlide decrementPptxFailed ].

(** One step of symbolic execution: the innermost stuck [match]. *)
Ltac exec_case :=
  match goal with
  | |- context [generateImage_result ?g ?r] =>
      let result := fresh "result" in let message := fresh "message" in
      let E := fresh "E" in let Hm := fresh "Hmessage" in
      destruct (generateImage_result_cases g r) as [[result E]|(message & E & Hm)];
      rewrite E; clear E
  | |- context [generateImage_call ?o ?h] =>
      let g := fresh "g" in let b := fresh "b" in let E := fresh "E" in
      destruct (generateImage_call_spec o h) as (g & b & E); rewrite E; clear E
  | |- context [createBatch ?i ?h] => rewrite (createBatch_ok i h) by reflexivity
  | |- context [createPptxJob ?i ?h] => rewrite (createPptxJob_ok i h) by reflexivity
  | |- context [existsb ?f ?l] => destruct (existsb f l) eqn:?
  | |- context [match ?x with _ => _ end] =>
      lazymatch x with
      | context [match _ with _ => _ end] => fail
      | context [generateImage_call] => fail
      | context [createBatch] => fail
      | context [createPptxJob] => fail
      | _ => destruct x eqn:?
      end
  end.

Ltac exec := exec_cbv; repeat (exec_case; exec_cbv).

Ltac norm_hyps :=
  repeat match goal with
    | H : negb _ = true |- _ => apply negb_true_iff in H
    | H : negb _ = false |- _ => apply negb_false_iff in H
    | H : (_ =? _) = true |- _ => apply Z.eqb_eq in H
    | H : bool_decide _ = true |- _ => apply bool_decide_eq_true in H
    | H : _ && _ = true |- _ => apply andb_true_iff in H as [? ?]
    end.

Ltac solve_slots :=
  first [ apply slotsFrom_snoc | apply slotsFrom_insert | apply slotsFrom_same ].

Ltac solve_batch_inv :=
  first
    [ eassumption
    | apply inv_updateBatchStatus; solve_batch_inv
    | eapply inv_mark_processing; [solve_batch_inv | eassumption | solve_slots]
    | eapply inv_run_item_completed;
        [solve_batch_inv | eassumption | solve_slots | reflexivity | eassumption]
    | eapply inv_run_item_failed;
        [solve_batch_inv | eassumption | solve_slots | reflexivity
        | first [apply truthy_orElse | eassumption]]
    | eapply inv_retry; [solve_batch_inv | eassumption | eassumption | eassumption]
    | apply inv_createBatch; solve_batch_inv
    | apply batch_frame_updatePptxJobStatus; solve_batch_inv
    | apply batch_frame_updatePptxSlideStatus; solve_batch_inv
    | apply batch_frame_incrementPptxCompleted; solve_batch_inv
    | apply batch_frame_resetPptxSlide; solve_batch_inv
    | apply batch_frame_decrementPptxFailed; solve_batch_inv
    | apply batch_frame_createPptxRows; solve_batch_inv
    | eapply inv_slots; [eassumption | solve_slots | reflexivity] ].

Ltac solve_pptx_inv :=
  first
    [ eassumption
    | apply inv_updatePptxJobStatus; solve_pptx_inv
    | eapply inv_mark_slide_processing; [solve_pptx_inv | eassumption | solve_slots]
    | eapply inv_run_slide_completed;
        [solve_pptx_inv | eassumption | solve_slots | reflexivity | eassumption]
    | eapply inv_run_slide_failed;
        [solve_pptx_inv | eassumption | solve_slots | reflexivity
        | first [apply truthy_orElse | eassumption]]
    | eapply inv_retry_slide; [solve_pptx_inv | eassumption | eassumption | eassumption]
    | apply inv_createPptxJob; solve_pptx_inv
    | apply pptx_frame_updateBatchStatus; solve_pptx_inv
    | apply pptx_frame_updateBatchItemStatus; solve_pptx_inv
    | apply pptx_frame_incrementBatchCompleted; solve_pptx_inv
    | apply pptx_frame_resetBatchItem; solve_pptx_inv
    | apply pptx_frame_decrementBatchFailed; solve_pptx_inv
    | apply pptx_frame_createBatchRows; solve_pptx_inv
    | eapply pptx_inv_slots; [eassumption | solve_slots | reflexivity] ].

Ltac solve_turn :=
  exec; rewrite ?app_nil_r; norm_hyps;
  (split; [solve_batch_inv | solve_pptx_inv]).

Lemma step_preserves t w :
  plan t = [] → WorldInv w → WorldInv (step t w).
Proof.
  destruct w as [[d ab aj pr gen key nw fs] ps], t as [ev tm pl].
  unfold WorldInv. simpl. intros -> [Hb Hp]. rewrite step_eq.
  destruct ev as [[input|bid iid|id|input|jid sid|jid]|pid s].
  - solve_turn.
  - solve_turn.
  - solve_turn.
  - solve_turn.
  - solve_turn.
  - solve_turn.
  - simpl. destruct (ps !! pid) as [[k|]|] eqn:Hpid; try done.
    destruct k, s; simpl; try done; solve_turn.
Qed.

Lemma initWorld_inv apiKey : WorldInv (initWorld apiKey).
Proof.
  split; (split; [constructor|constructor]); simpl;
    try (intros ? H; by apply elem_of_nil in H); try constructor;
    intros; by rewrite lookup_nil in *.
Qed.

Lemma restart_inv apiKey w : WorldInv w → WorldInv (restart apiKey w).
Proof.
  intros [[Hb _] [Hp _]]. unfold restart.
  split; (split; [done|]); constructor; simpl;
    intros; by rewrite lookup_nil in *.
Qed.

Lemma reachable_inv w : reachable w → WorldInv w.
Proof.
  induction 1 as [apiKey|t w _ IH Hplan|apiKey w _ IH].
  - apply initWorld_inv.
  - by apply step_preserves.
  - by apply restart_inv.
Qed.

Lemma reachable_run ts w :
  Forall (λ t, plan t = []) ts → reachable w → reachable (run ts w).
Proof.
  unfold run. revert w. induction ts as [|t ts IH]; intros w Hts Hw; [done|].
  apply Forall_cons in Hts as [Ht Hts]. simpl. apply IH; [done|].
  by apply reachable_step.
Qed.

(** ** The invariants of the reachable states *)

Lemma counted_ordered {A} (owner : A → Z) (status : A → Status) (id : Z) (rows : list A) :
  0 ≤ countIf (λ r, (owner r =? id) && bool_decide (status r = failed)) rows ∧
  countIf (λ r, (owner r =? id) && bool_decide (status r = failed)) rows
    ≤ countIf (λ r, (owner r =? id) && isTerminalStatus (status r)) rows ∧
  countIf (λ r, (owner r =? id) && isTerminalStatus (status r)) rows
    ≤ countIf (λ r, owner r =? id) rows.
Proof.
  split_and!.
  - apply countIf_nonneg.
  - apply countIf_le. intros r Hr. apply andb_true_iff in Hr as [-> Hs].
    apply bool_decide_eq_true in Hs. by rewrite Hs.
  - apply countIf_le. intros r Hr. by apply andb_true_iff in Hr as [-> _].
Qed.

(** C2: in every state the server reaches from start-up, through job
    creation, task runs that succeed or fail, retries, cancellations and
    restarts, with a store that works, every batch and every deck job has
    [0 <= failed <= completed <= total]. *)
Theorem counters_stay_ordered :
  ∀ w, reachable w →
    (∀ b, b ∈ batches (db (heap w)) →
       0 ≤ Batch.failed_items b ∧
       Batch.failed_items b ≤ Batch.completed_items b ∧
       Batch.completed_items b ≤ Batch.total_items b) ∧
    (∀ j, j ∈ pptx_jobs (db (heap w)) →
       0 ≤ PptxJob.failed_slides j ∧
       PptxJob.failed_slides j ≤ PptxJob.completed_slides j ∧
       PptxJob.completed_slides j ≤ PptxJob.total_slides j).
Proof.
  intros w Hw. apply reachable_inv in Hw as [[Hb _] [Hp _]]. split.
  - intros b Hin. destruct (ti_counted _ _ _ _ _ Hb b Hin) as (Ht & Hc & Hf).
    simpl in Ht, Hc, Hf. rewrite Ht, Hc, Hf.
    apply (counted_ordered BatchItem.batch_id BatchItem.status).
  - intros j Hin. destruct (ti_counted _ _ _ _ _ Hp j Hin) as (Ht & Hc & Hf).
    simpl in Ht, Hc, Hf. rewrite Ht, Hc, Hf.
    apply (counted_ordered PptxSlide.job_id PptxSlide.status).
Qed.

(** C3: in every such state every batch item has a generated image exactly
    when it is [completed] and an error text exactly when it is [failed], and
    so has every slide with its beautified image. *)
Theorem payload_and_error_follow_status :
  ∀ w, reachable w →
    (∀ i, i ∈ batch_items (db (heap w)) →
       (BatchItem.generated_image i ≠ None ↔ BatchItem.status i = completed) ∧
       (BatchItem.error i ≠ None ↔ BatchItem.status i = failed)) ∧
    (∀ s, s ∈ pptx_slides (db (heap w)) →
       (PptxSlide.beautified_image s ≠ None ↔ PptxSlide.status s = completed) ∧
       (PptxSlide.error s ≠ None ↔ PptxSlide.status s = failed)).
Proof.
  intros w Hw. apply reachable_inv in Hw as [[Hb _] [Hp _]]. split.
  - intros i Hin. exact (ti_consistent _ _ _ _ _ Hb i Hin).
  - intros s Hin. exact (ti_consistent _ _ _ _ _ Hp s Hin).
Qed.

(** ** Beyond the reachable states: a store that fails

    The invariants above are those of a store that works.  When the
    increment after a failed item throws in the [try] block and again in the
    [catch] block, the call ends with the item [failed] and not counted, and
    the retry of that item takes both counters below zero. *)
Example counters_lag_when_the_store_fails :
  let w := run (firstn 2 storeFailureTrace) (initWorld (Some "key")) in
  let w' := run storeFailureTrace (initWorld (Some "key")) in
  map BatchItem.status (batch_items (db (heap w))) = [failed; pending] ∧
  map (λ b, (Batch.failed_items b, Batch.completed_items b, Batch.total_items b))
    (batches (db (heap w))) = [(0, 0, 2)] ∧
  activeBatches (heap w) !! 1 = None ∧
  map (λ b, (Batch.failed_items b, Batch.completed_items b, Batch.total_items b))
    (batches (db (heap w'))) = [(-1, -1, 2)].
Proof. vm_compute. split_and!; reflexivity. Qed.

(** ** The theorems at concrete inputs *)

Lemma retryWorld_reachable : reachable retryWorld.
Proof.
  unfold retryWorld, retryTrace. apply reachable_run; [|apply reachable_init].
  repeat (apply Forall_cons_2; [reflexivity|]). apply Forall_nil_2.
Defined.

Lemma counters_stay_ordered_witness :
  reachable retryWorld ∧
  map (λ b, (Batch.failed_items b, Batch.completed_items b, Batch.total_items b))
    (batches (db (heap retryWorld))) = [(0, 1, 2)] ∧
  ∀ b, b ∈ batches (db (heap retryWorld)) →
    0 ≤ Batch.failed_items b ∧
    Batch.failed_items b ≤ Batch.completed_items b ∧
    Batch.completed_items b ≤ Batch.total_items b.
Proof.
  split; [exact retryWorld_reachable|]. split; [vm_compute; reflexivity|].
  exact (proj1 (counters_stay_ordered retryWorld retryWorld_reachable)).
Defined.

Lemma payload_and_error_follow_status_witness :
  reachable retryWorld ∧
  map BatchItem.status (batch_items (db (heap retryWorld))) = [processing; completed] ∧
  ∀ i, i ∈ batch_items (db (heap retryWorld)) →
    (BatchItem.generated_image i ≠ None ↔ BatchItem.status i = completed) ∧
    (BatchItem.error i ≠ None ↔ BatchItem.status i = failed).
Proof.
  split; [exact retryWorld_reachable|]. split; [vm_compute; reflexivity|].
  exact (proj1 (payload_and_error_follow_status retryWorld retryWorld_reachable)).
Defined.

Lemma duplicate_start_is_noop_witness :
  (registry BatchKind failingHeap !! 1 = Some true ∧
   processor BatchKind 1 failingHeap = (Ret None, failingHeap)) ∧
  (∃ k h1, processor PptxKind 1 sampleHeap = (Ret (Some k), h1) ∧
           processor PptxKind 1 h1 = (Ret None, h1)).
Proof.
  split.
  - split; [reflexivity|].
    apply (proj1 duplicate_start_is_noop BatchKind 1 failingHeap). reflexivity.
  - eexists _, _. split; [vm_compute; reflexivity|].
    eapply (proj2 duplicate_start_is_noop PptxKind 1 sampleHeap).
    vm_compute. reflexivity.
Defined.

Lemma processor_deregisters_witness :
  (let out := processBatch_afterTimer 1 sampleBatch failingHeap in
   out.1 = Throw (JsError "disk I/O error") ∧ activeBatches out.2 !! 1 = None) ∧
  (let out := processor PptxKind 7 sampleHeap in
   out.1 = Ret None ∧ activeJobs out.2 !! 7 = None).
Proof.
  split.
  - split; [vm_compute; reflexivity|].
    apply (proj2 processor_deregisters_on_every_exit
             (BatchAwaitTimer 1 sampleBatch) TimerFires
             (processBatch_afterTimer 1 sampleBatch) failingHeap
             (processBatch_afterTimer 1 sampleBatch failingHeap).1
             (processBatch_afterTimer 1 sampleBatch failingHeap).2).
    + reflexivity.
    + apply surjective_pairing.
    + vm_compute. exact I.
  - split; [vm_compute; reflexivity|].
    apply (proj1 processor_deregisters_on_every_exit PptxKind 7 sampleHeap
             (processor PptxKind 7 sampleHeap).1).
    + reflexivity.
    + apply surjective_pairing.
    + vm_compute. exact I.
Defined.

Lemma gateway_failure_is_recorded_witness :
  let rateLimited : Res GenerateImageResult :=
    Ret (mkResult false None None (Some "Rate limit exceeded. Please try again later.")
           (Some "RATE_LIMIT")) in
  let thrown : Res GenerateImageResult :=
    Throw (JsError "Cannot read properties of undefined (reading 'includes')") in
  let h := set_env 4200 [] sampleHeap in
  (faults h = [] ∧ gatewayFailed rateLimited ∧ gatewayFailed thrown) ∧
  (batchRunItem 1 sampleItem 1000 rateLimited h).1 = Ret tt ∧
  batch_items (db (batchRunItem 1 sampleItem 1000 rateLimited h).2)
    = [BatchItem.mk 1 1 "a.png" "QQ==" "image/png" None None failed
         (Some "Rate limit exceeded. Please try again later.") (Some 3200)] ∧
  map (λ b, (Batch.completed_items b, Batch.failed_items b))
    (batches (db (batchRunItem 1 sampleItem 1000 rateLimited h).2)) = [(1, 1)] ∧
  (pptxRunSlide 1 sampleSlide 4200 thrown h).1 = Ret tt ∧
  pptx_slides (db (pptxRunSlide 1 sampleSlide 4200 thrown h).2)
    = [PptxSlide.mk 1 1 1 failed "UzE=" None
         (Some "Cannot read properties of undefined (reading 'includes')") None].
Proof.
  intros rateLimited thrown h.
  split; [split; [reflexivity|split; [reflexivity|exact I]]|].
  split.
  { exact (proj1 (proj1 gateway_failure_is_recorded 1 sampleItem 1000 rateLimited h
                    eq_refl eq_refl)). }
  split; [vm_compute; reflexivity|]. split; [vm_compute; reflexivity|].
  split.
  { exact (proj1 (proj2 gateway_failure_is_recorded 1 sampleSlide 4200 thrown h
                    eq_refl I)). }
  vm_compute; reflexivity.
Defined.

Lemma next_pending_is_lowest_witness :
  let slide1 := PptxSlide.mk 1 1 3 pending "UzM=" None None None in
  let slide2 := PptxSlide.mk 2 1 1 completed "UzE=" (Some "SU1H") None (Some 900) in
  let slide3 := PptxSlide.mk 3 1 2 pending "UzI=" None None None in
  let itemB := BatchItem.mk 1 1 "b.png" "Qg==" "image/png" None None pending None None in
  let itemA := BatchItem.mk 2 1 "a.png" "QQ==" "image/png" None None pending None None in
  let d := mkDB [Batch.mk 1 processing 2 0 0 "enhance" None None false] [itemB; itemA]
             [PptxJob.mk 1 processing "deck.pptx" 3 1 0 "enhance" None None false]
             [slide1; slide2; slide3] 1 2 1 3 in
  let d' := Sql.updateBatchItemStatus 1 processing None
              (Sql.updatePptxSlideStatus 3 processing None d) in
  (NoDup (map BatchItem.id (batch_items d)) ∧ slideNumbersUnique 1 d ∧
   Sql.getNextPendingBatchItem 1 d = Some itemB ∧
   Sql.getNextPendingBatchItem 1 d' = Some itemA ∧
   Sql.getNextPendingPptxSlide 1 d = Some slide3 ∧
   Sql.getNextPendingPptxSlide 1 d' = Some slide1 ∧
   (itemB ∉ batch_items d') ∧ (slide3 ∉ pptx_slides d')) ∧
  BatchItem.id itemB < BatchItem.id itemA ∧
  PptxSlide.slide_number slide3 < PptxSlide.slide_number slide1.
Proof.
  intros slide1 slide2 slide3 itemB itemA d d'.
  assert (Hnd : NoDup (map BatchItem.id (batch_items d))).
  { simpl. apply NoDup_cons. split; [|apply NoDup_singleton].
    intros H%list_elem_of_singleton. discriminate. }
  assert (Huniq : slideNumbersUnique 1 d).
  { intros a b Ha Hb _ _ Heq. simpl in Ha, Hb.
    repeat (apply elem_of_cons in Ha as [->|Ha]);
      repeat (apply elem_of_cons in Hb as [->|Hb]);
      try (by apply elem_of_nil in Ha); try (by apply elem_of_nil in Hb);
      try done; discriminate. }
  assert (E1 : Sql.getNextPendingBatchItem 1 d = Some itemB) by (vm_compute; reflexivity).
  assert (E2 : Sql.getNextPendingBatchItem 1 d' = Some itemA) by (vm_compute; reflexivity).
  assert (E3 : Sql.getNextPendingPptxSlide 1 d = Some slide3) by (vm_compute; reflexivity).
  assert (E4 : Sql.getNextPendingPptxSlide 1 d' = Some slide1) by (vm_compute; reflexivity).
  assert (Hitems : batch_items d'
                   = [BatchItem.mk 1 1 "b.png" "Qg==" "image/png" None None processing
                        None None; itemA]) by (vm_compute; reflexivity).
  assert (Hslides : pptx_slides d'
                    = [slide1; slide2; PptxSlide.mk 3 1 2 processing "UzI=" None None None])
    by (vm_compute; reflexivity).
  assert (G1 : itemB ∉ batch_items d').
  { rewrite Hitems. intros H.
    repeat (apply elem_of_cons in H as [H|H]; [discriminate|]).
    by apply elem_of_nil in H. }
  assert (G2 : slide3 ∉ pptx_slides d').
  { rewrite Hslides. intros H.
    repeat (apply elem_of_cons in H as [H|H]; [discriminate|]).
    by apply elem_of_nil in H. }
  split; [by split_and!|]. split.
  - apply (proj1 (proj2 (proj2 next_pending_is_lowest)) d d' 1 itemB itemA Hnd E1);
      [|exact G1|exact E2].
    intros r Hr Hst. rewrite Hitems in Hr.
    apply elem_of_cons in Hr as [->|Hr]; [discriminate|].
    apply elem_of_cons in Hr as [->|Hr]; [right; left|].
    by apply elem_of_nil in Hr.
  - apply (proj2 (proj2 (proj2 next_pending_is_lowest)) d d' 1 slide3 slide1 Huniq E3);
      [|exact G2|exact E4].
    intros r Hr Hst. rewrite Hslides in Hr.
    apply elem_of_cons in Hr as [->|Hr]; [left|].
    apply elem_of_cons in Hr as [->|Hr]; [discriminate|].
    apply elem_of_cons in Hr as [->|Hr]; [discriminate|].
    by apply elem_of_nil in Hr.
Defined.

Lemma missing_credential_witness :
  genAI (initHeap None) = false ∧ truthy (GEMINI_API_KEY (initHeap None)) = false ∧
  getClient (initHeap None)
    = (Throw (JsError "GEMINI_API_KEY environment variable is not set"), initHeap None).
Proof.
  split; [reflexivity|]. split; [reflexivity|].
  exact (proj1 (missing_credential_is_a_failure_result
                  (mkOptions "QQ==" "image/png" "enhance" None) (initHeap None)
                  (Rejects JsNonError) eq_refl eq_refl)).
Defined.

Lemma update_status_is_unconditional_witness :
  faults sampleHeap = [] ∧
  updateBatchItemStatus 1 pending None sampleHeap
    = (Ret tt, set_db (Sql.updateBatchItemStatus 1 pending None) sampleHeap).
Proof.
  split; [reflexivity|].
  exact (proj1 (proj1 update_status_is_unconditional 1 pending None sampleHeap eq_refl)).
Defined.

Lemma assembly_witness :
  (faults cancelledDeckHeap = [] ∧
   activeJobs cancelledDeckHeap !! 1 ≠ Some true ∧
   Sql.getPptxJob 1 (db cancelledDeckHeap)
   = Some (PptxJob.mk 1 failed "deck.pptx" 2 1 0 "enhance" None None true) ∧
   map PptxSlide.status (pptx_slides (db cancelledDeckHeap)) = [completed; pending]) ∧
  ∃ finalJob h',
    processPptxJob_afterTimer 1 sampleJob cancelledDeckHeap
    = (Ret (Some (PptxAwaitAssembly 1 finalJob [mkSlideImage 1 "SU1H"])), h').
Proof.
  assert (Hf : faults cancelledDeckHeap = []) by (vm_compute; reflexivity).
  assert (Hflag : activeJobs cancelledDeckHeap !! 1 ≠ Some true)
    by (vm_compute; discriminate).
  assert (Hget : Sql.getPptxJob 1 (db cancelledDeckHeap)
                 = Some (PptxJob.mk 1 failed "deck.pptx" 2 1 0 "enhance" None None true))
    by (vm_compute; reflexivity).
  split; [split_and!; [exact Hf|exact Hflag|exact Hget|vm_compute; reflexivity]|].
  destruct (assembly_uses_only_terminal_slides 1 sampleJob _ cancelledDeckHeap
              Hf (or_introl Hflag) Hget ltac:(vm_compute; discriminate))
    as (imgs & h' & Hrun & _).
  exists (PptxJob.mk 1 failed "deck.pptx" 2 1 0 "enhance" None None true), h'.
  assert (Himgs : (processPptxJob_afterTimer 1 sampleJob cancelledDeckHeap).1
                  = Ret (Some (PptxAwaitAssembly 1
                                 (PptxJob.mk 1 failed "deck.pptx" 2 1 0 "enhance" None None
                                    true) [mkSlideImage 1 "SU1H"])))
    by (vm_compute; reflexivity).
  rewrite Hrun in Himgs. simpl in Himgs. injection Himgs as ->. exact Hrun.
Defined.

(** * Further properties of the code *)

(** ** The Gateway: [generateImage] *)

Local Ltac failure_result :=
  right; simpl; split_and!; try done; rewrite !elem_of_cons; auto.

Lemma generateImage_catch_wellFormed error :
  wellFormedResult (generateImage_catch error).
Proof.
  unfold generateImage_catch. repeat case_match; failure_result.
Qed.

Lemma findImagePart_spec ps :
  match findImagePart ps with
  | Some r =>
      ∃ pre p d post, ps = (pre ++ p :: post)%list ∧
        Forall (λ q, isImagePart q = false) pre ∧
        inlineData p = Some d ∧ isImagePart p = true ∧
        r = mkResult true (data d) (inlineMimeType d) None None
  | None => Forall (λ q, isImagePart q = false) ps
  end.
Proof.
  induction ps as [|p ps IH]; simpl; [constructor|].
  destruct (inlineData p) as [d|] eqn:Hd.
  - destruct (truthy (data d) && truthy (inlineMimeType d)) eqn:Himg.
    + exists [], p, d, ps. split_and!; try done.
      unfold isImagePart. by rewrite Hd.
    + destruct (findImagePart ps) as [r|].
      * destruct IH as (pre & q & d' & post & -> & Hpre & Hq & Hi & ->).
        exists (p :: pre), q, d', post. split_and!; try done.
        constructor; [|done]. unfold isImagePart. by rewrite Hd.
      * constructor; [|done]. unfold isImagePart. by rewrite Hd.
  - destruct (findImagePart ps) as [r|].
    + destruct IH as (pre & q & d' & post & -> & Hpre & Hq & Hi & ->).
      exists (p :: pre), q, d', post. split_and!; try done.
      constructor; [|done]. unfold isImagePart. by rewrite Hd.
    + constructor; [|done]. unfold isImagePart. by rewrite Hd.
Qed.

Lemma generateImage_extract_wellFormed response :
  wellFormedResult (generateImage_extract response).
Proof.
  unfold generateImage_extract.
  destruct (candidates response) as [[|first rest]|]; try failure_result.
  destruct (content first ≫= parts) as [ps|]; [|failure_result].
  pose proof (findImagePart_spec ps) as H.
  destruct (findImagePart ps) as [r|].
  - destruct H as (pre & p & d & post & _ & _ & Hd & Hi & ->).
    unfold isImagePart in Hi. rewrite Hd in Hi.
    apply andb_true_iff in Hi as [H1 H2]. left. done.
  - case_bool_decide; failure_result.
Qed.

Lemma generateImage_wellFormed options h provider :
  ∃ g h', generateImage_call options h = (Ret g, h') ∧
    match generateImage_result g provider with
    | Ret result => wellFormedResult result
    | Throw e =>
        (genAI h = true ∨ truthy (GEMINI_API_KEY h) = true) ∧
        ∃ message, provider = RejectsOdd message ∧
                   e = JsError (includesTypeError message)
    end.
Proof.
  assert (Hresume : match generateImage_resume provider with
                    | Ret result => wellFormedResult result
                    | Throw e => ∃ message, provider = RejectsOdd message ∧
                                            e = JsError (includesTypeError message)
                    end).
  { destruct provider as [response|error|message]; simpl;
      [apply generateImage_extract_wellFormed | apply generateImage_catch_wellFormed
      | by eexists]. }
  unfold generateImage_call, getClient, tryCatch, bind, gets, modify, throw, ret.
  destruct h as [d ab aj pr gen key nw fs]. simpl.
  destruct gen; simpl.
  - eexists _, _. split; [reflexivity|]. simpl.
    destruct (generateImage_resume provider); [done|]. split; [by left|done].
  - destruct (truthy key); simpl.
    + eexists _, _. split; [reflexivity|]. simpl.
      destruct (generateImage_resume provider); [done|]. split; [by right|done].
    + eexists _, _. split; [reflexivity|]. simpl.
      apply generateImage_catch_wellFormed.
Qed.

(** X1: [generateImage] hands its caller a well-formed result in every case
    but one. The result is either a success with a non-empty image and type
    and no error, or a failure with no image, a non-empty message and one of
    the codes [API_ERROR], [RATE_LIMIT], [SAFETY_FILTER]; so the tests
    [result.success && result.image && result.mimeType] of its callers amount
    to [result.success]. The exception: when the provider's call rejects with
    an [Error] whose message is not a string, the [includes] test of the
    [catch] block raises a [TypeError], and [generateImage] rejects with it.
    A missing credential is never such a case. *)
Theorem generateImage_result_or_type_error :
  ∀ options h provider,
    ∃ g h', generateImage_call options h = (Ret g, h') ∧
      match generateImage_result g provider with
      | Ret result =>
          (∀ message, provider = RejectsOdd message →
                      genAI h = false ∧ truthy (GEMINI_API_KEY h) = false) ∧
          wellFormedResult result ∧
          success result && truthy (image result) && truthy (mimeType result)
            = success result ∧
          success result && truthy (image result) = success result
      | Throw e =>
          (genAI h = true ∨ truthy (GEMINI_API_KEY h) = true) ∧
          ∃ message, provider = RejectsOdd message ∧
                     e = JsError (includesTypeError message)
      end.
Proof.
  intros options h provider.
  destruct (generateImage_wellFormed options h provider) as (g & h' & Hcall & Hwf).
  exists g, h'. split; [exact Hcall|].
  destruct (generateImage_result g provider) as [result|e] eqn:Hres; [|exact Hwf].
  split.
  - intros message ->. revert Hcall Hres.
    unfold generateImage_call, getClient, tryCatch, bind, gets, modify, throw, ret.
    destruct h as [d ab aj pr gen key nw fs]. simpl.
    destruct gen; simpl; [by intros [= <- _]|].
    destruct (truthy key); simpl; [by intros [= <- _]|done].
  - split; [exact Hwf|].
    destruct Hwf as [(-> & -> & -> & _)|(-> & _)]; done.
Qed.

Lemma generateImage_result_or_type_error_witness :
  ∃ g h',
    generateImage_call (mkOptions "QQ==" "image/png" "enhance" None) (initHeap (Some "key"))
    = (Ret g, h') ∧
    generateImage_result g (RejectsOdd MsgUndefined)
    = Throw (JsError "Cannot read properties of undefined (reading 'includes')").
Proof.
  destruct (generateImage_result_or_type_error
              (mkOptions "QQ==" "image/png" "enhance" None) (initHeap (Some "key"))
              (RejectsOdd MsgUndefined)) as (g & h' & Hcall & Hres).
  exists g, h'. split; [exact Hcall|].
  assert (Hg : g = GenAwaitsProvider (mkRequest "QQ==" "image/png" "enhance")).
  { vm_compute in Hcall. by injection Hcall as <- _. }
  subst g. reflexivity.
Defined.

(** X2: of the provider's answer [generateImage] reads the first candidate
    only. It returns the first of the candidate's parts that carries both
    image data and a type, skipping the parts before it. A candidate without
    content, or whose content has no parts, gives the [API_ERROR] failure
    'No content in response', whatever its finish reason. A candidate with
    parts of which none carries an image gives a failure with code
    [SAFETY_FILTER] when its finish reason is ['SAFETY'], and the
    [API_ERROR] failure 'No image found in response' otherwise. *)
Theorem first_image_part_wins :
  (∀ first rest,
     generateImage_extract (mkResponse (Some (first :: rest)))
     = generateImage_extract (mkResponse (Some [first]))) ∧
  (∀ first pre p d post,
     content first ≫= parts = Some (pre ++ p :: post)%list →
     Forall (λ q, isImagePart q = false) pre →
     inlineData p = Some d → isImagePart p = true →
     generateImage_extract (mkResponse (Some [first]))
     = mkResult true (data d) (inlineMimeType d) None None) ∧
  (∀ first,
     content first ≫= parts = None →
     generateImage_extract (mkResponse (Some [first]))
     = mkResult false None None (Some "No content in response") (Some "API_ERROR")) ∧
  (∀ first ps,
     content first ≫= parts = Some ps →
     Forall (λ q, isImagePart q = false) ps →
     let r := generateImage_extract (mkResponse (Some [first])) in
     success r = false ∧
     (finishReason first = Some "SAFETY" → errorCode r = Some "SAFETY_FILTER") ∧
     (finishReason first ≠ Some "SAFETY" →
      r = mkResult false None None (Some "No image found in response")
            (Some "API_ERROR"))).
Proof.
  assert (Hfind : ∀ pre p d post,
            Forall (λ q, isImagePart q = false) pre →
            inlineData p = Some d → isImagePart p = true →
            findImagePart (pre ++ p :: post)%list
            = Some (mkResult true (data d) (inlineMimeType d) None None)).
  { intros pre p d post Hpre Hd Hi. induction Hpre as [|q pre Hq _ IH]; simpl.
    - unfold isImagePart in Hi. rewrite Hd in *. by rewrite Hi.
    - unfold isImagePart in Hq. destruct (inlineData q); [|done]. by rewrite Hq. }
  assert (Hnone : ∀ ps, Forall (λ q, isImagePart q = false) ps → findImagePart ps = None).
  { intros ps Hps. induction Hps as [|q ps Hq _ IH]; simpl; [done|].
    unfold isImagePart in Hq. destruct (inlineData q); [|done]. by rewrite Hq. }
  split_and!.
  - done.
  - intros first pre p d post Hc Hpre Hd Hi.
    unfold generateImage_extract. simpl. rewrite Hc.
    by rewrite (Hfind pre p d post).
  - intros first Hc. unfold generateImage_extract. simpl. by rewrite Hc.
  - intros first ps Hc Hps. simpl.
    unfold generateImage_extract. simpl. rewrite Hc, (Hnone ps Hps).
    case_bool_decide; simpl; split_and!; done.
Qed.

Lemma first_image_part_wins_witness :
  (content sampleCandidate ≫= parts
   = Some ([mkPart None]
           ++ mkPart (Some (mkInlineData (Some "SU1H") (Some "image/png")))
           :: [mkPart (Some (mkInlineData (Some "T1RI") (Some "image/jpeg")))])%list ∧
   Forall (λ q, isImagePart q = false) [mkPart None]) ∧
  generateImage_extract (mkResponse (Some [sampleCandidate]))
  = mkResult true (Some "SU1H") (Some "image/png") None None ∧
  content (mkCandidate None (Some "SAFETY")) ≫= parts = None ∧
  generateImage_extract (mkResponse (Some [mkCandidate None (Some "SAFETY")]))
  = mkResult false None None (Some "No content in response") (Some "API_ERROR").
Proof.
  assert (Hpre : Forall (λ q, isImagePart q = false) [mkPart None]).
  { constructor; [reflexivity | constructor]. }
  split; [split; [reflexivity | exact Hpre]|].
  split.
  - exact (proj1 (proj2 first_image_part_wins) sampleCandidate [mkPart None]
             (mkPart (Some (mkInlineData (Some "SU1H") (Some "image/png"))))
             (mkInlineData (Some "SU1H") (Some "image/png"))
             [mkPart (Some (mkInlineData (Some "T1RI") (Some "image/jpeg")))]
             eq_refl Hpre eq_refl eq_refl).
  - split; [reflexivity|].
    exact (proj1 (proj2 (proj2 first_image_part_wins))
             (mkCandidate None (Some "SAFETY")) eq_refl).
Defined.

Lemma prefix_append (s t : string) : String.prefix s (s ++ t) = true.
Proof.
  induction s as [|c s IH]; simpl; [by destruct t|].
  destruct (Ascii.ascii_dec c c); [done|congruence].
Qed.

Lemma prefix_refl (s : string) : String.prefix s s = true.
Proof.
  induction s as [|c s IH]; simpl; [done|].
  destruct (Ascii.ascii_dec c c); [done|congruence].
Qed.

(** X3: when a client already exists, or the credential is set, the call
    reaches the provider: the image and its type are forwarded as given, the
    text sent starts with the caller's prompt, and it is the prompt itself
    unless an aspect ratio is given, in which case the sentence naming the
    ratio follows it. Nothing but the client is changed in the process. *)
Theorem gateway_forwards_the_request :
  ∀ options h,
    genAI h = true ∨ truthy (GEMINI_API_KEY h) = true →
    ∃ req,
      generateImage_call options h = (Ret (GenAwaitsProvider req), set_genAI true h) ∧
      req_image req = opt_image options ∧
      req_mimeType req = opt_mimeType options ∧
      String.prefix (opt_prompt options) (req_text req) = true ∧
      (truthy (opt_aspectRatio options) = false → req_text req = opt_prompt options) ∧
      (∀ ratio, opt_aspectRatio options = Some ratio → ratio ≠ "" →
         req_text req
         = (opt_prompt options ++ String "010" (String "010" "Output the image in ")
              ++ ratio ++ " aspect ratio.")%string).
Proof.
  intros options h Hc.
  assert (Hcall : ∃ req, generateImage_call options h
                    = (Ret (GenAwaitsProvider req), set_genAI true h) ∧
                  req = mkRequest (opt_image options) (opt_mimeType options)
                          match opt_aspectRatio options with
                          | Some aspectRatio =>
                              if truthy (Some aspectRatio)
                              then (opt_prompt options
                                      ++ String "010" (String "010" "Output the image in ")
                                      ++ aspectRatio ++ " aspect ratio.")%string
                              else opt_prompt options
                          | None => opt_prompt options
                          end).
  { unfold generateImage_call, getClient, tryCatch, bind, gets, modify, throw, ret.
    destruct h as [d ab aj pr gen key nw fs]. simpl in *.
    destruct gen; simpl; [by eexists|].
    destruct Hc as [Hc|Hc]; [done|]. rewrite Hc. simpl. by eexists. }
  destruct Hcall as (req & Hcall & ->). eexists. split; [exact Hcall|]. simpl.
  split_and!; try done.
  - destruct (opt_aspectRatio options) as [[|c r]|]; simpl.
    + apply prefix_refl.
    + apply prefix_append.
    + apply prefix_refl.
  - by destruct (opt_aspectRatio options) as [[|c r]|].
  - intros ratio -> Hne. by destruct ratio.
Qed.

Lemma gateway_forwards_the_request_witness :
  let options := mkOptions "QUJD" "image/png" "enhance" (Some "16:9") in
  let h := initHeap (Some "key") in
  ∃ req,
    generateImage_call options h = (Ret (GenAwaitsProvider req), set_genAI true h) ∧
    req_text req
    = String.append "enhance"
        (String "010" (String "010" "Output the image in 16:9 aspect ratio.")).
Proof.
  destruct (gateway_forwards_the_request
              (mkOptions "QUJD" "image/png" "enhance" (Some "16:9"))
              (initHeap (Some "key")) (or_intror eq_refl))
    as (req & Hcall & _ & _ & _ & _ & Htext).
  exists req. split; [exact Hcall|].
  rewrite (Htext "16:9" eq_refl ltac:(discriminate)). reflexivity.
Defined.

(** ** The Task Runner and the end of a run *)

(** X4: when the Gateway returns a success and the store works, the runner
    records it: every row of the task becomes [completed] with the image
    returned (and, for a batch item, its type), no error text, and the elapsed
    time as its duration ([NULL] when that is 0 ms); the rows of other tasks
    are left alone, and the job's completed counter goes up by one while its
    failed counter stays. *)
Theorem gateway_success_is_recorded :
  (∀ batchId item startTime result h,
     faults h = [] → success result = true →
     truthy (image result) = true → truthy (mimeType result) = true →
     let out := batchRunItem batchId item startTime (Ret result) h in
     out.1 = Ret tt ∧
     (∀ n i, batch_items (db h) !! n = Some i →
        if BatchItem.id i =? BatchItem.id item then
          ∃ i', batch_items (db out.2) !! n = Some i' ∧
            BatchItem.status i' = completed ∧
            BatchItem.generated_image i' = image result ∧
            BatchItem.generated_mime_type i' = mimeType result ∧
            BatchItem.error i' = None ∧
            BatchItem.processing_time i' = numOrNull (Some (now h - startTime))
        else batch_items (db out.2) !! n = Some i) ∧
     (∀ n b, batches (db h) !! n = Some b → Batch.id b = batchId →
        ∃ b', batches (db out.2) !! n = Some b' ∧
          Batch.completed_items b' = Batch.completed_items b + 1 ∧
          Batch.failed_items b' = Batch.failed_items b)) ∧
  (∀ jobId slide startTime result h,
     faults h = [] → success result = true → truthy (image result) = true →
     let out := pptxRunSlide jobId slide startTime (Ret result) h in
     out.1 = Ret tt ∧
     (∀ n s, pptx_slides (db h) !! n = Some s →
        if PptxSlide.id s =? PptxSlide.id slide then
          ∃ s', pptx_slides (db out.2) !! n = Some s' ∧
            PptxSlide.status s' = completed ∧
            PptxSlide.beautified_image s' = image result ∧
            PptxSlide.error s' = None ∧
            PptxSlide.processing_time s' = numOrNull (Some (now h - startTime))
        else pptx_slides (db out.2) !! n = Some s) ∧
     (∀ n j, pptx_jobs (db h) !! n = Some j → PptxJob.id j = jobId →
        ∃ j', pptx_jobs (db out.2) !! n = Some j' ∧
          PptxJob.completed_slides j' = PptxJob.completed_slides j + 1 ∧
          PptxJob.failed_slides j' = PptxJob.failed_slides j)).
Proof.
  split.
  - intros batchId item startTime result h Hf Hs Hi Hm out. subst out.
    unfold batchRunItem, tryCatch, bind, await, Date_now, gets.
    rewrite Hs, Hi, Hm. simpl.
    unfold updateBatchItemStatus, incrementBatchCompleted.
    rewrite exec_ok by done. rewrite exec_ok by done. simpl. split_and!; [done|..].
    + intros n i Hn. rewrite sqlUpdate_lookup, Hn. simpl.
      destruct (BatchItem.id i =? BatchItem.id item); [|done].
      eexists. split; [done|]. simpl. unfold orNull. rewrite Hi, Hm. done.
    + intros n b Hn Hid. rewrite sqlUpdate_lookup, Hn. simpl.
      rewrite Hid, Z.eqb_refl. eexists. split; [done|]. simpl. done.
  - intros jobId slide startTime result h Hf Hs Hi out. subst out.
    unfold pptxRunSlide, tryCatch, bind, await, Date_now, gets.
    rewrite Hs, Hi. simpl.
    unfold updatePptxSlideStatus, incrementPptxCompleted.
    rewrite exec_ok by done. rewrite exec_ok by done. simpl. split_and!; [done|..].
    + intros n s Hn. rewrite sqlUpdate_lookup, Hn. simpl.
      destruct (PptxSlide.id s =? PptxSlide.id slide); [|done].
      eexists. split; [done|]. simpl. unfold orNull. rewrite Hi. done.
    + intros n j Hn Hid. rewrite sqlUpdate_lookup, Hn. simpl.
      rewrite Hid, Z.eqb_refl. eexists. split; [done|]. simpl. done.
Qed.

Lemma gateway_success_is_recorded_witness :
  let result := mkResult true (Some "SU1H") (Some "image/png") None None in
  let h := set_env 4200 [] sampleHeap in
  (batchRunItem 1 sampleItem 1000 (Ret result) h).1 = Ret tt ∧
  batch_items (db (batchRunItem 1 sampleItem 1000 (Ret result) h).2)
    = [BatchItem.mk 1 1 "a.png" "QQ==" "image/png" (Some "SU1H") (Some "image/png")
         completed None (Some 3200)].
Proof.
  split.
  - exact (proj1 (proj1 gateway_success_is_recorded 1 sampleItem 1000
                    (mkResult true (Some "SU1H") (Some "image/png") None None)
                    (set_env 4200 [] sampleHeap) eq_refl eq_refl eq_refl eq_refl)).
  - vm_compute. reflexivity.
Defined.

(** X5: when the assembly tool has answered. A deck it returns is stored
    under the job's id and the job becomes [completed]; an exception of the
    tool is caught, the job becomes [failed] and the stored decks are left as
    they were. In both cases the call returns normally and the job leaves
    the registry. If the update to [completed] itself throws, the deck has
    already been stored and the [catch] block marks the job [failed]. *)
Theorem assembly_outcome_is_recorded :
  (∀ jobId pptxBuffer h,
     faults h = [] →
     processPptxJob_afterAssembly jobId (Ret pptxBuffer) h
     = (Ret None,
        set_activeJobs (delete jobId)
          (set_db (Sql.updatePptxJobStatus jobId completed)
             (set_pptxResults <[jobId := pptxBuffer]> h)))) ∧
  (∀ jobId error h,
     faults h = [] →
     processPptxJob_afterAssembly jobId (Throw error) h
     = (Ret None,
        set_activeJobs (delete jobId)
          (set_db (Sql.updatePptxJobStatus jobId failed) h))) ∧
  (∀ jobId pptxBuffer error h,
     faults h = [Some error] →
     let out := processPptxJob_afterAssembly jobId (Ret pptxBuffer) h in
     out.1 = Ret None ∧
     pptxResults out.2 !! jobId = Some pptxBuffer ∧
     db out.2 = Sql.updatePptxJobStatus jobId failed (db h) ∧
     activeJobs out.2 !! jobId = None).
Proof.
  split_and!.
  - intros jobId buf h Hf.
    unfold processPptxJob_afterAssembly, tryFinally, tryCatch, bind, await, modify,
      updatePptxJobStatus, exec, stmt, ret. simpl. rewrite Hf. done.
  - intros jobId e h Hf.
    unfold processPptxJob_afterAssembly, tryFinally, tryCatch, bind, await, modify,
      updatePptxJobStatus, exec, stmt, ret. simpl. rewrite Hf. done.
  - intros jobId buf e h Hf out. subst out.
    unfold processPptxJob_afterAssembly, tryFinally, tryCatch, bind, await, modify,
      updatePptxJobStatus, exec, stmt, ret. simpl. rewrite Hf. simpl.
    split_and!; [done| |done|].
    + apply lookup_insert_eq.
    + apply lookup_delete_eq.
Qed.

Lemma assembly_outcome_is_recorded_witness :
  let h := set_activeJobs <[1 := true]> sampleHeap in
  let out := processPptxJob_afterAssembly 1 (Throw (JsError "out of memory")) h in
  out.1 = Ret None ∧ pptxResults out.2 = ∅ ∧ activeJobs out.2 !! 1 = None ∧
  map PptxJob.status (pptx_jobs (db out.2)) = [failed].
Proof.
  cbv zeta.
  rewrite (proj1 (proj2 assembly_outcome_is_recorded) 1 (JsError "out of memory")
             (set_activeJobs <[1 := true]> sampleHeap) eq_refl).
  split_and!; [reflexivity|reflexivity|apply lookup_delete_eq|reflexivity].
Defined.

(** ** What the reachable states add *)

(** X6: in every state the server reaches with a store that works, the
    counters of a job are exact: the total is the number of its task rows,
    the completed counter the number of those that are [completed] or
    [failed], the failed counter the number of those that are [failed]. *)
Theorem counters_count_the_rows :
  ∀ w, reachable w →
    (∀ b, b ∈ batches (db (heap w)) →
       let mine := λ i, BatchItem.batch_id i =? Batch.id b in
       Batch.total_items b = countIf mine (batch_items (db (heap w))) ∧
       Batch.completed_items b
         = countIf (λ i, mine i && isTerminalStatus (BatchItem.status i))
             (batch_items (db (heap w))) ∧
       Batch.failed_items b
         = countIf (λ i, mine i && bool_decide (BatchItem.status i = failed))
             (batch_items (db (heap w)))) ∧
    (∀ j, j ∈ pptx_jobs (db (heap w)) →
       let mine := λ s, PptxSlide.job_id s =? PptxJob.id j in
       PptxJob.total_slides j = countIf mine (pptx_slides (db (heap w))) ∧
       PptxJob.completed_slides j
         = countIf (λ s, mine s && isTerminalStatus (PptxSlide.status s))
             (pptx_slides (db (heap w))) ∧
       PptxJob.failed_slides j
         = countIf (λ s, mine s && bool_decide (PptxSlide.status s = failed))
             (pptx_slides (db (heap w)))).
Proof.
  intros w Hw. apply reachable_inv in Hw as [[Hb _] [Hp _]]. split.
  - intros b Hin. exact (ti_counted _ _ _ _ _ Hb b Hin).
  - intros j Hin. exact (ti_counted _ _ _ _ _ Hp j Hin).
Qed.

Lemma counters_count_the_rows_witness :
  reachable retryWorld ∧
  Forall (λ b, Batch.total_items b
               = countIf (λ i, BatchItem.batch_id i =? Batch.id b)
                   (batch_items (db (heap retryWorld))))
    (batches (db (heap retryWorld))).
Proof.
  split; [exact retryWorld_reachable|]. apply Forall_forall. intros b Hb.
  exact (proj1 (proj1 (counters_count_the_rows retryWorld retryWorld_reachable) b Hb)).
Defined.

(** X7: in every such state a task that a suspended processor call is
    waiting for the Gateway on is a [processing] row of the call's job, and
    no two suspended calls wait on the same task: no task is ever generated
    twice at a time. *)
Theorem no_task_is_run_twice_at_a_time :
  ∀ w, reachable w →
    (∀ pid batchId batch item t g,
       procs w !! pid = Some (Some (BatchAwaitGenerate batchId batch item t g)) →
       (∃ row, row ∈ batch_items (db (heap w)) ∧
               BatchItem.id row = BatchItem.id item ∧
               BatchItem.batch_id row = batchId ∧
               BatchItem.status row = processing) ∧
       ∀ pid' batchId' batch' item' t' g',
         procs w !! pid' = Some (Some (BatchAwaitGenerate batchId' batch' item' t' g')) →
         BatchItem.id item' = BatchItem.id item → pid' = pid) ∧
    (∀ pid jobId job slide t g,
       procs w !! pid = Some (Some (PptxAwaitGenerate jobId job slide t g)) →
       (∃ row, row ∈ pptx_slides (db (heap w)) ∧
               PptxSlide.id row = PptxSlide.id slide ∧
               PptxSlide.job_id row = jobId ∧
               PptxSlide.status row = processing) ∧
       ∀ pid' jobId' job' slide' t' g',
         procs w !! pid' = Some (Some (PptxAwaitGenerate jobId' job' slide' t' g')) →
         PptxSlide.id slide' = PptxSlide.id slide → pid' = pid).
Proof.
  intros w Hw. apply reachable_inv in Hw as [[_ Hb] [_ Hp]]. split.
  - intros pid batchId batch item t g Hpid. split.
    + exact (pi_row _ _ _ _ Hb pid _ batchId (BatchItem.id item) Hpid eq_refl).
    + intros pid' batchId' batch' item' t' g' Hpid' Hid.
      apply (pi_inj _ _ _ _ Hb pid' pid _ _ batchId' batchId (BatchItem.id item)
               Hpid' Hpid); simpl; congruence.
  - intros pid jobId job slide t g Hpid. split.
    + exact (pi_row _ _ _ _ Hp pid _ jobId (PptxSlide.id slide) Hpid eq_refl).
    + intros pid' jobId' job' slide' t' g' Hpid' Hid.
      apply (pi_inj _ _ _ _ Hp pid' pid _ _ jobId' jobId (PptxSlide.id slide)
               Hpid' Hpid); simpl; congruence.
Qed.

Lemma no_task_is_run_twice_at_a_time_witness :
  reachable retryWorld ∧
  (∃ batch item t g,
     procs retryWorld !! 1%nat = Some (Some (BatchAwaitGenerate 1 batch item t g)) ∧
     ∃ row, row ∈ batch_items (db (heap retryWorld)) ∧
            BatchItem.id row = BatchItem.id item ∧
            BatchItem.batch_id row = 1 ∧
            BatchItem.status row = processing).
Proof.
  split; [exact retryWorld_reachable|].
  assert (H : ∃ batch item t g,
            procs retryWorld !! 1%nat
            = Some (Some (BatchAwaitGenerate 1 batch item t g)))
    by (eexists _, _, _, _; vm_compute; reflexivity).
  destruct H as (batch & item & t & g & H).
  exists batch, item, t, g. split; [exact H|].
  exact (proj1 (proj1 (no_task_is_run_twice_at_a_time retryWorld retryWorld_reachable)
                  1%nat 1 batch item t g H)).
Defined.

Lemma countIf_and_all {A} (p q : A → bool) (rows : list A) :
  countIf (λ r, p r && q r) rows = countIf p rows ↔
  ∀ r, r ∈ rows → p r = true → q r = true.
Proof.
  induction rows as [|x rows IH].
  - split; [intros _ r Hr; by apply elem_of_nil in Hr|done].
  - rewrite !countIf_cons.
    assert (Hle : countIf (λ r, p r && q r) rows ≤ countIf p rows).
    { apply countIf_le. intros r Hr. by apply andb_true_iff in Hr as [-> _]. }
    split.
    + intros Heq r Hr Hp. apply elem_of_cons in Hr as [->|Hr].
      * rewrite Hp in Heq. destruct (q x); [done|]. simpl in Heq. lia.
      * apply IH; [|done..]. destruct (p x), (q x); simpl in Heq; lia.
    + intros Hall.
      assert (Hrows : countIf (λ r, p r && q r) rows = countIf p rows).
      { apply IH. intros r Hr. apply Hall. by right. }
      rewrite Hrows. destruct (p x) eqn:Hp; [|done].
      rewrite (Hall x); [done|by left|done].
Qed.

Lemma forallb_orderBy_filter {A} (f p : A → bool) (key : A → Z) (rows : list A) :
  forallb f (orderBy key (List.filter p rows)) = true ↔
  ∀ r, r ∈ rows → p r = true → f r = true.
Proof.
  rewrite forallb_forall. split.
  - intros H r Hr Hp. apply H. rewrite <- list_elem_of_In.
    apply orderBy_elem, elem_of_List_filter. done.
  - intros H r Hr. rewrite <- list_elem_of_In in Hr.
    apply orderBy_elem, elem_of_List_filter in Hr as [Hr Hp]. by apply H.
Qed.

(** X8: how a run ends, in every such state. When no pending item is left
    (or the cancellation is seen), a batch is marked [failed] if every one of
    its items is [failed], and [completed] otherwise, pending items or not.
    A deck job is marked [failed], and nothing is assembled, if every one of
    its slides is [failed]; otherwise it is marked [assembling] and the call
    suspends in the assembly tool with the slides of [assembleSlides]. *)
Theorem how_a_run_ends :
  ∀ w, reachable w →
    (∀ id batch tm,
       Sql.getBatch id (db (heap w)) = Some batch →
       let h := set_env tm [] (heap w) in
       let allFailed :=
         forallb (λ i, bool_decide (BatchItem.status i = failed))
           (Sql.getBatchItems id (db (heap w))) in
       batchFinalStatus id h
       = (Ret tt,
          set_db (Sql.updateBatchStatus id (if allFailed then failed else completed)) h)) ∧
    (∀ id job tm,
       Sql.getPptxJob id (db (heap w)) = Some job →
       let h := set_env tm [] (heap w) in
       let allFailed :=
         forallb (λ s, bool_decide (PptxSlide.status s = failed))
           (Sql.getPptxSlides id (db (heap w))) in
       pptxFinal id h
       = if allFailed
         then (Ret None, set_db (Sql.updatePptxJobStatus id failed) h)
         else (Ret (Some (PptxAwaitAssembly id job
                            (assembleSlides (Sql.getPptxSlides id (db (heap w)))))),
               set_db (Sql.updatePptxJobStatus id assembling) h)).
Proof.
  intros w Hw. apply reachable_inv in Hw as [[Hb _] [Hp _]]. split.
  - intros id batch tm Hget h allFailed.
    assert (Hf : faults h = []) by done.
    unfold batchFinalStatus, bind, getBatch. rewrite query_ok by done.
    change (db h) with (db (heap w)). rewrite Hget.
    apply sqlGet_Some in Hget as [Hin Hid]. apply Z.eqb_eq in Hid.
    destruct (ti_counted _ _ _ _ _ Hb batch Hin) as (Ht & _ & Hfl). simpl in Ht, Hfl.
    assert (Htest : (Batch.failed_items batch =? Batch.total_items batch) = allFailed).
    { apply eq_true_iff_eq. rewrite Z.eqb_eq, Ht, Hfl, countIf_and_all.
      unfold allFailed, Sql.getBatchItems. rewrite forallb_orderBy_filter.
      by rewrite Hid. }
    rewrite Htest. unfold updateBatchStatus.
    destruct allFailed; rewrite exec_ok by done; done.
  - intros id job tm Hget h allFailed.
    assert (Hf : faults h = []) by done.
    unfold pptxFinal, bind, getPptxJob. rewrite query_ok by done.
    change (db h) with (db (heap w)). rewrite Hget.
    apply sqlGet_Some in Hget as [Hin Hid]. apply Z.eqb_eq in Hid.
    destruct (ti_counted _ _ _ _ _ Hp job Hin) as (Ht & _ & Hfl). simpl in Ht, Hfl.
    assert (Htest : (PptxJob.failed_slides job =? PptxJob.total_slides job) = allFailed).
    { apply eq_true_iff_eq. rewrite Z.eqb_eq, Ht, Hfl, countIf_and_all.
      unfold allFailed, Sql.getPptxSlides. rewrite forallb_orderBy_filter.
      by rewrite Hid. }
    rewrite Htest. unfold updatePptxJobStatus, tryCatch, getPptxSlides.
    destruct allFailed.
    + rewrite exec_ok by done. done.
    + rewrite exec_ok by done. unfold bind. rewrite query_ok by done. done.
Qed.

Lemma how_a_run_ends_witness :
  reachable retryWorld ∧
  batchFinalStatus 1 (set_env 9500 [] (heap retryWorld))
  = (Ret tt,
     set_db (Sql.updateBatchStatus 1
               (if forallb (λ i, bool_decide (BatchItem.status i = failed))
                     (Sql.getBatchItems 1 (db (heap retryWorld)))
                then failed else completed))
       (set_env 9500 [] (heap retryWorld))) ∧
  forallb (λ i, bool_decide (BatchItem.status i = failed))
    (Sql.getBatchItems 1 (db (heap retryWorld))) = false.
Proof.
  split; [exact retryWorld_reachable|].
  assert (H : Sql.getBatch 1 (db (heap retryWorld))
              = Some (Batch.mk 1 processing 2 1 0 "enhance" None None false))
    by (vm_compute; reflexivity).
  split; [|vm_compute; reflexivity].
  exact (proj1 (how_a_run_ends retryWorld retryWorld_reachable) 1 _ 9500 H).
Defined.

(** ** What every turn keeps, whatever the store does *)

Lemma preserves_tryFinally (P : Heap → Prop) (m : M (option Susp)) (cleanup : Heap → Heap) :
  preserves P m → (∀ h, P h → P (cleanup h)) → preserves P (tryFinally m cleanup).
Proof.
  intros Hm Hc h H. unfold tryFinally. specialize (Hm h H).
  destruct (m h) as [[[k|]|e] h']; simpl in *; auto.
Qed.

Section Closed.
Context (J : DB → Prop) (HJ : StmtClosed J).

Local Ltac leaf :=
  first
    [ apply preserves_tryFinally; [|by intros ? ?]
    | apply preserves_modify; by intros ? ?
    | apply preserves_stmt_db; intros ? ?;
      first [ assumption
            | by apply (sc_insertBatch J HJ)
            | by apply (sc_insertBatchItem J HJ)
            | by apply (sc_updateBatchStatus J HJ)
            | by apply (sc_updateBatchItemStatus J HJ)
            | by apply (sc_incrementBatchCompleted J HJ)
            | by apply (sc_resetBatchItem J HJ)
            | by apply (sc_decrementBatchFailed J HJ)
            | by apply (sc_insertPptxJob J HJ)
            | by apply (sc_insertPptxSlide J HJ)
            | by apply (sc_updatePptxJobStatus J HJ)
            | by apply (sc_updatePptxSlideStatus J HJ)
            | by apply (sc_incrementPptxCompleted J HJ)
            | by apply (sc_resetPptxSlide J HJ)
            | by apply (sc_decrementPptxFailed J HJ) ] ].

Local Ltac open_code :=
  unfold batchRouter_post, batchRouter_retry, batchRouter_cancel,
    pptxRouter_beautify, pptxRouter_retry, pptxRouter_cancel, fireAndForget,
    processBatch, processBatch_afterGenerate, processBatch_afterTimer,
    processPptxJob, processPptxJob_afterGenerate, processPptxJob_afterTimer,
    processPptxJob_afterAssembly,
    batchWhile, batchRunItem, batchFinalStatus, pptxWhile, pptxRunSlide, pptxFinal,
    isProcessingBatch, cancelBatch, isProcessingPptxJob, cancelPptxJob,
    generateImage_call, getClient, createBatch, createPptxJob,
    getBatch, getBatchItems, getBatchItem, getNextPendingBatchItem,
    updateBatchStatus, updateBatchItemStatus, incrementBatchCompleted,
    resetBatchItem, decrementBatchFailed,
    getPptxJob, getPptxSlides, getPptxSlide, getNextPendingPptxSlide,
    updatePptxJobStatus, updatePptxSlideStatus, incrementPptxCompleted,
    resetPptxSlide, decrementPptxFailed, Date_now, query, exec.

Lemma handle_closed r : preserves (λ h, J (db h)) (handle r).
Proof using HJ.
  destruct r; simpl; open_code; preserves_with leaf.
Qed.

Lemma resume_closed k s m :
  resume k s = Some m → preserves (λ h, J (db h)) m.
Proof using HJ.
  destruct k, s; simpl; intros [= <-]; open_code; preserves_with leaf.
Qed.

Lemma step_closed t w : J (db (heap w)) → J (db (heap (step t w))).
Proof using HJ.
  intros H. rewrite step_eq. simpl. destruct (event t) as [r|pid s]; simpl.
  - by apply (handle_closed r (set_env (time t) (plan t) (heap w))).
  - destruct (procs w !! pid) as [[k|]|]; try done.
    destruct (resume k s) as [m|] eqn:Hm; try done. simpl.
    by apply (resume_closed k s m Hm (set_env (time t) (plan t) (heap w))).
Qed.

Lemma evolves_closed w w' : evolves w w' → J (db (heap w)) → J (db (heap w')).
Proof using HJ.
  induction 1 as [|t w' _ IH|apiKey w' _ IH]; intros H; [done|..].
  - apply step_closed. by apply IH.
  - simpl. by apply IH.
Qed.
End Closed.

Lemma evolves_run ts w0 w : evolves w0 w → evolves w0 (run ts w).
Proof.
  unfold run. revert w. induction ts as [|t ts IH]; intros w H; [done|].
  simpl. apply IH. by apply evolves_step.
Qed.

Lemma rowsKept_update {A B} (inputs : A → B) (p : A → bool) (f : A → A) rows0 rows :
  (∀ r, inputs (f r) = inputs r) →
  rowsKept inputs rows0 rows → rowsKept inputs rows0 (sqlUpdate p f rows).
Proof.
  intros Hf H n r Hn. destruct (H n r Hn) as (r' & Hn' & Hr').
  rewrite sqlUpdate_lookup, Hn'. simpl. eexists. split; [done|].
  destruct (p r'); [by rewrite Hf|done].
Qed.

Lemma rowsKept_app {A B} (inputs : A → B) rows0 rows new :
  rowsKept inputs rows0 rows → rowsKept inputs rows0 (rows ++ new).
Proof.
  intros H n r Hn. destruct (H n r Hn) as (r' & Hn' & Hr').
  exists r'. split; [|done]. by apply lookup_app_l_Some.
Qed.

Lemma tablesKept_closed d0 : StmtClosed (tablesKept d0).
Proof.
  constructor; intros;
    try match goal with b : bool |- _ => destruct b end;
    match goal with H : tablesKept _ _ |- _ => destruct H as (Hb & Hi & Hj & Hs) end;
    split_and!; simpl; try done;
    first [ by apply rowsKept_app | by apply rowsKept_update ].
Qed.

Lemma tablesKept_refl d : tablesKept d d.
Proof. split_and!; intros n r Hn; eauto. Qed.

(** X9: whatever happens between two states of the server (requests,
    answers of the Gateway, timers, statements that throw, restarts), no row
    of any table is deleted or moved, and no row loses what was submitted:
    a batch keeps its id, total, prompt, preset and aspect ratio; an item its
    id, batch, file name, image and type; a deck job its id, file name,
    total, prompt, preset and aspect ratio; a slide its id, job, number and
    original image. *)
Theorem submitted_data_is_never_lost :
  ∀ w w', evolves w w' → tablesKept (db (heap w)) (db (heap w')).
Proof.
  intros w w' H.
  apply (evolves_closed _ (tablesKept_closed (db (heap w))) w w' H).
  apply tablesKept_refl.
Qed.

Lemma submitted_data_is_never_lost_witness :
  let w := run [mkTick (Http (PostBatch twoItems)) 1000 []] (initWorld (Some "key")) in
  let w' := run (skipn 1 storeFailureTrace) w in
  evolves w w' ∧
  rowsKept itemInputs (batch_items (db (heap w))) (batch_items (db (heap w'))).
Proof.
  split; [apply evolves_run, evolves_refl|].
  exact (proj1 (proj2 (submitted_data_is_never_lost _ _
                         (evolves_run (skipn 1 storeFailureTrace) _ _ (evolves_refl _))))).
Defined.

Lemma stampedWhenOver_closed : StmtClosed stampedWhenOver.
Proof.
  constructor; intros;
    try match goal with b : bool |- _ => destruct b end;
    match goal with H : stampedWhenOver _ |- _ => destruct H as (Hb & Hj) end;
    split; simpl; try done; intros r Hr;
    first
      [ apply elem_of_sqlUpdate in Hr as (r0 & Hr0 & ->);
        first [ specialize (Hb r0 Hr0) | specialize (Hj r0 Hr0) ];
        by case_match
      | apply elem_of_app in Hr as [Hr| ->%list_elem_of_singleton]; [by auto|done] ].
Qed.

(** X10: in every state reached from start-up, whatever the store does, a
    batch or a deck job has its [completed_at] time stamp exactly when its
    status is [completed] or [failed]. *)
Theorem completion_stamp_follows_status :
  ∀ apiKey w, evolves (initWorld apiKey) w → stampedWhenOver (db (heap w)).
Proof.
  intros apiKey w H.
  apply (evolves_closed _ stampedWhenOver_closed _ w H).
  split; intros r Hr; by apply elem_of_nil in Hr.
Qed.

Lemma completion_stamp_follows_status_witness :
  evolves (initWorld (Some "key")) (run storeFailureTrace (initWorld (Some "key"))) ∧
  stampedWhenOver (db (heap (run storeFailureTrace (initWorld (Some "key"))))).
Proof.
  split; [apply evolves_run, evolves_refl|].
  exact (completion_stamp_follows_status _ _
           (evolves_run storeFailureTrace _ _ (evolves_refl _))).
Defined.

(** ** Creation and the routes *)

Lemma sqlGet_app_new {A} (p : A → bool) (rows : list A) (r : A) :
  (∀ x, x ∈ rows → p x = false) →
  sqlGet p (rows ++ [r]) = if p r then Some r else None.
Proof.
  intros H. unfold sqlGet. induction rows as [|x rows IH]; simpl; [done|].
  rewrite (H x) by left. apply IH. intros y Hy. apply H. by right.
Qed.

Lemma sqlGet_app_other {A} (p : A → bool) (rows : list A) (r : A) :
  p r = false → sqlGet p (rows ++ [r]) = sqlGet p rows.
Proof.
  intros H. unfold sqlGet. induction rows as [|x rows IH]; simpl; [by rewrite H|].
  by destruct (p x).
Qed.

Lemma filter_none {A} (p : A → bool) (rows : list A) :
  (∀ x, x ∈ rows → p x = false) → List.filter p rows = [].
Proof.
  induction rows as [|x rows IH]; intros H; simpl; [done|].
  rewrite (H x) by left. apply IH. intros y Hy. apply H. by right.
Qed.

Lemma filter_all {A} (p : A → bool) (rows : list A) :
  (∀ x, x ∈ rows → p x = true) → List.filter p rows = rows.
Proof.
  induction rows as [|x rows IH]; intros H; simpl; [done|].
  rewrite (H x) by left. f_equal. apply IH. intros y Hy. apply H. by right.
Qed.

(** Rows already in strictly increasing key order come back as they are. *)
Lemma orderBy_increasing {A} (key : A → Z) (rows : list A) :
  StronglySorted (λ a b, key a < key b) rows → orderBy key rows = rows.
Proof.
  intros Hinc.
  assert (Hgen : ∀ l, l ≡ₚ rows → StronglySorted (keyLe key) l → l = rows).
  { induction Hinc as [|x rows Hrows IH Hx]; intros l Hp Hs.
    - by apply Permutation_nil_r in Hp.
    - destruct l as [|y l]; [by apply Permutation_nil_cons in Hp|].
      apply StronglySorted_inv in Hs as [Hs Hy].
      rewrite Forall_forall in Hx, Hy.
      assert (y = x) as ->.
      { assert (Hyin : y ∈ x :: rows) by (rewrite <- Hp; left).
        apply elem_of_cons in Hyin as [->|Hyin]; [done|].
        assert (Hxin : x ∈ y :: l) by (rewrite Hp; left).
        apply elem_of_cons in Hxin as [->|Hxin]; [done|].
        specialize (Hx y Hyin). specialize (Hy x Hxin). unfold keyLe in Hy. lia. }
      f_equal. apply IH; [|done]. by apply Permutation_cons_inv in Hp. }
  apply Hgen; [apply orderBy_Permutation | apply orderBy_sorted].
Qed.

Lemma newItemRows_increasing bid seq items :
  StronglySorted (λ a b, BatchItem.id a < BatchItem.id b) (newItemRows bid seq items).
Proof.
  revert seq. induction items as [|item items IH]; intros seq; simpl; constructor.
  - apply IH.
  - apply Forall_forall. intros r Hr. apply newItemRows_spec in Hr. simpl. lia.
Qed.

Lemma newItemRows_fields bid seq items :
  map (λ i, (BatchItem.filename i, BatchItem.original_image i,
             BatchItem.original_mime_type i, BatchItem.status i,
             BatchItem.generated_image i)) (newItemRows bid seq items)
  = map (λ x, (in_filename x, in_image x, in_mimeType x, pending, None)) items.
Proof. revert seq. induction items as [|x items IH]; intros seq; simpl; [done|]. by rewrite IH. Qed.

Lemma newSlideRows_fields jid seq slides :
  map (λ s, (PptxSlide.slide_number s, PptxSlide.original_image s,
             PptxSlide.status s, PptxSlide.beautified_image s))
    (newSlideRows jid seq slides)
  = map (λ x, (in_slideNumber x, in_imageData x, pending, None)) slides.
Proof. revert seq. induction slides as [|x slides IH]; intros seq; simpl; [done|]. by rewrite IH. Qed.

(** X11: a job created in a state the server has reached, with a store that
    works, reads back as submitted. [createBatch] returns a fresh id under
    which [getBatch] finds a [pending] batch with the number of items as its
    total and both counters 0, and [getBatchItems] returns the submitted
    items, in the order submitted, all [pending] and without output; what is
    read under any other id is unchanged. The same holds for
    [createPptxJob], [getPptxJob] and [getPptxSlides], which returns the
    submitted slides sorted by slide number. *)
Theorem created_job_reads_back :
  ∀ w, reachable w →
    (∀ input tm,
       let h := set_env tm [] (heap w) in
       let id := seq_batches (db h) + 1 in
       ∃ h', createBatch input h = (Ret id, h') ∧
         Sql.getBatch id (db h')
         = Some (Batch.mk id pending (Z.of_nat (length (cb_items input))) 0 0
                   (cb_prompt input) (orNull (cb_preset input))
                   (orNull (cb_aspectRatio input)) false) ∧
         map (λ i, (BatchItem.filename i, BatchItem.original_image i,
                    BatchItem.original_mime_type i, BatchItem.status i,
                    BatchItem.generated_image i)) (Sql.getBatchItems id (db h'))
         = map (λ x, (in_filename x, in_image x, in_mimeType x, pending, None))
             (cb_items input) ∧
         ∀ id', id' ≠ id →
           Sql.getBatch id' (db h') = Sql.getBatch id' (db h) ∧
           Sql.getBatchItems id' (db h') = Sql.getBatchItems id' (db h)) ∧
    (∀ input tm,
       let h := set_env tm [] (heap w) in
       let id := seq_pptx_jobs (db h) + 1 in
       ∃ h', createPptxJob input h = (Ret id, h') ∧
         Sql.getPptxJob id (db h')
         = Some (PptxJob.mk id pending (cp_filename input)
                   (Z.of_nat (length (cp_slides input))) 0 0
                   (cp_prompt input) (orNull (cp_preset input))
                   (orNull (cp_aspectRatio input)) false) ∧
         map (λ s, (PptxSlide.slide_number s, PptxSlide.original_image s,
                    PptxSlide.status s, PptxSlide.beautified_image s))
           (Sql.getPptxSlides id (db h'))
         ≡ₚ map (λ x, (in_slideNumber x, in_imageData x, pending, None))
              (cp_slides input) ∧
         StronglySorted (keyLe PptxSlide.slide_number) (Sql.getPptxSlides id (db h')) ∧
         ∀ id', id' ≠ id →
           Sql.getPptxJob id' (db h') = Sql.getPptxJob id' (db h) ∧
           Sql.getPptxSlides id' (db h') = Sql.getPptxSlides id' (db h)).
Proof.
  intros w Hw. apply reachable_inv in Hw as [[Hb _] [Hp _]]. split.
  - intros input tm h id. eexists. split; [by apply createBatch_ok|].
    change (db h) with (db (heap w)) in *. set (d := db (heap w)) in *.
    change (db (set_db (createBatchRows input) h)) with (createBatchRows input d).
    unfold createBatchRows. rewrite insertBatchItems_eq. simpl.
    fold id. set (new := newItemRows id (seq_batch_items d) (cb_items input)).
    assert (Hold : ∀ b, b ∈ batches d → (Batch.id b =? id) = false).
    { intros b Hin. apply (ti_job_seq _ _ _ _ _ Hb) in Hin. simpl in Hin.
      apply Z.eqb_neq. unfold id. lia. }
    assert (Holdi : ∀ i, i ∈ batch_items d → (BatchItem.batch_id i =? id) = false).
    { intros i Hin. apply (ti_task_seq _ _ _ _ _ Hb) in Hin. simpl in Hin.
      apply Z.eqb_neq. unfold id. lia. }
    assert (Hnew : ∀ i, i ∈ new → BatchItem.batch_id i = id).
    { intros i Hin. by apply newItemRows_spec in Hin as (_ & ? & _). }
    split_and!.
    + unfold Sql.getBatch. simpl. rewrite sqlGet_app_new by done. simpl.
      by rewrite Z.eqb_refl.
    + unfold Sql.getBatchItems. simpl. rewrite List.filter_app.
      rewrite (filter_none _ (batch_items d)) by done.
      rewrite filter_all by (intros i Hi; rewrite (Hnew i Hi); apply Z.eqb_refl).
      simpl. rewrite orderBy_increasing by apply newItemRows_increasing.
      apply newItemRows_fields.
    + intros id' Hne. split.
      * unfold Sql.getBatch. simpl. apply sqlGet_app_other. simpl.
        apply Z.eqb_neq. done.
      * unfold Sql.getBatchItems. simpl. rewrite List.filter_app.
        rewrite (filter_none _ new), app_nil_r; [done|].
        intros i Hi. rewrite (Hnew i Hi). by apply Z.eqb_neq.
  - intros input tm h id. eexists. split; [by apply createPptxJob_ok|].
    change (db h) with (db (heap w)) in *. set (d := db (heap w)) in *.
    change (db (set_db (createPptxRows input) h)) with (createPptxRows input d).
    unfold createPptxRows. rewrite insertPptxSlides_eq. simpl.
    fold id. set (new := newSlideRows id (seq_pptx_slides d) (cp_slides input)).
    assert (Hold : ∀ j, j ∈ pptx_jobs d → (PptxJob.id j =? id) = false).
    { intros j Hin. apply (ti_job_seq _ _ _ _ _ Hp) in Hin. simpl in Hin.
      apply Z.eqb_neq. unfold id. lia. }
    assert (Holds : ∀ s, s ∈ pptx_slides d → (PptxSlide.job_id s =? id) = false).
    { intros s Hin. apply (ti_task_seq _ _ _ _ _ Hp) in Hin. simpl in Hin.
      apply Z.eqb_neq. unfold id. lia. }
    assert (Hnew : ∀ s, s ∈ new → PptxSlide.job_id s = id).
    { intros s Hin. by apply newSlideRows_spec in Hin as (_ & ? & _). }
    assert (Hread : Sql.getPptxSlides id
                      (mkDB (batches d) (batch_items d)
                         (pptx_jobs d ++ [PptxJob.mk id pending (cp_filename input)
                            (Z.of_nat (length (cp_slides input))) 0 0 (cp_prompt input)
                            (orNull (cp_preset input)) (orNull (cp_aspectRatio input)) false])
                         (pptx_slides d ++ new) (seq_batches d) (seq_batch_items d) id
                         (seq_pptx_slides d + Z.of_nat (length (cp_slides input))))
                    = orderBy PptxSlide.slide_number new).
    { unfold Sql.getPptxSlides. simpl. rewrite List.filter_app.
      rewrite (filter_none _ (pptx_slides d)) by done.
      rewrite filter_all by (intros s Hs; rewrite (Hnew s Hs); apply Z.eqb_refl).
      done. }
    split_and!.
    + unfold Sql.getPptxJob. simpl. rewrite sqlGet_app_new by done. simpl.
      by rewrite Z.eqb_refl.
    + rewrite Hread.
      rewrite <- (newSlideRows_fields id (seq_pptx_slides d) (cp_slides input)).
      apply Permutation_map, orderBy_Permutation.
    + rewrite Hread. apply orderBy_sorted.
    + intros id' Hne. split.
      * unfold Sql.getPptxJob. simpl. apply sqlGet_app_other. simpl.
        apply Z.eqb_neq. done.
      * unfold Sql.getPptxSlides. simpl. rewrite List.filter_app.
        rewrite (filter_none _ new), app_nil_r; [done|].
        intros s Hs. rewrite (Hnew s Hs). by apply Z.eqb_neq.
Qed.

Lemma created_job_reads_back_witness :
  reachable retryWorld ∧
  ∃ h', createBatch twoItems (set_env 9900 [] (heap retryWorld))
        = (Ret (seq_batches (db (set_env 9900 [] (heap retryWorld))) + 1), h') ∧
    map (λ i, (BatchItem.filename i, BatchItem.original_image i,
               BatchItem.original_mime_type i, BatchItem.status i,
               BatchItem.generated_image i))
      (Sql.getBatchItems (seq_batches (db (set_env 9900 [] (heap retryWorld))) + 1)
         (db h'))
    = map (λ x, (in_filename x, in_image x, in_mimeType x, pending, None))
        (cb_items twoItems).
Proof.
  split; [exact retryWorld_reachable|].
  destruct (proj1 (created_job_reads_back retryWorld retryWorld_reachable) twoItems 9900)
    as (h' & Hcreate & _ & Hitems & _).
  exists h'. split; [exact Hcreate | exact Hitems].
Defined.

(** What the first stretch of a processor call writes: job statuses, and
    [processing] on one task. *)
Lemma processBatch_keeps (J : DB → Prop) batchId :
  (∀ id status d, J d → J (Sql.updateBatchStatus id status d)) →
  (∀ id d, J d → J (Sql.updateBatchItemStatus id processing None d)) →
  preserves (λ h, J (db h)) (processBatch batchId).
Proof.
  intros H1 H2.
  unfold processBatch, batchWhile, batchFinalStatus, generateImage_call, getClient,
    getBatch, getNextPendingBatchItem, updateBatchStatus, updateBatchItemStatus,
    Date_now, query, exec.
  preserves_with ltac:(first
    [ apply preserves_tryFinally; [|by intros ? ?]
    | apply preserves_modify; by intros ? ?
    | apply preserves_stmt_db; intros ? ?;
      first [assumption | by apply H1 | by apply H2] ]).
Qed.

Lemma processPptxJob_keeps (J : DB → Prop) jobId :
  (∀ id status d, J d → J (Sql.updatePptxJobStatus id status d)) →
  (∀ id d, J d → J (Sql.updatePptxSlideStatus id processing None d)) →
  preserves (λ h, J (db h)) (processPptxJob jobId).
Proof.
  intros H1 H2.
  unfold processPptxJob, pptxWhile, pptxFinal, generateImage_call, getClient,
    getPptxJob, getPptxSlides, getNextPendingPptxSlide, updatePptxJobStatus,
    updatePptxSlideStatus, Date_now, query, exec.
  preserves_with ltac:(first
    [ apply preserves_tryFinally; [|by intros ? ?]
    | apply preserves_modify; by intros ? ?
    | apply preserves_stmt_db; intros ? ?;
      first [assumption | by apply H1 | by apply H2] ]).
Qed.

Lemma fireAndForget_returns call h : ∃ p, (fireAndForget call h).1 = Ret p.
Proof.
  unfold fireAndForget, tryCatch, ret. destruct (call h) as [[p|e] h']; eauto.
Qed.

Lemma fireAndForget_keeps (P : Heap → Prop) call :
  preserves P call → preserves P (fireAndForget call).
Proof. intros H. apply preserves_tryCatch; [done|]. intros e. apply preserves_ret. Qed.

(** X12: the retry routes, with a store that works. A request for a task
    that does not exist, belongs to another job or is not [failed] is
    answered 404 or 400 and changes nothing. Any other request is answered
    200; when the handler returns, the task has no output and no error text
    and is [pending] or already [processing], every row of its job has both
    counters one lower, and the rows of other jobs have their counters as
    before. *)
Theorem retry_is_guarded :
  (∀ batchId itemId h,
     faults h = [] →
     let out := batchRouter_retry batchId itemId h in
     if retryEligibleItem batchId itemId (db h) then
       (∃ p, out.1 = Ret (200, p)) ∧
       (∀ i, i ∈ batch_items (db out.2) → BatchItem.id i = itemId → itemAwaitsRun i) ∧
       (∀ n b, batches (db h) !! n = Some b →
          ∃ b', batches (db out.2) !! n = Some b' ∧ Batch.id b' = Batch.id b ∧
            Batch.completed_items b'
              = Batch.completed_items b - (if Batch.id b =? batchId then 1 else 0) ∧
            Batch.failed_items b'
              = Batch.failed_items b - (if Batch.id b =? batchId then 1 else 0))
     else
       (out.1 = Ret (404, None) ∨ out.1 = Ret (400, None)) ∧ out.2 = h) ∧
  (∀ jobId slideId h,
     faults h = [] →
     let out := pptxRouter_retry jobId slideId h in
     if retryEligibleSlide jobId slideId (db h) then
       (∃ p, out.1 = Ret (200, p)) ∧
       (∀ s, s ∈ pptx_slides (db out.2) → PptxSlide.id s = slideId → slideAwaitsRun s) ∧
       (∀ n j, pptx_jobs (db h) !! n = Some j →
          ∃ j', pptx_jobs (db out.2) !! n = Some j' ∧ PptxJob.id j' = PptxJob.id j ∧
            PptxJob.completed_slides j'
              = PptxJob.completed_slides j - (if PptxJob.id j =? jobId then 1 else 0) ∧
            PptxJob.failed_slides j'
              = PptxJob.failed_slides j - (if PptxJob.id j =? jobId then 1 else 0))
     else
       (out.1 = Ret (404, None) ∨ out.1 = Ret (400, None)) ∧ out.2 = h).
Proof.
  split.
  - intros batchId itemId h Hf out. subst out.
    unfold retryEligibleItem, batchRouter_retry, getBatch, getBatchItem.
    rewrite bind_query_ok by done. rewrite bind_query_ok by done.
    destruct (Sql.getBatch batchId (db h)) as [batch|];
      [|destruct (Sql.getBatchItem itemId (db h)); by split; [left|]].
    destruct (Sql.getBatchItem itemId (db h)) as [item|]; [|by split; [left|]].
    destruct (BatchItem.batch_id item =? batchId); simpl; [|by split; [left|]].
    destruct (bool_decide (BatchItem.status item = failed)); simpl; [|by split; [right|]].
    set (J := λ d : DB,
           (∀ i, i ∈ batch_items d → BatchItem.id i = itemId → itemAwaitsRun i) ∧
           (∀ n b, batches (db h) !! n = Some b →
              ∃ b', batches d !! n = Some b' ∧ Batch.id b' = Batch.id b ∧
                Batch.completed_items b'
                  = Batch.completed_items b - (if Batch.id b =? batchId then 1 else 0) ∧
                Batch.failed_items b'
                  = Batch.failed_items b - (if Batch.id b =? batchId then 1 else 0))).
    assert (HJ1 : ∀ id status d, J d → J (Sql.updateBatchStatus id status d)).
    { intros id status d [Hi Hb]. split; [done|].
      intros n b Hn. destruct (Hb n b Hn) as (b' & Hn' & Hb').
      simpl. rewrite sqlUpdate_lookup, Hn'. simpl. eexists. split; [done|].
      by destruct (Batch.id b' =? id). }
    assert (HJ2 : ∀ id d, J d → J (Sql.updateBatchItemStatus id processing None d)).
    { intros id d [Hi Hb]. split; [|done].
      intros i Hin Hid. simpl in Hin.
      apply elem_of_sqlUpdate in Hin as (i0 & Hin0 & ->).
      destruct (BatchItem.id i0 =? id); [|by apply Hi].
      split_and!; [by right|done..]. }
    assert (HJ0 : J (Sql.decrementBatchFailed batchId (Sql.resetBatchItem itemId (db h)))).
    { split.
      - intros i Hin Hid. simpl in Hin.
        apply elem_of_sqlUpdate in Hin as (i0 & Hin0 & ->).
        destruct (BatchItem.id i0 =? itemId) eqn:E.
        + split_and!; [by left|done..].
        + simpl in Hid. apply Z.eqb_neq in E. done.
      - intros n b Hn. simpl. rewrite sqlUpdate_lookup, Hn. simpl.
        eexists. split; [done|]. destruct (Batch.id b =? batchId); simpl; lia. }
    match goal with
    | |- (∃ p, (?m h).1 = _) ∧ _ =>
        assert (Hrun : ∃ p h3, m h = (Ret (200, p), h3) ∧ J (db h3))
    end.
    { unfold resetBatchItem, decrementBatchFailed, updateBatchStatus, isProcessingBatch.
      rewrite bind_exec_ok by done. rewrite bind_exec_ok by done.
      set (h1 := set_db (Sql.decrementBatchFailed batchId) (set_db (Sql.resetBatchItem itemId) h)).
      assert (Hstatus : ∃ h2,
                (if bool_decide (Batch.status batch = completed)
                    || bool_decide (Batch.status batch = failed)
                 then exec (Sql.updateBatchStatus batchId processing) else ret tt) h1
                = (Ret tt, h2) ∧ J (db h2)).
      { destruct (bool_decide (Batch.status batch = completed)
                  || bool_decide (Batch.status batch = failed)).
        - rewrite exec_ok by done. eexists. split; [done|]. by apply HJ1.
        - eexists. split; [done|]. done. }
      destruct Hstatus as (h2 & Hh2 & HJh2).
      unfold bind at 1. rewrite Hh2. unfold bind at 1, gets.
      destruct (negb (bool_decide (activeBatches h2 !! batchId = Some true))).
      - unfold bind.
        pose proof (fireAndForget_returns (processBatch batchId) h2) as [p Hp].
        pose proof (fireAndForget_keeps _ _ (processBatch_keeps J batchId HJ1 HJ2) h2 HJh2)
          as Hkeep.
        destruct (fireAndForget (processBatch batchId) h2) as [r h3]. simpl in *.
        subst r. by eexists _, _.
      - by eexists _, _. }
    destruct Hrun as (p & h3 & -> & HJ3). simpl. split; [by eexists|exact HJ3].
  - intros jobId slideId h Hf out. subst out.
    unfold retryEligibleSlide, pptxRouter_retry, getPptxJob, getPptxSlide.
    rewrite bind_query_ok by done. rewrite bind_query_ok by done.
    destruct (Sql.getPptxJob jobId (db h)) as [job|];
      [|destruct (Sql.getPptxSlide slideId (db h)); by split; [left|]].
    destruct (Sql.getPptxSlide slideId (db h)) as [slide|]; [|by split; [left|]].
    destruct (PptxSlide.job_id slide =? jobId); simpl; [|by split; [left|]].
    destruct (bool_decide (PptxSlide.status slide = failed)); simpl; [|by split; [right|]].
    set (J := λ d : DB,
           (∀ s, s ∈ pptx_slides d → PptxSlide.id s = slideId → slideAwaitsRun s) ∧
           (∀ n j, pptx_jobs (db h) !! n = Some j →
              ∃ j', pptx_jobs d !! n = Some j' ∧ PptxJob.id j' = PptxJob.id j ∧
                PptxJob.completed_slides j'
                  = PptxJob.completed_slides j - (if PptxJob.id j =? jobId then 1 else 0) ∧
                PptxJob.failed_slides j'
                  = PptxJob.failed_slides j - (if PptxJob.id j =? jobId then 1 else 0))).
    assert (HJ1 : ∀ id status d, J d → J (Sql.updatePptxJobStatus id status d)).
    { intros id status d [Hi Hb]. split; [done|].
      intros n b Hn. destruct (Hb n b Hn) as (b' & Hn' & Hb').
      simpl. rewrite sqlUpdate_lookup, Hn'. simpl. eexists. split; [done|].
      by destruct (PptxJob.id b' =? id). }
    assert (HJ2 : ∀ id d, J d → J (Sql.updatePptxSlideStatus id processing None d)).
    { intros id d [Hi Hb]. split; [|done].
      intros i Hin Hid. simpl in Hin.
      apply elem_of_sqlUpdate in Hin as (i0 & Hin0 & ->).
      destruct (PptxSlide.id i0 =? id); [|by apply Hi].
      split_and!; [by right|done..]. }
    assert (HJ0 : J (Sql.decrementPptxFailed jobId (Sql.resetPptxSlide slideId (db h)))).
    { split.
      - intros i Hin Hid. simpl in Hin.
        apply elem_of_sqlUpdate in Hin as (i0 & Hin0 & ->).
        destruct (PptxSlide.id i0 =? slideId) eqn:E.
        + split_and!; [by left|done..].
        + simpl in Hid. apply Z.eqb_neq in E. done.
      - intros n b Hn. simpl. rewrite sqlUpdate_lookup, Hn. simpl.
        eexists. split; [done|]. destruct (PptxJob.id b =? jobId); simpl; lia. }
    match goal with
    | |- (∃ p, (?m h).1 = _) ∧ _ =>
        assert (Hrun : ∃ p h3, m h = (Ret (200, p), h3) ∧ J (db h3))
    end.
    { unfold resetPptxSlide, decrementPptxFailed, updatePptxJobStatus, isProcessingPptxJob.
      rewrite bind_exec_ok by done. rewrite bind_exec_ok by done.
      set (h1 := set_db (Sql.decrementPptxFailed jobId) (set_db (Sql.resetPptxSlide slideId) h)).
      assert (Hstatus : ∃ h2,
                (if bool_decide (PptxJob.status job = completed)
                    || bool_decide (PptxJob.status job = failed)
                 then exec (Sql.updatePptxJobStatus jobId processing) else ret tt) h1
                = (Ret tt, h2) ∧ J (db h2)).
      { destruct (bool_decide (PptxJob.status job = completed)
                  || bool_decide (PptxJob.status job = failed)).
        - rewrite exec_ok by done. eexists. split; [done|]. by apply HJ1.
        - eexists. split; [done|]. done. }
      destruct Hstatus as (h2 & Hh2 & HJh2).
      unfold bind at 1. rewrite Hh2. unfold bind at 1, gets.
      destruct (negb (bool_decide (activeJobs h2 !! jobId = Some true))).
      - unfold bind.
        pose proof (fireAndForget_returns (processPptxJob jobId) h2) as [p Hp].
        pose proof (fireAndForget_keeps _ _ (processPptxJob_keeps J jobId HJ1 HJ2) h2 HJh2)
          as Hkeep.
        destruct (fireAndForget (processPptxJob jobId) h2) as [r h3]. simpl in *.
        subst r. by eexists _, _.
      - by eexists _, _. }
    destruct Hrun as (p & h3 & -> & HJ3). simpl. split; [by eexists|exact HJ3].
Qed.

Lemma retry_is_guarded_witness :
  (faults drainedHeap = [] ∧ retryEligibleItem 1 1 (db drainedHeap) = true ∧
   ∃ p, (batchRouter_retry 1 1 drainedHeap).1 = Ret (200, p)) ∧
  (retryEligibleItem 1 2 (db drainedHeap) = false ∧
   (batchRouter_retry 1 2 drainedHeap).2 = drainedHeap).
Proof.
  split.
  - split; [reflexivity|]. split; [vm_compute; reflexivity|].
    exact (proj1 (proj1 retry_is_guarded 1 1 drainedHeap eq_refl)).
  - split; [vm_compute; reflexivity|].
    exact (proj2 (proj1 retry_is_guarded 1 2 drainedHeap eq_refl)).
Defined.

(** X13: cancellation, with a store that works. The cancel routes answer
    404 for a job that does not exist and change nothing; otherwise they
    clear the job's flag in the registry and mark the job [failed], and
    touch no task. A processor call that finds the flag cleared when its
    timer fires starts no further task: every task row is left as it is, and
    the call goes to the end of the run. *)
Theorem cancellation_stops_scheduling :
  (∀ id h, faults h = [] →
     batchRouter_cancel id h
     = match Sql.getBatch id (db h) with
       | None => (Ret (404, None), h)
       | Some _ => (Ret (200, None),
                    set_db (Sql.updateBatchStatus id failed)
                      (set_activeBatches <[id := false]> h))
       end) ∧
  (∀ id h, faults h = [] →
     pptxRouter_cancel id h
     = match Sql.getPptxJob id (db h) with
       | None => (Ret (404, None), h)
       | Some _ => (Ret (200, None),
                    set_db (Sql.updatePptxJobStatus id failed)
                      (set_activeJobs <[id := false]> h))
       end) ∧
  (∀ id batch h,
     activeBatches h !! id ≠ Some true →
     let out := processBatch_afterTimer id batch h in
     (faults h = [] → out.1 = Ret None) ∧
     batch_items (db out.2) = batch_items (db h) ∧
     activeBatches out.2 !! id = None) ∧
  (∀ id job h,
     activeJobs h !! id ≠ Some true →
     let out := processPptxJob_afterTimer id job h in
     (faults h = [] →
      out.1 = Ret None ∨ ∃ finalJob imgs, out.1 = Ret (Some (PptxAwaitAssembly id finalJob imgs))) ∧
     pptx_slides (db out.2) = pptx_slides (db h)).
Proof.
  split_and!.
  - intros id h Hf. unfold batchRouter_cancel, getBatch, cancelBatch, updateBatchStatus.
    rewrite bind_query_ok by done.
    destruct (Sql.getBatch id (db h)); [|done].
    unfold bind at 1, modify. rewrite bind_exec_ok by done. done.
  - intros id h Hf. unfold pptxRouter_cancel, getPptxJob, cancelPptxJob, updatePptxJobStatus.
    rewrite bind_query_ok by done.
    destruct (Sql.getPptxJob id (db h)); [|done].
    unfold bind at 1, modify. rewrite bind_exec_ok by done. done.
  - intros id batch h Hflag out.
    assert (Hoff : flagSet (activeBatches h !! id) = false).
    { destruct (activeBatches h !! id) as [[]|]; done. }
    subst out.
    unfold processBatch_afterTimer, tryFinally, getNextPendingBatchItem, batchWhile,
      batchFinalStatus, getBatch, updateBatchStatus, bind, query, exec, stmt, gets, ret.
    destruct h as [d ab aj pr gen key nw fs]. simpl in *.
    destruct fs as [|[e|] fs]; simpl; rewrite ?Hoff; simpl;
      repeat (case_match; simplify_eq/=); try (by rewrite Hoff in *);
      split_and!; try done; try apply lookup_delete_eq; try congruence.
  - intros id job h Hflag out.
    assert (Hoff : flagSet (activeJobs h !! id) = false).
    { destruct (activeJobs h !! id) as [[]|]; done. }
    subst out.
    unfold processPptxJob_afterTimer, tryFinally, getNextPendingPptxSlide, pptxWhile,
      pptxFinal, getPptxJob, getPptxSlides, updatePptxJobStatus, tryCatch, bind, query,
      exec, stmt, gets, ret.
    destruct h as [d ab aj pr gen key nw fs]. simpl in *.
    destruct fs as [|[e|] fs]; simpl; rewrite ?Hoff; simpl;
      repeat (case_match; simplify_eq/=); try (by rewrite Hoff in *);
      split; try done; try congruence; intros _; eauto.
Qed.

Lemma cancellation_stops_scheduling_witness :
  activeBatches cancelledHeap !! 1 ≠ Some true ∧
  (processBatch_afterTimer 1 sampleBatch cancelledHeap).1 = Ret None ∧
  batch_items (db (processBatch_afterTimer 1 sampleBatch cancelledHeap).2)
  = batch_items (db cancelledHeap).
Proof.
  assert (H : activeBatches cancelledHeap !! 1 ≠ Some true)
    by (vm_compute; discriminate).
  assert (Hf : faults cancelledHeap = []) by (vm_compute; reflexivity).
  split; [exact H|].
  pose proof (proj1 (proj2 (proj2 cancellation_stops_scheduling))
                1 sampleBatch cancelledHeap H) as Hrun.
  cbv zeta in Hrun. destruct Hrun as (Hret & Hitems & _).
  split; [exact (Hret Hf) | exact Hitems].
Defined.

(** ** The history table *)

Lemma sqlGet_filter_out {A} (p q : A → bool) (rows : list A) :
  (∀ x, p x = true → q x = true) →
  sqlGet p (List.filter q rows) = sqlGet p rows.
Proof.
  intros H. unfold sqlGet. induction rows as [|x rows IH]; simpl; [done|].
  destruct (q x) eqn:Hq; simpl.
  - by destruct (p x).
  - destruct (p x) eqn:Hp; [|done]. rewrite (H x Hp) in Hq. done.
Qed.

Lemma sqlGet_None {A} (p : A → bool) (rows : list A) :
  sqlGet p rows = None ↔ ∀ x, x ∈ rows → p x = false.
Proof.
  unfold sqlGet. split.
  - intros H x Hx. rewrite list_elem_of_In in Hx. by eapply find_none in H.
  - intros H. induction rows as [|x rows IH]; simpl; [done|].
    rewrite (H x) by left. apply IH. intros y Hy. apply H. by right.
Qed.

Lemma length_filter_out_id {A} (rid : A → Z) (id : Z) (rows : list A) :
  NoDup (map rid rows) →
  Z.of_nat (length (List.filter (λ r, negb (rid r =? id)) rows))
  = Z.of_nat (length rows)
    - match sqlGet (λ r, rid r =? id) rows with Some _ => 1 | None => 0 end.
Proof.
  unfold sqlGet. induction rows as [|x rows IH]; intros Hnd; simpl; [done|].
  simpl in Hnd. apply NoDup_cons in Hnd as [Hx Hnd]. specialize (IH Hnd).
  destruct (rid x =? id) eqn:E; simpl.
  - apply Z.eqb_eq in E.
    assert (Hnone : find (λ r, rid r =? id) rows = None).
    { apply sqlGet_None. intros y Hy. apply Z.eqb_neq. intros Heq. apply Hx.
      rewrite list_elem_of_In, in_map_iff. exists y.
      rewrite <- list_elem_of_In. split; [congruence|done]. }
    rewrite Hnone in IH. lia.
  - lia.
Qed.

Lemma getHistoryEntry_saveToHistory input clock t :
  historyOk t →
  getHistoryEntry (seq_history t + 1) (saveToHistory input clock t).2
  = Some (History.mk (seq_history t + 1) (ch_originalImage input)
            (ch_originalMimeType input) (ch_generatedImage input)
            (ch_generatedMimeType input) (ch_prompt input) (orNull (ch_preset input))
            (orNull (ch_aspectRatio input)) (numOrNull (ch_processingTime input)) clock).
Proof.
  intros [_ Hseq]. unfold getHistoryEntry. simpl. rewrite sqlGet_app_new.
  - simpl. by rewrite Z.eqb_refl.
  - intros r Hr. apply Hseq in Hr. apply Z.eqb_neq. lia.
Qed.

(** X14: an entry saved to the history reads back. In a table whose ids
    are unique and not above its sequence, [saveToHistory] returns an id above
    every id in the table, under which [getHistoryEntry] finds the images and
    the prompt as given, the preset and the aspect ratio as given or [NULL]
    when empty, and the duration as given or [NULL] when 0; every other id
    reads as before and the count is one higher. *)
Theorem saved_entry_reads_back :
  ∀ input clock t,
    historyOk t →
    let out := saveToHistory input clock t in
    getHistoryEntry out.1 out.2
    = Some (History.mk out.1 (ch_originalImage input) (ch_originalMimeType input)
              (ch_generatedImage input) (ch_generatedMimeType input)
              (ch_prompt input) (orNull (ch_preset input))
              (orNull (ch_aspectRatio input)) (numOrNull (ch_processingTime input))
              clock) ∧
    (∀ r, r ∈ history t → History.id r < out.1) ∧
    (∀ id, id ≠ out.1 → getHistoryEntry id out.2 = getHistoryEntry id t) ∧
    getHistoryCount out.2 = getHistoryCount t + 1 ∧
    historyOk out.2.
Proof.
  intros input clock t [Hnd Hseq] out. subst out. simpl.
  assert (Hold : ∀ r, r ∈ history t → (History.id r =? seq_history t + 1) = false).
  { intros r Hr. apply Hseq in Hr. apply Z.eqb_neq. lia. }
  split_and!.
  - by apply (getHistoryEntry_saveToHistory input clock t).
  - intros r Hr. apply Hseq in Hr. lia.
  - intros id Hne. unfold getHistoryEntry. simpl. apply sqlGet_app_other. simpl.
    apply Z.eqb_neq. done.
  - unfold getHistoryCount. simpl. rewrite length_app. simpl. lia.
  - split; simpl.
    + rewrite map_app. simpl. apply NoDup_app. split_and!; [done| |apply NoDup_singleton].
      intros x Hx ->%list_elem_of_singleton.
      rewrite list_elem_of_In, in_map_iff in Hx. destruct Hx as (r & Hid & Hr).
      rewrite <- list_elem_of_In in Hr. apply Hseq in Hr. lia.
    + intros r Hr. apply elem_of_app in Hr as [Hr| ->%list_elem_of_singleton].
      * apply Hseq in Hr. lia.
      * simpl. lia.
Qed.

Lemma saved_entry_reads_back_witness :
  let t := mkHistoryTable [] 0 in
  let input := mkCreateHistoryInput "QQ==" "image/png" "SU1H" "image/png" "enhance"
                 (Some "") None (Some 0) in
  historyOk t ∧
  getHistoryEntry 1 (saveToHistory input 1700000000 t).2
  = Some (History.mk 1 "QQ==" "image/png" "SU1H" "image/png" "enhance"
            None None None 1700000000).
Proof.
  assert (Hok : historyOk (mkHistoryTable [] 0)).
  { split; [constructor|]. intros r Hr. by apply elem_of_nil in Hr. }
  split; [exact Hok|].
  exact (proj1 (saved_entry_reads_back
                  (mkCreateHistoryInput "QQ==" "image/png" "SU1H" "image/png" "enhance"
                     (Some "") None (Some 0)) 1700000000 (mkHistoryTable [] 0) Hok)).
Defined.

(** X15: deleting from the history. In such a table [deleteHistoryEntry]
    returns [true] exactly when the id is present; afterwards the id is
    absent, a second deletion returns [false], every other id reads as
    before, and the count is one lower if the id was present. The sequence is
    not lowered: an entry saved next gets an id above every id the table
    held, the deleted one included. *)
Theorem deleted_entry_is_gone :
  ∀ id t,
    historyOk t →
    let out := deleteHistoryEntry id t in
    (out.1 = true ↔ ∃ r, getHistoryEntry id t = Some r) ∧
    getHistoryEntry id out.2 = None ∧
    (deleteHistoryEntry id out.2).1 = false ∧
    (∀ id', id' ≠ id → getHistoryEntry id' out.2 = getHistoryEntry id' t) ∧
    getHistoryCount out.2 = getHistoryCount t - (if out.1 then 1 else 0) ∧
    (∀ input clock r, r ∈ history t →
       History.id r < (saveToHistory input clock out.2).1) ∧
    historyOk out.2.
Proof.
  intros id t [Hnd Hseq] out. subst out. simpl.
  pose proof (length_filter_out_id History.id id (history t) Hnd) as Hlen.
  assert (Hgone : getHistoryEntry id
                    (mkHistoryTable
                       (List.filter (λ r, negb (History.id r =? id)) (history t))
                       (seq_history t)) = None).
  { unfold getHistoryEntry. simpl. apply sqlGet_None. intros x Hx.
    apply elem_of_List_filter in Hx as [_ Hx]. by apply negb_true_iff in Hx. }
  split_and!.
  - unfold getHistoryEntry. rewrite Z.ltb_lt, Hlen.
    destruct (sqlGet (λ r, History.id r =? id) (history t)) as [r|].
    + split; [eauto|]. intros _. lia.
    + split; [lia|]. by intros [r Hr].
  - exact Hgone.
  - rewrite Z.ltb_ge.
    rewrite (filter_all _ (List.filter _ (history t))); [lia|].
    intros x Hx. by apply elem_of_List_filter in Hx as [_ Hx].
  - intros id' Hne. unfold getHistoryEntry. simpl. apply sqlGet_filter_out.
    intros x Hx. apply Z.eqb_eq in Hx. apply negb_true_iff, Z.eqb_neq. congruence.
  - unfold getHistoryCount. simpl. rewrite Hlen.
    unfold getHistoryEntry.
    destruct (sqlGet (λ r, History.id r =? id) (history t)) as [r|].
    + replace (0 <? Z.of_nat (length (history t)) - (Z.of_nat (length (history t)) - 1))
        with true by (symmetry; apply Z.ltb_lt; lia). done.
    + replace (0 <? Z.of_nat (length (history t)) - (Z.of_nat (length (history t)) - 0))
        with false by (symmetry; apply Z.ltb_ge; lia). lia.
  - intros input clock r Hr. apply Hseq in Hr. lia.
  - split; simpl.
    + revert Hnd. generalize (history t). intros rows.
      induction rows as [|x rows IH]; simpl; intros Hnd; [constructor|].
      apply NoDup_cons in Hnd as [Hx Hnd].
      destruct (negb (History.id x =? id)); [|by apply IH].
      simpl. apply NoDup_cons. split; [|by apply IH].
      intros Hin. apply Hx.
      rewrite list_elem_of_In, in_map_iff in Hin. destruct Hin as (y & Hy & Hin).
      rewrite list_elem_of_In, in_map_iff. exists y. split; [done|].
      apply filter_In in Hin as [Hin _]. done.
    + intros r Hr. apply elem_of_List_filter in Hr as [Hr _]. by apply Hseq.
Qed.

Lemma deleted_entry_is_gone_witness :
  let row := History.mk 1 "QQ==" "image/png" "SU1H" "image/png" "enhance"
               None None (Some 800) 1700000000 in
  let t := mkHistoryTable [row] 1 in
  historyOk t ∧ (deleteHistoryEntry 1 t).1 = true ∧
  getHistoryEntry 1 (deleteHistoryEntry 1 t).2 = None ∧
  (saveToHistory (mkCreateHistoryInput "Qg==" "image/png" "SU1I" "image/png"
                    "enhance" None None None) 1700000100 (deleteHistoryEntry 1 t).2).1 = 2.
Proof.
  assert (Hok : historyOk (mkHistoryTable
                  [History.mk 1 "QQ==" "image/png" "SU1H" "image/png" "enhance"
                     None None (Some 800) 1700000000] 1)).
  { split; simpl; [apply NoDup_singleton|].
    intros r ->%list_elem_of_singleton. simpl. lia. }
  split; [exact Hok|]. split; [reflexivity|]. split; [|reflexivity].
  exact (proj1 (proj2 (deleted_entry_is_gone 1 _ Hok))).
Defined.

Lemma length_orderBy {A} (key : A → Z) (rows : list A) :
  length (orderBy key rows) = length rows.
Proof. by rewrite orderBy_Permutation. Qed.








(** X17: the single-image route saves successes only. If [generateImage]
    returns a failure, the answer is 500 with the result's message and code
    and the history is left as it was. If it returns a success and the
    [INSERT] works, the answer is 200 with the image and the id of the new
    history entry, which holds the request's image, type and prompt and the
    generated image and type. The answer is 500 with code [UNKNOWN], and
    nothing is saved, in two cases: the [INSERT] throws, or [generateImage]
    itself rejects, which it does only when the provider rejects with an
    [Error] whose message is not a string. No success is answered with
    'No image generated'. *)
Theorem beautify_saves_successes_only :
  ∀ body h,
    ∃ g h', beautifyRouter_call body h = (Ret (now h, g), h') ∧
      ∀ provider time catchTime clock fault t,
        let outcome := generateImage_result g provider in
        let out := beautifyRouter_respond body (now h) outcome time catchTime clock
                     fault t in
        match outcome with
        | Throw _ =>
            (∃ message, provider = RejectsOdd message) ∧
            out = (500, mkBeautifyResponse false None None
                          (Some "An unexpected error occurred") (Some "UNKNOWN")
                          (catchTime - now h) None, t)
        | Ret result =>
            if success result then
              match fault with
              | None =>
                  out.1.1 = 200 ∧ resp_success out.1.2 = true ∧
                  resp_image out.1.2 = image result ∧
                  resp_mimeType out.1.2 = mimeType result ∧
                  resp_processingTime out.1.2 = time - now h ∧
                  resp_historyId out.1.2 = Some (seq_history t + 1) ∧
                  ∃ img mime, image result = Some img ∧ mimeType result = Some mime ∧
                    (historyOk t →
                     getHistoryEntry (seq_history t + 1) out.2
                     = Some (History.mk (seq_history t + 1) (br_image body)
                               (br_mimeType body) img mime (br_prompt body)
                               (orNull (br_preset body)) (orNull (br_aspectRatio body))
                               (numOrNull (Some (time - now h))) clock))
              | Some _ =>
                  out = (500, mkBeautifyResponse false None None
                                (Some "An unexpected error occurred") (Some "UNKNOWN")
                                (catchTime - now h) None, t)
              end
            else
              out.1.1 = 500 ∧ resp_success out.1.2 = false ∧
              resp_error out.1.2 = error result ∧ truthy (error result) = true ∧
              resp_errorCode out.1.2 = errorCode result ∧
              resp_processingTime out.1.2 = time - now h ∧ out.2 = t
        end.
Proof.
  intros body h.
  destruct (generateImage_wellFormed
              (mkOptions (br_image body) (br_mimeType body) (br_prompt body)
                 (br_aspectRatio body)) h (Rejects JsNonError))
    as (g & h' & Hcall & _).
  exists g, h'. split.
  { unfold beautifyRouter_call, bind, Date_now, gets. by rewrite Hcall. }
  intros provider time catchTime clock fault t outcome out.
  assert (Hwf : match outcome with
                | Ret result => wellFormedResult result
                | Throw e => ∃ message, provider = RejectsOdd message
                end).
  { destruct (generateImage_wellFormed
                (mkOptions (br_image body) (br_mimeType body) (br_prompt body)
                   (br_aspectRatio body)) h provider)
      as (g' & h'' & Hcall' & Hwf).
    rewrite Hcall in Hcall'. injection Hcall' as <- <-. fold outcome in Hwf.
    destruct outcome; [done|]. destruct Hwf as (_ & message & -> & _). by eexists. }
  subst out. unfold beautifyRouter_respond.
  destruct outcome as [result|e]; [|done].
  destruct Hwf as [(Hs & Hi & Hm & He & Hc)|(Hs & Hi & Hm & He & Hc)].
  - rewrite Hs, Hi, Hm. simpl.
    destruct fault as [e|]; simpl; [done|].
    split_and!; try done.
    apply truthy_Some in Hi as (img & Hi & _).
    apply truthy_Some in Hm as (mime & Hm & _).
    exists img, mime. split_and!; [done..|].
    intros Hok. rewrite Hi, Hm. simpl.
    exact (getHistoryEntry_saveToHistory
             (mkCreateHistoryInput (br_image body) (br_mimeType body) img mime
                (br_prompt body) (br_preset body) (br_aspectRatio body)
                (Some (time - now h))) clock t Hok).
  - rewrite Hs. simpl. by split_and!.
Qed.

Lemma beautify_saves_successes_only_witness :
  let body := mkBeautifyRequest "QQ==" "image/png" "enhance" None (Some "modern") in
  let h := set_env 1000 [] (initHeap (Some "key")) in
  historyOk (mkHistoryTable [] 0) ∧
  ∃ g h', beautifyRouter_call body h = (Ret (1000, g), h') ∧
    (let out := beautifyRouter_respond body 1000
                  (generateImage_result g (imageResponse "SU1H")) 1800 1800 1700000000 None
                  (mkHistoryTable [] 0) in
     out.1.1 = 200 ∧
     getHistoryEntry 1 out.2
     = Some (History.mk 1 "QQ==" "image/png" "SU1H" "image/png" "enhance"
               (Some "modern") None (Some 800) 1700000000)) ∧
    beautifyRouter_respond body 1000 (generateImage_result g (RejectsOdd MsgNull))
      1800 1900 1700000000 None (mkHistoryTable [] 0)
    = (500, mkBeautifyResponse false None None (Some "An unexpected error occurred")
              (Some "UNKNOWN") 900 None, mkHistoryTable [] 0).
Proof.
  assert (Hok : historyOk (mkHistoryTable [] 0)).
  { split; [constructor|]. intros r Hr. by apply elem_of_nil in Hr. }
  split; [exact Hok|].
  destruct (beautify_saves_successes_only
              (mkBeautifyRequest "QQ==" "image/png" "enhance" None (Some "modern"))
              (set_env 1000 [] (initHeap (Some "key"))))
    as (g & h' & Hcall & Hresp).
  exists g, h'. split; [exact Hcall|].
  assert (Hg : g = GenAwaitsProvider (mkRequest "QQ==" "image/png" "enhance")).
  { vm_compute in Hcall. by injection Hcall as <- _. }
  subst g. split.
  - specialize (Hresp (imageResponse "SU1H") 1800 1800 1700000000 None
                  (mkHistoryTable [] 0)).
    destruct Hresp as (H1 & _ & _ & _ & _ & _ & img & mime & Hi & Hm & Hget).
    split; [exact H1|].
    injection Hi as <-. injection Hm as <-. exact (Hget Hok).
  - specialize (Hresp (RejectsOdd MsgNull) 1800 1900 1700000000 None
                  (mkHistoryTable [] 0)).
    exact (proj2 Hresp).
Defined.

(** ** Empty strings, and the status route *)

Lemma orNull_not_empty s : orNull s ≠ Some "".
Proof. by destruct s as [[|c s]|]. Qed.

Lemma noEmptyText_closed : StmtClosed noEmptyText.
Proof.
  constructor; intros;
    try match goal with b : bool |- _ => destruct b end;
    match goal with H : noEmptyText _ |- _ => destruct H as (Hb & Hi & Hj & Hs) end;
    split_and!; simpl; try done; intros r Hr;
    first
      [ apply elem_of_sqlUpdate in Hr as (r0 & Hr0 & ->);
        first [ specialize (Hb r0 Hr0) | specialize (Hi r0 Hr0)
              | specialize (Hj r0 Hr0) | specialize (Hs r0 Hr0) ];
        case_match; simpl; split_and!; first [tauto | apply orNull_not_empty | done]
      | apply elem_of_app in Hr as [Hr| ->%list_elem_of_singleton]; [by auto|];
        simpl; split_and!; first [apply orNull_not_empty | done] ].
Qed.

(** X18: whatever the store does, no nullable text column ever holds an
    empty string: presets, aspect ratios, generated images and their types,
    and error texts are stored as [NULL] when they are empty. *)
Theorem empty_text_is_stored_as_null :
  ∀ apiKey w, evolves (initWorld apiKey) w → noEmptyText (db (heap w)).
Proof.
  intros apiKey w H.
  apply (evolves_closed _ noEmptyText_closed _ w H).
  split_and!; intros r Hr; by apply elem_of_nil in Hr.
Qed.

Lemma empty_text_is_stored_as_null_witness :
  evolves (initWorld (Some "key")) (run storeFailureTrace (initWorld (Some "key"))) ∧
  noEmptyText (db (heap (run storeFailureTrace (initWorld (Some "key"))))).
Proof.
  split; [apply evolves_run, evolves_refl|].
  exact (empty_text_is_stored_as_null _ _
           (evolves_run storeFailureTrace _ _ (evolves_refl _))).
Defined.

Lemma reachable_evolves w : reachable w → ∃ apiKey, evolves (initWorld apiKey) w.
Proof.
  induction 1 as [apiKey|t w _ [k IH] _|apiKey w _ [k IH]].
  - exists apiKey. constructor.
  - exists k. by constructor.
  - exists k. by constructor.
Qed.

Lemma countIf_map {A B} (f : A → B) (q : B → bool) (rows : list A) :
  countIf q (map f rows) = countIf (λ r, q (f r)) rows.
Proof.
  induction rows as [|x rows IH]; simpl; [done|]. rewrite !countIf_cons. lia.
Qed.

Lemma countIf_true {A} (rows : list A) : countIf (λ _, true) rows = Z.of_nat (length rows).
Proof. apply countIf_all. done. Qed.

Lemma sorted_keys {A} (key : A → Z) (l : list A) :
  StronglySorted (keyLe key) l → StronglySorted Z.le (map key l).
Proof.
  induction 1 as [|x l _ IH Hx]; simpl; constructor; [done|].
  apply Forall_forall. intros y Hy.
  rewrite list_elem_of_In, in_map_iff in Hy. destruct Hy as (z & <- & Hz).
  rewrite Forall_forall in Hx. apply Hx. by rewrite list_elem_of_In.
Qed.

(** X19: the status route, for a batch that exists, in a state the server
    has reached with a store that works. The answer is 200 and changes
    nothing; it lists the batch's items in id order; its total is the number
    of items listed, its completed count the number of listed items that are
    [completed] or [failed], its failed count the number that are [failed];
    and an item is flagged as having a result exactly when it is
    [completed], and has an error text exactly when it is [failed]. *)
Theorem status_answer_is_consistent :
  ∀ w, reachable w →
    ∀ id batch tm,
      Sql.getBatch id (db (heap w)) = Some batch →
      let h := set_env tm [] (heap w) in
      ∃ resp,
        batchRouter_get (Some id) h = (Ret (200, Some resp), h) ∧
        map sum_id (bsr_items resp) = map BatchItem.id (Sql.getBatchItems id (db h)) ∧
        StronglySorted Z.le (map sum_id (bsr_items resp)) ∧
        bsr_totalItems resp = Z.of_nat (length (bsr_items resp)) ∧
        bsr_completedItems resp
          = countIf (λ s, isTerminalStatus (sum_status s)) (bsr_items resp) ∧
        bsr_failedItems resp
          = countIf (λ s, bool_decide (sum_status s = failed)) (bsr_items resp) ∧
        Forall (λ s, (sum_hasResult s = true ↔ sum_status s = completed) ∧
                     (sum_error s ≠ None ↔ sum_status s = failed))
          (bsr_items resp).
Proof.
  intros w Hw id batch tm Hget h.
  pose proof (reachable_evolves w Hw) as [k Hev].
  assert (Hne : ∀ i, i ∈ batch_items (db (heap w)) →
            BatchItem.generated_image i ≠ Some "" ∧
            BatchItem.generated_mime_type i ≠ Some "" ∧ BatchItem.error i ≠ Some "").
  { apply (evolves_closed _ noEmptyText_closed _ w Hev).
    split_and!; intros r Hr; by apply elem_of_nil in Hr. }
  apply reachable_inv in Hw as [[Hb _] _].
  assert (Hf : faults h = []) by done.
  unfold batchRouter_get, getBatch, getBatchItems, isProcessingBatch.
  rewrite bind_query_ok by done. change (db h) with (db (heap w)). rewrite Hget.
  rewrite bind_query_ok by done. unfold bind, gets, ret.
  eexists. split; [reflexivity|]. simpl. change (db h) with (db (heap w)).
  apply sqlGet_Some in Hget as [Hin Hid]. apply Z.eqb_eq in Hid.
  destruct (ti_counted _ _ _ _ _ Hb batch Hin) as (Ht & Hc & Hfl).
  simpl in Ht, Hc, Hfl. rewrite Hid in Ht, Hc, Hfl.
  unfold Sql.getBatchItems.
  set (mine := λ i, BatchItem.batch_id i =? id) in *.
  assert (Hperm : orderBy BatchItem.id (List.filter mine (batch_items (db (heap w))))
                  ≡ₚ List.filter mine (batch_items (db (heap w))))
    by apply orderBy_Permutation.
  split_and!.
  - by rewrite map_map.
  - rewrite map_map. simpl. apply sorted_keys, orderBy_sorted.
  - rewrite length_map, length_orderBy, Ht. unfold countIf. done.
  - rewrite countIf_map. simpl. rewrite (countIf_Permutation _ _ _ Hperm).
    by rewrite countIf_filter.
  - rewrite countIf_map. simpl. rewrite (countIf_Permutation _ _ _ Hperm).
    by rewrite countIf_filter.
  - apply Forall_forall. intros s Hs.
    rewrite list_elem_of_In, in_map_iff in Hs. destruct Hs as (i & <- & Hi).
    rewrite <- list_elem_of_In in Hi.
    apply orderBy_elem, elem_of_List_filter in Hi as [Hi _]. simpl.
    destruct (ti_consistent _ _ _ _ _ Hb i Hi) as [Hout Herr]. simpl in Hout, Herr.
    split; [|done]. rewrite <- Hout.
    destruct (Hne i Hi) as (Hempty & _).
    destruct (BatchItem.generated_image i) as [[|c s]|]; simpl; split; done.
Qed.

Lemma status_answer_is_consistent_witness :
  reachable retryWorld ∧
  ∃ resp,
    batchRouter_get (Some 1) (set_env 9900 [] (heap retryWorld))
    = (Ret (200, Some resp), set_env 9900 [] (heap retryWorld)) ∧
    bsr_totalItems resp = Z.of_nat (length (bsr_items resp)).
Proof.
  split; [exact retryWorld_reachable|].
  assert (H : Sql.getBatch 1 (db (heap retryWorld))
              = Some (Batch.mk 1 processing 2 1 0 "enhance" None None false))
    by (vm_compute; reflexivity).
  destruct (status_answer_is_consistent retryWorld retryWorld_reachable 1 _ 9900 H)
    as (resp & Hrun & _ & _ & Htotal & _).
  exists resp. split; [exact Hrun | exact Htotal].
Defined.

(** ** The names in the archive *)

Lemma plainChars_dot (a b : string) : plainChars (a ++ String "." b) = false.
Proof.
  induction a as [|c a IH]; simpl; [done|]. rewrite IH. by destruct (plainChar c).
Qed.

Lemma removeExtension_app (base ext : string) :
  ext ≠ "" → plainChars ext = true →
  removeExtension (base ++ String "." ext) = base.
Proof.
  intros Hne Hplain. induction base as [|c base IH]; simpl.
  - rewrite Hplain. by destruct ext.
  - rewrite plainChars_dot, IH. by rewrite !andb_false_r.
Qed.

Lemma removeExtension_lacks (s : string) :
  lacks "." s = true → removeExtension s = s.
Proof.
  induction s as [|c s IH]; simpl; [done|]. intros [Hc Hs]%andb_true_iff.
  apply negb_true_iff in Hc. rewrite Hc. simpl. by rewrite IH.
Qed.

Lemma splitOn_lacks sep (s : string) : lacks sep s = true → splitOn sep s = [s].
Proof.
  induction s as [|c s IH]; simpl; [done|]. intros [Hc Hs]%andb_true_iff.
  apply negb_true_iff in Hc. rewrite Hc. by rewrite IH.
Qed.

Lemma splitOn_app sep (a b : string) :
  lacks sep a = true → splitOn sep (a ++ String sep b) = a :: splitOn sep b.
Proof.
  induction a as [|c a IH]; simpl.
  - intros _. by rewrite Ascii.eqb_refl.
  - intros [Hc Ha]%andb_true_iff. apply negb_true_iff in Hc. rewrite Hc.
    by rewrite IH.
Qed.

(** X20: the name of an entry of the downloaded archive. A file name that
    ends in a dot and an extension without dots or slashes loses that
    extension, and only that one; the entry is named after what is left,
    followed by [-beautified.] and the subtype of the generated image's
    type. A file name without a dot is kept whole, and a type with no
    subtype gives the extension [png]. *)
Theorem archive_entry_names :
  ∀ base ext type sub : string,
    ext ≠ "" → plainChars ext = true →
    lacks "/" type = true → lacks "/" sub = true → sub ≠ "" →
    archiveName (base ++ "." ++ ext) (type ++ "/" ++ sub)
    = (base ++ "-beautified." ++ sub)%string ∧
    (lacks "." base = true →
     archiveName base (type ++ "/" ++ sub) = (base ++ "-beautified." ++ sub)%string) ∧
    archiveName (base ++ "." ++ ext) type = (base ++ "-beautified.png")%string ∧
    archiveName (base ++ "." ++ ext) (type ++ "/") = (base ++ "-beautified.png")%string.
Proof.
  intros base ext type sub Hext Hplain Htype Hsub Hne.
  assert (Hrm : removeExtension (base ++ "." ++ ext) = base)
    by (by apply removeExtension_app).
  assert (Hsubtype : archiveExtension (type ++ "/" ++ sub) = sub).
  { unfold archiveExtension. change (type ++ "/" ++ sub)%string with (type ++ String "/" sub)%string.
    rewrite splitOn_app, splitOn_lacks by done. simpl. by destruct sub. }
  assert (Hnone : archiveExtension type = "png").
  { unfold archiveExtension. by rewrite splitOn_lacks. }
  assert (Hempty : archiveExtension (type ++ "/") = "png").
  { unfold archiveExtension. change (type ++ "/")%string with (type ++ String "/" "")%string.
    by rewrite splitOn_app. }
  unfold archiveName. rewrite Hrm, Hsubtype, Hnone, Hempty. split_and!; try done.
  intros Hbase. by rewrite removeExtension_lacks.
Qed.

Lemma archive_entry_names_witness :
  archiveName "slide.v2.png" "image/jpeg" = "slide.v2-beautified.jpeg".
Proof.
  exact (proj1 (archive_entry_names "slide.v2" "png" "image" "jpeg"
                  ltac:(discriminate) eq_refl eq_refl eq_refl ltac:(discriminate))).
Defined.

(** ** Extractions are used once *)

Lemma pptxRouter_beautify_returns input h :
  ∃ status p, (pptxRouter_beautify input h).1 = Ret (status, p) ∧
              (status = 200 ∨ status = 500).
Proof.
  unfold pptxRouter_beautify, tryCatch, bind, ret.
  destruct (createPptxJob input h) as [[jobId|e] h1]; simpl; [|eauto].
  destruct (fireAndForget_returns (processPptxJob jobId) h1) as [p Hp].
  destruct (fireAndForget (processPptxJob jobId) h1) as [[p'|e] h2]; simpl in *; [|done].
  eauto.
Qed.

Lemma existsb_eqb_elem (n : Z) (l : list Z) :
  existsb (Z.eqb n) l = bool_decide (n ∈ l).
Proof.
  induction l as [|m l IH]; simpl; [done|]. rewrite IH.
  destruct (Z.eqb_spec n m) as [->|Hne]; simpl.
  - symmetry. apply bool_decide_eq_true. left.
  - apply bool_decide_ext. rewrite elem_of_cons. split; [by right|]. by intros [?|?].
Qed.

(** X21: a request to beautify the slides of an earlier extraction. For an
    extraction that is not in the cache, or a selection that names none of
    its slides, the answer is 400 and neither the cache nor the store
    changes. Otherwise the job is made of the cached slides whose number is
    in the selection, in the cached order and each once, or of all of them
    when there is no selection; the answer is 200 or 500, and in both cases
    the extraction leaves the cache, so that the same request sent again is
    answered 400. *)
Theorem extraction_is_used_once :
  ∀ prompt preset aspectRatio id selected cache h,
    prompt ≠ "" →
    let out := pptxRouter_beautify_cached prompt preset aspectRatio id selected cache h in
    match cache !! id with
    | None => out = (Ret (400, None, cache), h)
    | Some cached =>
        if bool_decide (is_Some selected ∧ pickedSlides selected cached = []) then
          out = (Ret (400, None, cache), h)
        else
          ∃ status p,
            (pptxRouter_beautify
               (mkCreatePptxJobInput (ex_filename cached) prompt preset aspectRatio
                  (map (λ s, mkPptxInputSlide (cs_slideNumber s) (cs_imageData s))
                     (pickedSlides selected cached))) h).1 = Ret (status, p) ∧
            (status = 200 ∨ status = 500) ∧
            out.1 = Ret (status, p, delete id cache) ∧
            out.2 = (pptxRouter_beautify
                       (mkCreatePptxJobInput (ex_filename cached) prompt preset aspectRatio
                          (map (λ s, mkPptxInputSlide (cs_slideNumber s) (cs_imageData s))
                             (pickedSlides selected cached))) h).2 ∧
            pptxRouter_beautify_cached prompt preset aspectRatio id selected
              (delete id cache) out.2
            = (Ret (400, None, delete id cache), out.2)
    end.
Proof.
  intros prompt preset aspectRatio id selected cache h Hprompt out.
  assert (Htruthy : truthy (Some prompt) = true) by (by destruct prompt).
  assert (Hagain : ∀ h', pptxRouter_beautify_cached prompt preset aspectRatio id selected
                           (delete id cache) h' = (Ret (400, None, delete id cache), h')).
  { intros h'. unfold pptxRouter_beautify_cached. rewrite Htruthy. simpl.
    by rewrite lookup_delete_eq. }
  subst out. destruct (cache !! id) as [cached|] eqn:Hc.
  2:{ unfold pptxRouter_beautify_cached. by rewrite Htruthy, Hc. }
  set (picked := pickedSlides selected cached).
  set (input := mkCreatePptxJobInput _ _ _ _ _).
  assert (Hout : pptxRouter_beautify_cached prompt preset aspectRatio id selected cache h
                 = if bool_decide (is_Some selected ∧ picked = [])
                   then (Ret (400, None, cache), h)
                   else (let* answer := pptxRouter_beautify input in
                         ret (answer, delete id cache)) h).
  { unfold pptxRouter_beautify_cached. rewrite Htruthy, Hc. simpl.
    assert (Hpick : match selected with
                    | Some sel =>
                        map (λ s, mkPptxInputSlide (cs_slideNumber s) (cs_imageData s))
                          (List.filter (λ s, existsb (Z.eqb (cs_slideNumber s)) sel)
                             (ex_slides cached))
                    | None => map (λ s, mkPptxInputSlide (cs_slideNumber s) (cs_imageData s))
                                (ex_slides cached)
                    end
                    = map (λ s, mkPptxInputSlide (cs_slideNumber s) (cs_imageData s)) picked).
    { unfold picked. destruct selected as [sel|]; simpl; [|done]. f_equal.
      apply List.filter_ext. intros s. apply existsb_eqb_elem. }
    rewrite Hpick. fold input.
    assert (Hnil : bool_decide (is_Some selected)
                   && bool_decide (map (λ s, mkPptxInputSlide (cs_slideNumber s)
                                               (cs_imageData s)) picked = [])
                   = bool_decide (is_Some selected ∧ picked = [])).
    { rewrite <- bool_decide_and. apply bool_decide_ext.
      split; intros [Hs Hm]; (split; [done|]);
        [by apply map_eq_nil in Hm | by rewrite Hm]. }
    rewrite Hnil. by destruct (bool_decide (is_Some selected ∧ picked = [])). }
  rewrite Hout. destruct (bool_decide (is_Some selected ∧ picked = [])); [done|].
  destruct (pptxRouter_beautify_returns input h) as (status & p & Hret & Hst).
  exists status, p. unfold bind, ret.
  destruct (pptxRouter_beautify input h) as [[a|e] h']; simpl in *; [|done].
  simplify_eq. split_and!; try done.
Qed.

Lemma extraction_is_used_once_witness :
  "enhance" ≠ "" ∧
  ∃ status p,
    (pptxRouter_beautify_cached "enhance" None None "e1" (Some [3; 1; 3; 7]) sampleCache
       sampleHeap).1 = Ret (status, p, delete "e1" sampleCache) ∧
    (pptxRouter_beautify
       (mkCreatePptxJobInput "deck.pptx" "enhance" None None
          [mkPptxInputSlide 1 "UzE="; mkPptxInputSlide 3 "UzM="]) sampleHeap).1
    = Ret (status, p).
Proof.
  assert (Hne : "enhance" ≠ "") by discriminate.
  split; [exact Hne|].
  pose proof (extraction_is_used_once "enhance" None None "e1" (Some [3; 1; 3; 7])
                sampleCache sampleHeap Hne) as H.
  cbv zeta in H.
  assert (Hlook : sampleCache !! "e1"
                  = Some (mkExtraction [mkCachedSlide 1 "UzE=" "VDE=";
                                        mkCachedSlide 2 "UzI=" "VDI=";
                                        mkCachedSlide 3 "UzM=" "VDM="] "deck.pptx" 1000))
    by apply lookup_singleton_eq.
  rewrite Hlook in H.
  rewrite bool_decide_eq_false_2 in H by (intros [_ Hnil]; vm_compute in Hnil; discriminate).
  destruct H as (status & p & Hjob & _ & Hout & _).
  exists status, p. split; [exact Hout|].
  assert (Hpicked : pickedSlides (Some [3; 1; 3; 7])
                      (mkExtraction [mkCachedSlide 1 "UzE=" "VDE=";
                                     mkCachedSlide 2 "UzI=" "VDI=";
                                     mkCachedSlide 3 "UzM=" "VDM="] "deck.pptx" 1000)
                    = [mkCachedSlide 1 "UzE=" "VDE="; mkCachedSlide 3 "UzM=" "VDM="])
    by (vm_compute; reflexivity).
  rewrite Hpicked in Hjob. exact Hjob.
Defined.
